(** * Registrant-count spreadsheet converter: [convert_xls_to_csv.py]

    A shallow embedding of the tabular extractor
    ([_norm_cell], [_find_precinct_no_header], [_clean_int_series],
    [extract_sheet], [extract_all_sheets]) together with the parts of
    Python's [str]/[re] and of pandas that these functions rely on.

    Conventions.
    - A Python [str] is a Rocq [string]; a character is a code point
      below 256 (the Latin-1 range), classified as CPython classifies it.
    - pandas is modelled with the behaviour of the 2.x series (the one
      that introduced [DataFrame.map]): cells are dynamically typed
      objects, a [Series] is a list of (label, value) pairs, building a
      frame from a dict of Series aligns them on the sorted union of
      their labels, and [astype(str)] turns a missing value into text.
    - An exception is an explicit [Raise] result. *)

From Stdlib Require Import String Ascii List ZArith NArith Bool Arith Lia.
From Stdlib Require Import DecimalString DecimalPos Sorted.
From Stdlib Require DecimalFacts.
Import ListNotations.

Open Scope string_scope.
Open Scope list_scope.

(* ------------------------------------------------------------------ *)
(** ** Exceptions *)

Inductive exn : Type :=
| ValueError (msg : string)
| OverflowError (msg : string).

Inductive result (A : Type) : Type :=
| Ok (a : A)
| Raise (e : exn).

Arguments Ok {A} a.
Arguments Raise {A} e.

Definition bind {A B : Type} (m : result A) (k : A -> result B) : result B :=
  match m with
  | Ok a => k a
  | Raise e => Raise e
  end.

Notation "x <- m ;; k" := (bind m (fun x => k))
  (at level 61, m at next level, right associativity).
Notation "' p <- m ;; k" := (bind m (fun x => let p := x in k))
  (at level 61, p pattern, m at next level, right associativity).

Fixpoint mapM {A B : Type} (f : A -> result B) (l : list A) : result (list B) :=
  match l with
  | [] => Ok []
  | a :: l' => b <- f a ;; bs <- mapM f l' ;; Ok (b :: bs)
  end.

(* ------------------------------------------------------------------ *)
(** ** Python text primitives *)

Module Py.

(** Code point of a character. *)
Definition cp (c : ascii) : N := N_of_ascii c.

Definition between (lo hi n : N) : bool := ((lo <=? n) && (n <=? hi))%N.

(** [str.isspace] / the [\s] class of a [str] pattern. *)
Definition isspace (c : ascii) : bool :=
  let n := cp c in
  between 9 13 n || between 28 32 n || (n =? 133)%N || (n =? 160)%N.

(** The [\d] class: decimal digits (only 0-9 below 256). *)
Definition isdigit (c : ascii) : bool := between 48 57 (cp c).

(** The [\w] class: alphanumerics and the underscore. *)
Definition isword (c : ascii) : bool :=
  let n := cp c in
  between 48 57 n || between 65 90 n || between 97 122 n || (n =? 95)%N
  || (n =? 170)%N || (n =? 178)%N || (n =? 179)%N || (n =? 181)%N
  || (n =? 185)%N || (n =? 186)%N || between 188 190 n
  || between 192 214 n || between 216 246 n || between 248 255 n.

(** Lower-casing of the ASCII letters, as [re.I] applies it to a
    pattern letter and to the subject character. *)
Definition lower (c : ascii) : ascii :=
  if between 65 90 (cp c) then ascii_of_N (cp c + 32) else c.

Definition is_empty (s : string) : bool :=
  match s with EmptyString => true | String _ _ => false end.

Fixpoint lstrip (s : string) : string :=
  match s with
  | EmptyString => EmptyString
  | String c s' => if isspace c then lstrip s' else s
  end.

Fixpoint rstrip (s : string) : string :=
  match s with
  | EmptyString => EmptyString
  | String c s' =>
      let t := rstrip s' in
      if isspace c && is_empty t then EmptyString else String c t
  end.

(** [s.strip()] *)
Definition strip (s : string) : string := rstrip (lstrip s).

(** [re.sub(r"\s+", " ", s)]: every maximal run of whitespace becomes
    one space; [in_run] records that the previous character was
    whitespace. *)
Fixpoint sub_ws_run (in_run : bool) (s : string) : string :=
  match s with
  | EmptyString => EmptyString
  | String c s' =>
      if isspace c
      then if in_run then sub_ws_run true s'
           else String " " (sub_ws_run true s')
      else String c (sub_ws_run false s')
  end.

Definition sub_ws (s : string) : string := sub_ws_run false s.

(** Removal of every character outside a class:
    [re.sub("[^...]", "", s)]. *)
Fixpoint keep (p : ascii -> bool) (s : string) : string :=
  match s with
  | EmptyString => EmptyString
  | String c s' => if p c then String c (keep p s') else keep p s'
  end.

(** *** Regular expressions

    The fragment of [re] used by the header pattern, matched by
    backtracking with a continuation.  [prev] is the character before
    the current position, needed by [\b]. *)
Inductive regex : Type :=
| Eps
| Chr (p : ascii -> bool)
| Bnd
| Cat (r1 r2 : regex)
| Alt (r1 r2 : regex)
| Opt (r : regex)
| StarC (p : ascii -> bool).

Definition word_at (c : option ascii) : bool :=
  match c with Some a => isword a | None => false end.

Definition next_char (s : string) : option ascii :=
  match s with String c _ => Some c | EmptyString => None end.

Fixpoint star_class (p : ascii -> bool) (prev : option ascii) (s : string)
         (k : option ascii -> string -> bool) : bool :=
  match s with
  | String c s' =>
      if p c then star_class p (Some c) s' k || k prev s else k prev s
  | EmptyString => k prev s
  end.

Fixpoint match_here (r : regex) (prev : option ascii) (s : string)
         (k : option ascii -> string -> bool) : bool :=
  match r with
  | Eps => k prev s
  | Chr p =>
      match s with
      | String c s' => p c && k (Some c) s'
      | EmptyString => false
      end
  | Bnd => xorb (word_at prev) (word_at (next_char s)) && k prev s
  | Cat r1 r2 => match_here r1 prev s (fun prev' s' => match_here r2 prev' s' k)
  | Alt r1 r2 => match_here r1 prev s k || match_here r2 prev s k
  | Opt r1 => match_here r1 prev s k || k prev s
  | StarC p => star_class p prev s k
  end.

Definition accept (_ : option ascii) (_ : string) : bool := true.

Fixpoint search_from (r : regex) (prev : option ascii) (s : string) : bool :=
  match_here r prev s accept
  || match s with
     | String c s' => search_from r (Some c) s'
     | EmptyString => false
     end.

(** [bool(pattern.search(s))] *)
Definition search (r : regex) (s : string) : bool := search_from r None s.

(** A pattern letter under [re.I]. *)
Definition ichr (a : ascii) : regex :=
  Chr (fun c => Ascii.eqb (lower c) (lower a)).

(** A literal character that has no case. *)
Definition chr (a : ascii) : regex := Chr (Ascii.eqb a).

(** A literal word under [re.I]. *)
Fixpoint iword (w : string) : regex :=
  match w with
  | EmptyString => Eps
  | String a w' => Cat (ichr a) (iword w')
  end.

(** [int(t)] for a text [t] over the digits and the minus sign, the
    only characters the numeric cleaning leaves: an optional leading
    minus followed by one or more digits; anything else is the
    ValueError of [int].  CPython (3.11 and later, and the security
    releases of the earlier versions) also refuses, with a ValueError
    of its own, to convert a run of more than 4300 digits, the default
    of [sys.get_int_max_str_digits()]; it counts the digits before it
    looks at what follows them. *)
Inductive int_parse : Type :=
| Parsed (z : Z)
| Invalid
| TooLong (digits : nat).

Definition max_str_digits : Z := 4300.

(** The number of digits at the head of a text. *)
Fixpoint digit_run (s : string) : nat :=
  match s with
  | EmptyString => 0
  | String c s' => if isdigit c then S (digit_run s') else 0
  end.

Fixpoint digits_val (acc : Z) (s : string) : option Z :=
  match s with
  | EmptyString => Some acc
  | String c s' =>
      if isdigit c
      then digits_val (10 * acc + (Z.of_N (cp c) - 48)) s'
      else None
  end.

Definition unsigned_literal (s : string) : int_parse :=
  if (max_str_digits <? Z.of_nat (digit_run s))%Z then TooLong (digit_run s)
  else if is_empty s then Invalid
  else match digits_val 0 s with
       | Some z => Parsed z
       | None => Invalid
       end.

Definition int_literal (t : string) : int_parse :=
  match t with
  | String "-" d =>
      match unsigned_literal d with
      | Parsed z => Parsed (- z)
      | other => other
      end
  | _ => unsigned_literal t
  end.

(** [str(z)] for an integer. *)
Definition str_of_int (z : Z) : string := NilEmpty.string_of_int (Z.to_int z).

(** The message of the ValueError that [int(t)] raises. *)
Definition int_error (t : string) (digits : option nat) : string :=
  match digits with
  | None => "invalid literal for int() with base 10: '" ++ t ++ "'"
  | Some n =>
      "Exceeds the limit (4300 digits) for integer string conversion: value has "
        ++ str_of_int (Z.of_nat n)
        ++ " digits; use sys.set_int_max_str_digits() to increase the limit"
  end.

End Py.

(* ------------------------------------------------------------------ *)
(** ** pandas objects *)

Module Pd.

(** A cell of an object column: the float [nan], [pd.NA], a [str] or
    an integer. *)
Inductive value : Type :=
| NaN
| NA
| Str (s : string)
| Int (z : Z).

(** [pd.isna(x)] *)
Definition isna (x : value) : bool :=
  match x with
  | NaN | NA => true
  | Str _ | Int _ => false
  end.

Definition notna (x : value) : bool := negb (isna x).

(** [str(x)] *)
Definition str (x : value) : string :=
  match x with
  | NaN => "nan"
  | NA => "<NA>"
  | Str s => s
  | Int z => Py.str_of_int z
  end.

(** [x == t] for a text [t], as [Series.eq] evaluates it cell by cell. *)
Definition eq_text (x : value) (t : string) : bool :=
  match x with
  | Str s => String.eqb s t
  | _ => false
  end.

(** A Series: values with their index labels, in order. *)
Definition Series : Type := list (nat * value).

Definition index (s : Series) : list nat := map fst s.

(** [pd.Series(values)]: a fresh [RangeIndex] starting at 0. *)
Definition Series_of_list (vs : list value) : Series :=
  combine (seq 0 (length vs)) vs.

(** [s.map(f)] *)
Definition Series_map (f : value -> value) (s : Series) : Series :=
  map (fun lv => (fst lv, f (snd lv))) s.

(** Value at a label, if the label is in the index. *)
Fixpoint loc (l : nat) (s : Series) : option value :=
  match s with
  | [] => None
  | (l', v) :: s' => if Nat.eqb l l' then Some v else loc l s'
  end.

(** [Index.union]: the sorted union of two sorted indexes. *)
Fixpoint insert_label (l : nat) (idx : list nat) : list nat :=
  match idx with
  | [] => [l]
  | l' :: idx' =>
      if Nat.ltb l l' then l :: idx
      else if Nat.eqb l l' then idx
      else l' :: insert_label l idx'
  end.

Definition union (i1 i2 : list nat) : list nat :=
  fold_right insert_label i1 i2.

Definition union_indexes (idxs : list (list nat)) : list nat :=
  match idxs with
  | [] => []
  | i :: rest => fold_left union rest i
  end.

(** [s.reindex(idx)]: labels absent from [s] are filled with [nan]. *)
Definition at_label (s : Series) (l : nat) : value :=
  match loc l s with
  | Some v => v
  | None => NaN
  end.

(** A headerless sheet as [read_excel(..., header=None, dtype=str)]
    returns it: [shape1] integer-labelled columns, rows labelled by a
    [RangeIndex]. *)
Record Sheet : Type := mkSheet {
  shape1 : nat;
  body : list (list value)
}.

Definition len (df : Sheet) : nat := length (body df).

(** [df.iat[r, c]], for [r < len df] and [c < shape1 df]. *)
Definition iat (df : Sheet) (r c : nat) : value :=
  nth c (nth r (body df) []) NaN.

(** [df.iloc[start:]]: the rows from position [start] on, each with
    the label it had in [df]. *)
Definition iloc_from (start : nat) (df : Sheet) : list (nat * list value) :=
  skipn start (combine (seq 0 (len df)) (body df)).

(** [data.iloc[:, idx]]: one column of the sliced rows, as a Series
    carrying the rows' labels. *)
Definition iloc_col (idx : nat) (data : list (nat * list value)) : Series :=
  map (fun lr => (fst lr, nth idx (snd lr) NaN)) data.

(** One row of the extracted table. *)
Record record : Type := mkRecord {
  precinct_no : value;
  precinct_name : value;
  active : value;
  inactive : value
}.

(** The extracted frame while it still carries row labels. *)
Definition frame : Type := list (nat * record).

(** [pd.DataFrame({k1: s1, k2: s2, k3: s3, k4: s4})] for the four
    columns of the extractor: the Series are aligned on the union of
    their indexes. *)
Definition DataFrame_of_dict (pno name act inact : Series) : frame :=
  let idx := union_indexes [index pno; index name; index act; index inact] in
  map (fun l =>
         (l, {| precinct_no := at_label pno l;
                precinct_name := at_label name l;
                active := at_label act l;
                inactive := at_label inact l |})) idx.

(** [out[col]]: a column of the frame as a Series. *)
Definition column (f : record -> value) (out : frame) : Series :=
  map (fun lr => (fst lr, f (snd lr))) out.

(** [out[col] = s] for a Series [s] that carries the frame's own
    index, so that alignment is positional. *)
Definition assign (upd : record -> value -> record) (out : frame) (s : Series)
  : frame :=
  map (fun p => (fst (fst p), upd (snd (fst p)) (snd (snd p)))) (combine out s).

Definition set_active (r : record) (v : value) : record :=
  {| precinct_no := precinct_no r; precinct_name := precinct_name r;
     active := v; inactive := inactive r |}.

Definition set_inactive (r : record) (v : value) : record :=
  {| precinct_no := precinct_no r; precinct_name := precinct_name r;
     active := active r; inactive := v |}.

(** [out[mask]] *)
Definition select (mask : record -> bool) (out : frame) : frame :=
  filter (fun lr => mask (snd lr)) out.

(** A table with named columns and a [RangeIndex]. *)
Record Table : Type := mkTable {
  columns : list string;
  records : list record
}.

(** [out.reset_index(drop=True)] *)
Definition reset_index (cols : list string) (out : frame) : Table :=
  {| columns := cols; records := map snd out |}.

(** [df.empty] *)
Definition empty (t : Table) : bool :=
  match records t with [] => true | _ => false end.

(** Column labels of [pd.concat]: the union of the parts' columns in
    order of first appearance. *)
Fixpoint add_column (c : string) (cols : list string) : list string :=
  match cols with
  | [] => [c]
  | c' :: cols' => if String.eqb c c' then cols else c' :: add_column c cols'
  end.

Definition union_columns (parts : list Table) : list string :=
  fold_left (fun acc t => fold_left (fun a c => add_column c a) (columns t) acc)
            parts [].

(** [pd.concat(dfs, ignore_index=True)] for parts that all carry the
    same columns. *)
Definition concat (dfs : list Table) : Table :=
  {| columns := union_columns dfs;
     records := flat_map records dfs |}.

(** Bounds of the [Int64] dtype. *)
Definition int64_min : Z := - 2 ^ 63.
Definition int64_max : Z := 2 ^ 63 - 1.

(** [astype("Int64")] on one cell of an object column. *)
Definition to_Int64 (x : value) : result value :=
  match x with
  | NaN | NA => Ok NA
  | Int z =>
      if ((int64_min <=? z) && (z <=? int64_max))%Z then Ok (Int z)
      else Raise (OverflowError "Python int too large to convert to C long")
  | Str t =>
      match Py.int_literal t with
      | Py.Invalid => Raise (ValueError (Py.int_error t None))
      | Py.TooLong n => Raise (ValueError (Py.int_error t (Some n)))
      | Py.Parsed z =>
          if ((int64_min <=? z) && (z <=? int64_max))%Z then Ok (Int z)
          else Raise (OverflowError "Python int too large to convert to C long")
      end
  end.

(** [s.astype("Int64")]: raises as soon as one cell does. *)
Definition astype_Int64 (s : Series) : result Series :=
  mapM (fun lv => v <- to_Int64 (snd lv) ;; Ok (fst lv, v)) s.

(** [s.astype(str)] *)
Definition astype_str (s : Series) : Series :=
  Series_map (fun x => Str (str x)) s.

(** One cell of [s.str.replace(pat, "", regex=True)] for a pattern
    that is a negated character class: text outside [str] cells is
    [nan]. *)
Definition str_remove_outside (p : ascii -> bool) (x : value) : value :=
  match x with
  | Str t => Str (Py.keep p t)
  | _ => NaN
  end.

(** One cell of [s.replace({k1: pd.NA, k2: pd.NA})] *)
Definition replace_with_NA (keys : list string) (x : value) : value :=
  if existsb (eq_text x) keys then NA else x.

End Pd.

Import Pd.

(* ------------------------------------------------------------------ *)
(** ** The converter *)

(** [re.compile(r"\bprecinct\s*(?:no\.?|number|#)\b", re.I)] *)
Definition PRECINCT_NO_HEADER : Py.regex :=
  Py.Cat Py.Bnd
    (Py.Cat (Py.iword "precinct")
       (Py.Cat (Py.StarC Py.isspace)
          (Py.Cat
             (Py.Alt (Py.Cat (Py.iword "no") (Py.Opt (Py.chr ".")))
                (Py.Alt (Py.iword "number") (Py.chr "#")))
             Py.Bnd))).

(** Text of a cell: empty for a missing cell, otherwise trimmed with
    every run of whitespace collapsed to one space. *)
Definition _norm_cell (x : value) : string :=
  if isna x then ""
  else
    let s := Py.strip (str x) in
    Py.sub_ws s.

(** A [for] loop whose body may [return]. *)
Fixpoint for_first {A B : Type} (l : list A) (body : A -> option B) : option B :=
  match l with
  | [] => None
  | a :: l' =>
      match body a with
      | Some b => Some b
      | None => for_first l' body
      end
  end.

Definition header_not_found : exn :=
  ValueError "Could not find a 'Precinct No' header within the first rows.".

(** Scan of the first [min(max_scan_rows, len)] rows, row by row and
    column by column, for the first cell matching [PRECINCT_NO_HEADER]. *)
Definition _find_precinct_no_header (df_nohdr : Sheet) (max_scan_rows : Z)
  : result (nat * nat) :=
  let norm := map (map _norm_cell) (body df_nohdr) in
  let scan := Z.to_nat (Z.min max_scan_rows (Z.of_nat (length norm))) in
  match
    for_first (seq 0 scan) (fun r =>
      for_first (seq 0 (shape1 df_nohdr)) (fun c =>
        if Py.search PRECINCT_NO_HEADER (nth c (nth r norm []) "")
        then Some (r, c)
        else None))
  with
  | Some rc => Ok rc
  | None => Raise header_not_found
  end.

(** The class kept by [[^\d\-]]. *)
Definition digit_or_minus (c : ascii) : bool :=
  Py.isdigit c || Ascii.eqb c "-".

(** [s.astype(str).str.replace(r"[^\d\-]", "", regex=True)
      .replace({"": pd.NA, "-": pd.NA}).astype("Int64")] *)
Definition _clean_int_series (s : Series) : result Series :=
  astype_Int64
    (Series_map (replace_with_NA [""; "-"])
       (Series_map (str_remove_outside digit_or_minus)
          (astype_str s))).

Definition out_columns : list string :=
  ["Precinct No."; "Precinct Name"; "Active"; "Inactive"].

(** Extraction of one sheet.  The column deltas are those of the body
    of the function, +1, +5 and +6 (its docstring still names +1, +2
    and +3). *)
Definition extract_sheet (df_raw : Sheet) : result Table :=
  ' (hdr_row, col_pno) <- _find_precinct_no_header df_raw 60 ;;
  (* data = df_raw.iloc[hdr_row + 1 :].copy() *)
  let data := iloc_from (hdr_row + 1) df_raw in
  let col_name := col_pno + 1 in
  let col_active := col_pno + 5 in
  let col_inactive := col_pno + 6 in
  let safe_col idx :=
    if (idx <? shape1 df_raw)%nat then iloc_col idx data
    else Series_of_list (repeat NA (length data)) in
  let precinct_no := Series_map (fun x => Str (_norm_cell x)) (safe_col col_pno) in
  let precinct_name :=
    Series_map (fun x => if negb (isna x) then Str (Py.strip (str x)) else x)
               (safe_col col_name) in
  let active := safe_col col_active in
  let inactive := safe_col col_inactive in
  let out := DataFrame_of_dict precinct_no precinct_name active inactive in
  (* (out["Precinct No."].astype(str).str.len() > 0)
     | out["Precinct Name"].notna() *)
  let mask_keep r :=
    (0 <? String.length (str (Pd.precinct_no r)))%nat
    || notna (Pd.precinct_name r) in
  let out := select mask_keep out in
  a <- _clean_int_series (column Pd.active out) ;;
  let out := assign set_active out a in
  i <- _clean_int_series (column Pd.inactive out) ;;
  let out := assign set_inactive out i in
  (* out[~(no.eq("") & name.isna() & active.isna() & inactive.isna())] *)
  let out :=
    select (fun r =>
              negb (eq_text (Pd.precinct_no r) ""
                    && isna (Pd.precinct_name r)
                    && isna (Pd.active r)
                    && isna (Pd.inactive r))) out in
  Ok (reset_index out_columns out).

(** An opened workbook: its sheet names and what reading each sheet
    gives. *)
Record ExcelFile : Type := mkExcelFile {
  sheet_names : list string;
  read_excel : string -> result Sheet
}.

(** The three progress lines written to standard output. *)
Inductive line : Type :=
| Extracted (sheet : string) (rows : nat)
| NoRows (sheet : string)
| Failed (sheet : string) (e : exn).

(** One iteration of the loop over the sheets; the state is the list
    [dfs] and the output written so far. *)
Definition visit_sheet (xls : ExcelFile) (st : list Table * list line)
           (sheet : string) : list Table * list line :=
  match df_raw <- read_excel xls sheet ;; extract_sheet df_raw with
  | Ok df_part =>
      if negb (empty df_part)
      then (fst st ++ [df_part],
            snd st ++ [Extracted sheet (length (records df_part))])
      else (fst st, snd st ++ [NoRows sheet])
  | Raise e => (fst st, snd st ++ [Failed sheet e])
  end.

(** The whole workbook: the returned table and the lines printed. *)
Definition extract_all_sheets (xls : ExcelFile) : Table * list line :=
  let st := fold_left (visit_sheet xls) (sheet_names xls) ([], []) in
  match fst st with
  | [] => ({| columns := out_columns; records := [] |}, snd st)
  | _ :: _ => (concat (fst st), snd st)
  end.

(* ------------------------------------------------------------------ *)
(** ** Vocabulary of the statements *)

(** The cell at row [r], column [c] matches the header pattern once
    normalised. *)
Definition is_header (df : Sheet) (r c : nat) : bool :=
  Py.search PRECINCT_NO_HEADER (_norm_cell (iat df r c)).

(** Row [r] lies in the scanned prefix: [r < min(max_rows, row_count)]. *)
Definition scanned (df : Sheet) (max_scan_rows : Z) (r : nat) : Prop :=
  (Z.of_nat r < Z.min max_scan_rows (Z.of_nat (len df)))%Z.

(** Row-major order on cell positions. *)
Definition row_major_le (p q : nat * nat) : Prop :=
  fst p < fst q \/ (fst p = fst q /\ snd p <= snd q).

(** A minus sign anywhere after the first character. *)
Fixpoint has_minus (s : string) : bool :=
  match s with
  | EmptyString => false
  | String c s' => Ascii.eqb c "-" || has_minus s'
  end.

Definition misplaced_minus (t : string) : bool :=
  match t with
  | EmptyString => false
  | String _ t' => has_minus t'
  end.

(** The number of digits that follow the optional sign, up to the
    first character that is not a digit. *)
Definition leading_digits (t : string) : nat :=
  match t with
  | String c d => if Ascii.eqb c "-" then Py.digit_run d else Py.digit_run t
  | EmptyString => 0
  end.

Definition in_int64 (z : Z) : Prop := (int64_min <= z <= int64_max)%Z.

(** [c * n] for a character [c]. *)
Fixpoint replicate (n : nat) (c : ascii) : string :=
  match n with
  | O => EmptyString
  | S n' => String c (replicate n' c)
  end.

(** A text of 4301 digits. *)
Definition long_number : string := replicate 4301 "1".

(** Cleaning of one cell, the composition [_clean_int_series] applies
    to every cell of its argument. *)
Definition clean_cell (x : value) : result value :=
  to_Int64
    (replace_with_NA [""; "-"]
       (str_remove_outside digit_or_minus (Str (str x)))).

(** The scan of one row, and of the scanned prefix, phrased with
    [is_header]. *)
Definition scan_row (df : Sheet) (r : nat) : option (nat * nat) :=
  for_first (seq 0 (shape1 df))
            (fun c => if is_header df r c then Some (r, c) else None).

Definition scan_rows (df : Sheet) (max_scan_rows : Z) : nat :=
  Z.to_nat (Z.min max_scan_rows (Z.of_nat (len df))).

Fixpoint all_chars (p : ascii -> bool) (s : string) : bool :=
  match s with
  | EmptyString => true
  | String c s' => p c && all_chars p s'
  end.

(** The inner function [safe_col] of [extract_sheet]. *)
Definition safe_col (df_raw : Sheet) (data : list (nat * list value)) (idx : nat)
  : Series :=
  if (idx <? shape1 df_raw)%nat then iloc_col idx data
  else Series_of_list (repeat NA (length data)).

(** The lambda applied to the name column. *)
Definition name_cell (x : value) : value :=
  if negb (isna x) then Str (Py.strip (str x)) else x.

(** The frame [out] as first built, for a header at [(hdr_row, col_pno)]. *)
Definition built (df_raw : Sheet) (hdr_row col_pno : nat) : frame :=
  let data := iloc_from (hdr_row + 1) df_raw in
  DataFrame_of_dict
    (Series_map (fun x => Str (_norm_cell x)) (safe_col df_raw data col_pno))
    (Series_map name_cell (safe_col df_raw data (col_pno + 1)))
    (safe_col df_raw data (col_pno + 5))
    (safe_col df_raw data (col_pno + 6)).

Definition mask_keep (r : record) : bool :=
  (0 <? String.length (str (precinct_no r)))%nat || notna (precinct_name r).

(** The condition of the final drop. *)
Definition totally_empty (r : record) : bool :=
  eq_text (precinct_no r) "" && isna (precinct_name r)
  && isna (active r) && isna (inactive r).

(** What a successful cleaning leaves in a cell. *)
Definition cleaned (x : value) : value :=
  match clean_cell x with
  | Ok v => v
  | Raise _ => NA
  end.

Definition cleanable (x : value) : Prop := exists v, clean_cell x = Ok v.

Definition clean_record (r : record) : record :=
  {| precinct_no := precinct_no r;
     precinct_name := precinct_name r;
     active := cleaned (active r);
     inactive := cleaned (inactive r) |}.

(** The record read from one data row when the four columns exist. *)
Definition row_record (col_pno : nat) (row : list value) : record :=
  {| precinct_no := Str (_norm_cell (nth col_pno row NaN));
     precinct_name := name_cell (nth (col_pno + 1) row NaN);
     active := nth (col_pno + 5) row NaN;
     inactive := nth (col_pno + 6) row NaN |}.

(** The records a sheet yields once its header is known and every
    retained count is cleanable. *)
Definition sheet_records (df_raw : Sheet) (hdr_row col_pno : nat) : list record :=
  filter (fun r => negb (totally_empty r))
         (map clean_record
              (map snd (select mask_keep (built df_raw hdr_row col_pno)))).

Definition counts_cleanable (df_raw : Sheet) (hdr_row col_pno : nat) : Prop :=
  Forall (fun lr => cleanable (active (snd lr)) /\ cleanable (inactive (snd lr)))
         (select mask_keep (built df_raw hdr_row col_pno)).

(** Decidable form of [cleanable]. *)
Definition cleanableb (x : value) : bool :=
  match clean_cell x with
  | Ok _ => true
  | Raise _ => false
  end.

Definition text_row (cells : list string) : list value := map Str cells.

Definition example_header_row : list value :=
  text_row [""; ""; "Precinct No."; "Name"; ""; ""; ""; "Active"; "Inactive"].

Definition example_data_row : list value :=
  text_row [""; ""; "001"; "Downtown"; ""; ""; ""; "1,050"; "12"].

Definition downtown : record :=
  {| precinct_no := Str "001"; precinct_name := Str "Downtown";
     active := Int 1050; inactive := Int 12 |}.

(** No cell of the row matches the header pattern. *)
Definition no_header_in (row : list value) : Prop :=
  Forall (fun x => Py.search PRECINCT_NO_HEADER (_norm_cell x) = false) row.

(** What the body of the [try] gives for one sheet. *)
Definition sheet_result (xls : ExcelFile) (sheet : string) : result Table :=
  df_raw <- read_excel xls sheet ;; extract_sheet df_raw.

(** The line printed for one sheet. *)
Definition sheet_line (xls : ExcelFile) (sheet : string) : line :=
  match sheet_result xls sheet with
  | Ok df_part =>
      if negb (empty df_part)
      then Extracted sheet (length (records df_part))
      else NoRows sheet
  | Raise e => Failed sheet e
  end.

(** What one sheet appends to [dfs]. *)
Definition sheet_part (xls : ExcelFile) (sheet : string) : list Table :=
  match sheet_result xls sheet with
  | Ok df_part => if negb (empty df_part) then [df_part] else []
  | Raise _ => []
  end.

(** The records one sheet contributes: those it yields, none when its
    extraction raises. *)
Definition sheet_rows (xls : ExcelFile) (sheet : string) : list record :=
  match sheet_result xls sheet with
  | Ok df_part => records df_part
  | Raise _ => []
  end.

(** A nullable 64-bit integer. *)
Definition nullable_int (v : value) : Prop :=
  v = NA \/ exists z, v = Int z /\ in_int64 z.

(** The retention invariant: a non-empty number or a name. *)
Definition has_number_or_name (x : record) : Prop :=
  (exists s, precinct_no x = Str s /\ s <> "") \/ isna (precinct_name x) = false.

(** A two-column sheet: the header in row 0, one precinct in row 1; the
    columns at +5 and +6 do not exist. *)
Definition short_sheet : Sheet :=
  mkSheet 2 [text_row ["Precinct No."; "Name"]; text_row ["001"; "Downtown"]].

(** The same sheet widened to [width] columns, the added cells all
    missing. *)
Definition with_missing_columns (width : nat) (df : Sheet) : Sheet :=
  mkSheet width
          (map (fun row => row ++ repeat NaN (width - length row)) (body df)).

Definition short_workbook : ExcelFile :=
  mkExcelFile ["Sheet1"] (fun _ => Ok short_sheet).

Definition phantom : record :=
  {| precinct_no := NaN; precinct_name := NaN; active := NA; inactive := NA |}.

Definition downtown_no_counts : record :=
  {| precinct_no := Str "001"; precinct_name := Str "Downtown";
     active := NA; inactive := NA |}.

Definition blank_row : list value := repeat NaN 9.

Definition example_sheet : Sheet :=
  mkSheet 9 [blank_row; blank_row; example_header_row; example_data_row].

Definition no_header_sheet : Sheet :=
  mkSheet 2 [text_row ["Precinct"; "Name"]].

Definition header_last_sheet : Sheet :=
  mkSheet 9 [blank_row; blank_row; example_header_row].


(** A sheet with the full layout: a precinct with a number only, a
    blank row, and a precinct with counts. *)
Definition full_sheet : Sheet :=
  mkSheet 7
    [text_row ["Precinct No."; "Name"; ""; ""; ""; "Active"; "Inactive"];
     [Str "007"; NaN; NaN; NaN; NaN; NaN; NaN];
     [NaN; NaN; NaN; NaN; NaN; NaN; NaN];
     text_row ["101"; " Harbor "; ""; ""; ""; "2,310"; "-"]].

Definition mixed_workbook : ExcelFile :=
  mkExcelFile ["North"; "Cover"; "South"]
    (fun sheet =>
       if String.eqb sheet "Cover" then Ok no_header_sheet
       else if String.eqb sheet "South" then Ok example_sheet
       else Ok full_sheet).

Definition three_sheets : ExcelFile :=
  mkExcelFile ["North"; "Cover"; "South"]
    (fun sheet =>
       if String.eqb sheet "Cover" then Ok no_header_sheet
       else if String.eqb sheet "South" then Ok header_last_sheet
       else Raise (ValueError "Unsupported format, or corrupt file")).

(* ------------------------------------------------------------------ *)
(** ** Normalised text, separators, progress lines *)

(** The text starts with a whitespace character. *)
Definition starts_ws (s : string) : bool :=
  match s with
  | EmptyString => false
  | String c _ => Py.isspace c
  end.

(** Every whitespace character of the text is a space that is followed
    by a character that is not whitespace. *)
Fixpoint single_spaced (s : string) : bool :=
  match s with
  | EmptyString => true
  | String c s' =>
      (if Py.isspace c
       then Ascii.eqb c " " && negb (Py.is_empty s') && negb (starts_ws s')
       else true)
      && single_spaced s'
  end.

(** Normalised text: no leading or trailing whitespace, words separated
    by exactly one space. *)
Definition normalised (s : string) : bool :=
  negb (starts_ws s) && single_spaced s.

(** The text does not end with a whitespace character. *)
Fixpoint ends_ws (s : string) : bool :=
  match s with
  | EmptyString => false
  | String c s' => if Py.is_empty s' then Py.isspace c else ends_ws s'
  end.

(** No character of the text is a digit or a minus sign. *)
Definition no_digit_or_minus (s : string) : bool :=
  all_chars (fun c => negb (digit_or_minus c)) s.

(** Rows announced by a progress line. *)
Definition announced (l : line) : nat :=
  match l with
  | Extracted _ n => n
  | NoRows _ | Failed _ _ => 0
  end.

(* ------------------------------------------------------------------ *)
(** ** The election-results scraper: [data_collection.py] and
       [get_precinct_election_results.py]

    The server is part of the environment: what it answers to the
    [n]-th request of the run, for a given URL.  A call either returns
    or raises; the state threaded through the calls counts the requests
    made and records the pauses taken.

    Conventions.
    - A response carries its status, the two headers the scripts read
      and its body; header values and bodies are texts of code points
      below 256, as everywhere in this file.
    - The file system is a second part of the environment: each call
      to it ([os.makedirs], [open], [write], the closing of the file) is
      recorded as an event and raises when the file system says so;
      paths are POSIX paths.
    - Of the regular expressions, the two that have one group
      ([/elections/view/(\d+)/] and the [filename=] pattern) are
      embedded as matchers; [parse_jump_list] is embedded from the
      triples that [option_pattern.findall] returns on. *)

Module Web.

Inductive error : Type :=
| RuntimeError (msg : string)
| StopIteration (msg : string)
| HTTPError (status : Z)
| ValueError (msg : string)
| UnboundLocalError (name : string)
| IndexError (msg : string)
| RequestException (msg : string)
| FileNotFoundError (msg : string)
| OSError (msg : string).

Inductive outcome (A : Type) : Type :=
| Returns (a : A)
| Raises (e : error).

Arguments Returns {A} a.
Arguments Raises {A} e.

(** A response: its status, the two headers the scripts read (absent
    when the server does not send them) and its body.  [text] is the
    body as [r.text] gives it.  A response requested with
    [stream=True] is read piece by piece: [chunks] are the pieces that
    [r.iter_content] yields, and [stream_error] is the message of the
    exception that ends the iteration when the connection breaks
    before the body is complete. *)
Record Response : Type := mkResponse {
  status_code : Z;
  content_type : option string;
  content_disposition : option string;
  text : string;
  chunks : list string;
  stream_error : option string
}.

(** The calls the scripts make to the file system.  An event records a
    call, whether it succeeds or raises. *)
Inductive fs_event : Type :=
| Makedirs (dir : string)
| OpenWb (path : string)
| WriteChunk (path chunk : string)
| CloseFile (path : string).

(** The file system is part of the environment too: it decides which
    calls raise, and with what.  [write_error path k] is the outcome of
    the [k]-th write to the file. *)
Record disk : Type := mkDisk {
  makedirs_error : string -> option error;
  open_error : string -> option error;
  write_error : string -> nat -> option error;
  close_error : string -> option error
}.

(** [os.makedirs(dir, exist_ok=True)]: the empty name is refused
    whatever the file system holds. *)
Definition makedirs (fs : disk) (dir : string) : option error :=
  if Py.is_empty dir
  then Some (FileNotFoundError "[Errno 2] No such file or directory: ''")
  else makedirs_error fs dir.

(** What [session.get] does: it returns a response or raises. *)
Inductive reply : Type :=
| Answer (r : Response)
| Failure (msg : string).

Definition server : Type := nat -> string -> reply.

(** [requests]: number of requests sent so far; [slept]: the factors
    [attempt + 1] of the pauses taken, in order. *)
Record world : Type := mkWorld {
  requests : nat;
  slept : list nat
}.

Definition sent (w : world) : world :=
  {| requests := S (requests w); slept := slept w |}.

Definition sleep (k : nat) (w : world) : world :=
  {| requests := requests w; slept := slept w ++ [k] |}.

(** [r.raise_for_status()] *)
Definition raise_for_status (r : Response) : outcome unit :=
  if ((400 <=? status_code r) && (status_code r <? 600))%Z
  then Raises (HTTPError (status_code r))
  else Returns tt.

(** The request loop shared by the two [get] functions: the loop over
    the attempts, then the two statements after it.  [r] is the last
    response bound, if any; [checked] tells whether
    [r.raise_for_status()] is also called before the [return] inside
    the loop, as [get_precinct_election_results.py] does. *)
Fixpoint request_loop (checked : bool) (srv : server) (url : string)
         (attempts : list nat) (r : option Response) (w : world)
  : outcome Response * world :=
  match attempts with
  | [] =>
      match r with
      | None => (Raises (UnboundLocalError "r"), w)
      | Some r =>
          match raise_for_status r with
          | Raises e => (Raises e, w)
          | Returns _ => (Returns r, w)
          end
      end
  | attempt :: attempts' =>
      match srv (requests w) url with
      | Failure msg => (Raises (RequestException msg), sent w)
      | Answer r =>
          if (500 <=? status_code r)%Z
          then request_loop checked srv url attempts' (Some r)
                            (sleep (attempt + 1) (sent w))
          else if checked
               then match raise_for_status r with
                    | Raises e => (Raises e, sent w)
                    | Returns _ => (Returns r, sent w)
                    end
               else (Returns r, sent w)
      end
  end.

(** [c.lower()] for a code point below 256. *)
Definition lower_char (c : ascii) : ascii :=
  let n := Py.cp c in
  if Py.between 65 90 n || (Py.between 192 222 n && negb (n =? 215)%N)
  then ascii_of_N (n + 32)
  else c.

(** [s.lower()] *)
Fixpoint lower (s : string) : string :=
  match s with
  | EmptyString => EmptyString
  | String c s' => String (lower_char c) (lower s')
  end.

(** [s.replace(a, b)] for one-character [a] and [b]. *)
Fixpoint replace_char (a b : ascii) (s : string) : string :=
  match s with
  | EmptyString => EmptyString
  | String c s' => String (if Ascii.eqb c a then b else c) (replace_char a b s')
  end.

(** [s[:k]] and [s[k:]] *)
Fixpoint take (k : nat) (s : string) : string :=
  match k, s with
  | S k', String c s' => String c (take k' s')
  | _, _ => EmptyString
  end.

Fixpoint drop (k : nat) (s : string) : string :=
  match k, s with
  | S k', String _ s' => drop k' s'
  | _, _ => s
  end.

(** [s.rfind(c)]: the index of the last occurrence, [None] for -1. *)
Fixpoint rfind (c : ascii) (s : string) : option nat :=
  match s with
  | EmptyString => None
  | String d s' =>
      match rfind c s' with
      | Some i => Some (S i)
      | None => if Ascii.eqb d c then Some 0 else None
      end
  end.

(** Removal of a literal prefix. *)
Fixpoint after_prefix (lit s : string) : option string :=
  match lit with
  | EmptyString => Some s
  | String a lit' =>
      match s with
      | String c s' => if Ascii.eqb a c then after_prefix lit' s' else None
      | EmptyString => None
      end
  end.

(** [lit in s] *)
Fixpoint contains (lit s : string) : bool :=
  match after_prefix lit s with
  | Some _ => true
  | None =>
      match s with
      | String _ s' => contains lit s'
      | EmptyString => false
      end
  end.

(** The longest run of characters of a class at the head of a text, and
    what follows. *)
Fixpoint span (p : ascii -> bool) (s : string) : string * string :=
  match s with
  | String c s' =>
      if p c
      then let (d, rest) := span p s' in (String c d, rest)
      else (EmptyString, s)
  | EmptyString => (EmptyString, EmptyString)
  end.

Definition dquote : ascii := ascii_of_N 34.

(** The class of the pattern's group: any character but the double
    quote and the semicolon. *)
Definition fn_char (c : ascii) : bool :=
  negb (Ascii.eqb c dquote) && negb (Ascii.eqb c ";").

(** A match, at the head of [s], of the pattern of
    [download_precinct_csv]: the literal [filename=], an optional
    double quote, the group [fn] of one or more characters of the class
    above, an optional double quote.  The result is the group.  The
    first optional quote is taken when present; leaving it out cannot
    help, since the class does not match a quote. *)
Definition match_filename (s : string) : option string :=
  match after_prefix "filename=" s with
  | None => None
  | Some s1 =>
      let s2 :=
        match s1 with
        | String c s' => if Ascii.eqb c dquote then s' else s1
        | EmptyString => s1
        end in
      let (fn, _) := span fn_char s2 in
      if Py.is_empty fn then None else Some fn
  end.

(** [re.search] with that pattern: the group of the leftmost match. *)
Fixpoint search_filename (s : string) : option string :=
  match match_filename s with
  | Some fn => Some fn
  | None =>
      match s with
      | String _ s' => search_filename s'
      | EmptyString => None
      end
  end.

(** [os.path.splitext(p)] (POSIX): the extension starts at the last
    dot, provided that dot lies after the last slash and some character
    of the file name before it is not a dot. *)
Definition splitext (p : string) : string * string :=
  match rfind "." p with
  | None => (p, EmptyString)
  | Some dotIndex =>
      let filenameIndex :=
        match rfind "/" p with
        | Some sepIndex => S sepIndex
        | None => 0
        end in
      if (filenameIndex <=? dotIndex)%nat
      then
        match
          for_first (seq filenameIndex (dotIndex - filenameIndex)) (fun i =>
            match String.get i p with
            | Some c =>
                if negb (Ascii.eqb c ".")
                then Some (take dotIndex p, drop dotIndex p)
                else None
            | None => None
            end)
        with
        | Some parts => parts
        | None => (p, EmptyString)
        end
      else (p, EmptyString)
  end.

Definition starts_with_sep (s : string) : bool :=
  match s with
  | String c _ => Ascii.eqb c "/"
  | EmptyString => false
  end.

Fixpoint ends_with_sep (s : string) : bool :=
  match s with
  | EmptyString => false
  | String c s' => if Py.is_empty s' then Ascii.eqb c "/" else ends_with_sep s'
  end.

(** [os.path.join(a, b)] (POSIX) *)
Definition path_join (a b : string) : string :=
  if starts_with_sep b then b
  else if Py.is_empty a || ends_with_sep a then a ++ b
  else a ++ "/" ++ b.

Definition BASE : string := "https://historical.elections.virginia.gov".

(** [urljoin(BASE, JUMP_TPL.format(eid=eid))]; the template is an
    absolute path, which replaces the empty path of [BASE]. *)
Definition jump_url (eid : Z) : string :=
  BASE ++ "/elections/jump_list/" ++ Py.str_of_int eid ++ "/".

(** The longest run of digits at the head of a text, and what follows. *)
Fixpoint span_digits (s : string) : string * string :=
  match s with
  | String c s' =>
      if Py.isdigit c
      then let (d, rest) := span_digits s' in (String c d, rest)
      else (EmptyString, s)
  | EmptyString => (EmptyString, EmptyString)
  end.

(** A match of [/elections/view/(\d+)/] at the head of [s]: the group
    and the number of characters matched. *)
Definition match_view (s : string) : option (string * nat) :=
  match after_prefix "/elections/view/" s with
  | None => None
  | Some s1 =>
      let (d, s2) := span_digits s1 in
      match d, s2 with
      | String _ _, String "/" _ => Some (d, 16 + String.length d + 1)
      | _, _ => None
      end
  end.

(** [re.findall(r"/elections/view/(\d+)/", s)]: matches are looked for
    from left to right and do not overlap; [skip] is the number of
    characters still covered by the last match. *)
Fixpoint findall_view (skip : nat) (s : string) : list string :=
  match s with
  | EmptyString => []
  | String _ s' =>
      match skip with
      | S k => findall_view k s'
      | O =>
          match match_view s with
          | Some (d, n) => d :: findall_view (n - 1) s'
          | None => findall_view 0 s'
          end
      end
  end.

(** [[int(x) for x in xs]] *)
Fixpoint ints (xs : list string) : outcome (list Z) :=
  match xs with
  | [] => Returns []
  | x :: xs' =>
      match Py.int_literal x with
      | Py.Invalid => Raises (ValueError (Py.int_error x None))
      | Py.TooLong n => Raises (ValueError (Py.int_error x (Some n)))
      | Py.Parsed z =>
          match ints xs' with
          | Returns zs => Returns (z :: zs)
          | Raises e => Raises e
          end
      end
  end.

Definition mem (x : Z) (l : list Z) : bool := existsb (Z.eqb x) l.

(** The de-duplication loop: [seen] and [ordered] grow together. *)
Fixpoint dedup_loop (ids seen ordered : list Z) : list Z :=
  match ids with
  | [] => ordered
  | x :: ids' =>
      if negb (mem x seen)
      then dedup_loop ids' (x :: seen) (ordered ++ [x])
      else dedup_loop ids' seen ordered
  end.

(** [l.index(x)] *)
Fixpoint index_of (x : Z) (l : list Z) : option nat :=
  match l with
  | [] => None
  | y :: l' => if Z.eqb y x then Some 0 else option_map S (index_of x l')
  end.

(** The character occurs in the text. *)
Fixpoint has_char (c : ascii) (s : string) : bool :=
  match s with
  | EmptyString => false
  | String d s' => Ascii.eqb d c || has_char c s'
  end.

Definition normalized_label (label : string) : string :=
  replace_char " " "_" (replace_char "/" "_" label).

(** A non-empty text of digits. *)
Definition numeral (d : string) : Prop :=
  d <> "" /\ all_chars Py.isdigit d = true.

(** A text short enough for [int]: at most 4300 characters. *)
Definition within_digit_limit (d : string) : Prop :=
  (Z.of_nat (String.length d) <= Py.max_str_digits)%Z.

(** The answers to the next [k] requests all carry a status of 500 or
    more. *)
Definition busy (srv : server) (url : string) (from k : nat) : Prop :=
  forall i, i < k ->
            exists r, srv (from + i) url = Answer r /\ (500 <= status_code r)%Z.

End Web.

Module DataCollection.

Import Web.

(** [get]: five attempts, a pause of [1.5 * (attempt + 1)] seconds after
    each answer of status 500 or more. *)
Definition get (srv : server) (url : string) (w : world)
  : outcome Response * world :=
  request_loop false srv url (seq 0 5) None w.

Definition next_similar_election_id (srv : server) (w : world) (current_id : Z)
  : outcome Z * world :=
  match get srv (jump_url current_id) w with
  | (Raises e, w') => (Raises e, w')
  | (Returns r, w') =>
      if negb (status_code r =? 200)%Z
      then (Raises (RuntimeError ("Jump list fetch failed for "
                                    ++ Py.str_of_int current_id ++ ": HTTP "
                                    ++ Py.str_of_int (status_code r))), w')
      else
        match ints (findall_view 0 (text r)) with
        | Raises e => (Raises e, w')
        | Returns ids =>
            let ordered := dedup_loop ids [] [] in
            match ordered with
            | [] => (Raises (RuntimeError ("No similar results found for "
                                             ++ Py.str_of_int current_id)), w')
            | first :: _ =>
                match index_of current_id ordered with
                | Some idx =>
                    (Returns (nth ((idx + 1) mod length ordered) ordered first), w')
                | None => (Returns first, w')
                end
            end
        end
  end.

End DataCollection.

Module PrecinctResults.

Import Web.

(** [get]: five attempts, a pause of [1.2 * (attempt + 1)] seconds after
    each answer of status 500 or more, and [raise_for_status] on any
    other answer. *)
Definition get (srv : server) (url : string) (w : world)
  : outcome Response * world :=
  request_loop true srv url (seq 0 5) None w.

(** The pattern [\bselected\b] under [re.I]. *)
Definition selected_attr : Py.regex :=
  Py.Cat Py.Bnd (Py.Cat (Py.iword "selected") Py.Bnd).

(** The loop of [parse_jump_list] over the triples (value, attributes,
    label) that [option_pattern.findall(html)] returns. *)
Fixpoint options_loop (found : list (string * string * string))
         (ids : list Z) (labels : list string) (selected_id : option Z)
  : outcome (list Z * list string * option Z) :=
  match found with
  | [] => Returns (ids, labels, selected_id)
  | (val, attrs, label) :: found' =>
      match Py.int_literal val with
      | Py.Invalid => Raises (ValueError (Py.int_error val None))
      | Py.TooLong n => Raises (ValueError (Py.int_error val (Some n)))
      | Py.Parsed eid =>
          let text := Py.strip (Py.sub_ws label) in
          options_loop found' (ids ++ [eid]) (labels ++ [text])
                       (if Py.search selected_attr attrs
                        then Some eid else selected_id)
      end
  end.

(** [parse_jump_list] from the triples found in the page on: the loop,
    the check for an empty list and the fall-back for the selected id. *)
Definition parse_jump_list (found : list (string * string * string))
           (current_id : Z) : outcome (list Z * list string * Z) :=
  match options_loop found [] [] None with
  | Raises e => Raises e
  | Returns (ids, labels, selected_id) =>
      match ids with
      | [] => Raises (RuntimeError "No <option> entries found in Similar results.")
      | first :: _ =>
          let selected_id :=
            match selected_id with
            | Some s => s
            | None => if mem current_id ids then current_id else first
            end in
          Returns (ids, labels, selected_id)
      end
  end.

(** The value of an option is the text of the id [eid]. *)
Definition option_id (f : string * string * string) (eid : Z) : Prop :=
  Py.int_literal (fst (fst f)) = Py.Parsed eid.

(** The options whose attributes hold the word selected, last first. *)
Definition marked_options (found : list (string * string * string))
  : list (string * string * string) :=
  rev (filter (fun f => Py.search selected_attr (snd (fst f))) found).

Definition download_url (eid : Z) : string :=
  BASE ++ "/elections/download/" ++ Py.str_of_int eid ++ "/precincts_include:1/".

(** The name under which [download_precinct_csv] saves a file, from the
    label and the Content-Disposition header. *)
Definition file_name (label cd : string) : string :=
  let normalized_label := replace_char " " "_" (replace_char "/" "_" label) in
  let base_name := ("VA_" ++ normalized_label ++ "_precincts.csv")%string in
  let ext :=
    match search_filename cd with
    | Some fn =>
        let srv_ext := snd (splitext fn) in
        if Py.is_empty srv_ext then ".csv" else srv_ext
    | None => ".csv"
    end in
  (fst (splitext base_name) ++ ext)%string.

(** The loop over [r.iter_content]: empty pieces are skipped, the
    others written in order; a write that raises ends the loop.  [k]
    counts the writes made so far. *)
Fixpoint write_chunks (fs : disk) (path : string) (k : nat) (cs : list string)
  : option error * list fs_event :=
  match cs with
  | [] => (None, [])
  | c :: cs' =>
      if Py.is_empty c then write_chunks fs path k cs'
      else
        match write_error fs path k with
        | Some e => (Some e, [WriteChunk path c])
        | None =>
            let (err, events) := write_chunks fs path (S k) cs' in
            (err, WriteChunk path c :: events)
        end
  end.

(** The [with open(path, "wb") as f] block: the body, then the closing
    of the file, which happens also when the body raises and whose own
    exception, if any, is the one that leaves the block. *)
Definition write_file (fs : disk) (path : string) (r : Response)
  : option error * list fs_event :=
  match open_error fs path with
  | Some e => (Some e, [OpenWb path])
  | None =>
      let (err, writes) := write_chunks fs path 0 (chunks r) in
      let body :=
        match err with
        | Some e => Some e
        | None => option_map RequestException (stream_error r)
        end in
      (match close_error fs path with
       | Some e => Some e
       | None => body
       end,
       OpenWb path :: writes ++ [CloseFile path])
  end.

(** [download_precinct_csv]: the directory is made before the request
    is sent; the file is opened only for a response that is not HTML. *)
Definition download_precinct_csv (fs : disk) (srv : server) (w : world)
           (election_id : Z) (label outdir : string)
  : outcome string * world * list fs_event :=
  match makedirs fs outdir with
  | Some e => (Raises e, w, [Makedirs outdir])
  | None =>
      match get srv (download_url election_id) w with
      | (Raises e, w') => (Raises e, w', [Makedirs outdir])
      | (Returns r, w') =>
          let ctype := match content_type r with Some v => v | None => "" end in
          if contains "text/html" (lower ctype)
          then (Raises (RuntimeError ("Download for " ++ Py.str_of_int election_id
                                        ++ " returned HTML, not CSV.")),
                w', [Makedirs outdir])
          else
            let cd :=
              match content_disposition r with Some v => v | None => "" end in
            let path := path_join outdir (file_name label cd) in
            let (err, events) := write_file fs path r in
            (match err with
             | Some e => Raises e
             | None => Returns path
             end,
             w', Makedirs outdir :: events)
      end
  end.

(** [next_after_selected]; the index [-1] of the [except] branch makes
    [nxt] zero. *)
Definition next_after_selected (ids : list Z) (selected_id : Z) : outcome Z :=
  let nxt :=
    match index_of selected_id ids with
    | Some idx => idx + 1
    | None => 0
    end in
  if (length ids <=? nxt)%nat
  then Raises (StopIteration "Reached the end of the Similar results list.")
  else
    match nth_error ids nxt with
    | Some x => Returns x
    | None => Raises (IndexError "list index out of range")
    end.

End PrecinctResults.

(** The example sheet under a title row of its own. *)
Definition titled_sheet : Sheet :=
  mkSheet 9 [text_row ["Registered voters by precinct"; ""; ""; ""; ""; ""; ""; ""; ""];
             text_row ["County of Example"; ""; ""; ""; ""; ""; ""; ""; ""];
             example_header_row; example_data_row].

Definition full_sheet_table : Table :=
  {| columns := out_columns;
     records :=
       [{| precinct_no := Str "007"; precinct_name := NaN;
           active := NA; inactive := NA |};
        {| precinct_no := Str "101"; precinct_name := Str "Harbor";
           active := Int 2310; inactive := NA |}] |}.

Definition mixed_counts : Series :=
  Series_of_list [Str "1,234"; NaN; Str "-"].

Module Scenario.

Import Web.

Definition w0 : world := mkWorld 0 [].

Definition jump_page : string :=
  "<a href=/elections/view/101/>2024</a> <a href=/elections/view/102/>2020</a>
   <a href=/elections/view/101/>2024</a> <a href=/elections/view/103/>2016</a>".

Definition page : Response :=
  mkResponse 200 (Some "text/html") None jump_page [jump_page] None.

Definition unavailable : Response := mkResponse 503 None None "" [] None.

(** A page whose only link carries a number of 4301 digits. *)
Definition long_page : Response :=
  let body := ("/elections/view/" ++ long_number ++ "/")%string in
  mkResponse 200 (Some "text/html") None body [body] None.

Definition long_site : server := fun _ _ => Answer long_page.

(** A server that always answers with the page. *)
Definition site : server := fun _ _ => Answer page.

(** A server that is unavailable for the first two requests. *)
Definition flaky : server :=
  fun n _ => if (n <? 2)%nat then Answer unavailable else Answer page.

(** A server that is never available. *)
Definition down : server := fun _ _ => Answer unavailable.

Definition csv_file : Response :=
  mkResponse 200 (Some "text/csv") (Some "attachment; filename=results.txt")
             "a,b" ["a,"; ""; "b"] None.

(** A response whose body breaks off after its first piece. *)
Definition broken_file : Response :=
  mkResponse 200 (Some "text/csv") None "" ["a,"]
             (Some "Connection broken: IncompleteRead").

Definition broken_site : server := fun _ _ => Answer broken_file.

(** A file system on which no call fails. *)
Definition sound_disk : disk :=
  mkDisk (fun _ => None) (fun _ => None) (fun _ _ => None) (fun _ => None).

Definition csv_site : server := fun _ _ => Answer csv_file.

Definition options : list (string * string * string) :=
  [("101", " selected", " President
      General "); ("102", "", "Governor")].

End Scenario.

(* ------------------------------------------------------------------ *)
(** ** Loops with early return *)

Section ForFirst.
Context {A B : Type}.
Variable body : A -> option B.

Lemma for_first_None (l : list A) :
  for_first l body = None <-> Forall (fun a => body a = None) l.
Proof.
  induction l as [|a l IH]; simpl.
  - split; [constructor | reflexivity].
  - destruct (body a) eqn:E.
    + split; [discriminate | intro H; inversion H; congruence].
    + rewrite IH. split; [intro H; constructor; assumption
                         | intro H; inversion H; assumption].
Qed.

Lemma for_first_Some (l : list A) (b : B) :
  for_first l body = Some b ->
  exists l1 a l2,
    l = l1 ++ a :: l2 /\ body a = Some b /\
    Forall (fun x => body x = None) l1.
Proof.
  induction l as [|a l IH]; simpl; [discriminate|].
  destruct (body a) eqn:E.
  - intros [= <-]. exists [], a, l. repeat split; [assumption | constructor].
  - intros H. destruct (IH H) as (l1 & a' & l2 & -> & Ha & Hl).
    exists (a :: l1), a', l2. repeat split; [assumption|].
    constructor; assumption.
Qed.
End ForFirst.

Lemma seq_split_from (l1 l2 : list nat) (a : nat) :
  forall s n, seq s n = l1 ++ a :: l2 ->
  a = s + length l1 /\ l1 = seq s (length l1) /\ length l1 < n.
Proof.
  induction l1 as [|x l1 IH]; intros s n H; destruct n as [|n];
    simpl in H; try discriminate.
  - injection H as Hs _. simpl. repeat split; lia.
  - injection H as Hs H. destruct (IH _ _ H) as (Ha & Hl & Hn).
    simpl. repeat split; [lia | | lia]. rewrite <- Hl. congruence.
Qed.

Lemma seq_split_at (n : nat) (l1 l2 : list nat) (a : nat) :
  seq 0 n = l1 ++ a :: l2 ->
  a = length l1 /\ l1 = seq 0 a /\ a < n.
Proof.
  intros H. destruct (seq_split_from _ _ _ _ _ H) as (Ha & Hl & Hn).
  simpl in Ha. subst a. auto.
Qed.

Lemma for_first_ext {A B : Type} (f g : A -> option B) (l : list A) :
  (forall a, In a l -> f a = g a) -> for_first l f = for_first l g.
Proof.
  induction l as [|a l IH]; simpl; intros H; [reflexivity|].
  rewrite <- (H a) by (left; reflexivity).
  destruct (f a); [reflexivity|]. apply IH. intros; apply H; right; assumption.
Qed.

(* ------------------------------------------------------------------ *)
(** ** Header location *)

Lemma norm_cell_NaN : _norm_cell NaN = "".
Proof. reflexivity. Qed.

Lemma norm_iat (df : Sheet) (r c : nat) :
  nth c (nth r (map (map _norm_cell) (body df)) []) "" = _norm_cell (iat df r c).
Proof.
  unfold iat.
  change (@nil string) with (map _norm_cell []).
  rewrite map_nth. rewrite <- norm_cell_NaN. apply map_nth.
Qed.

Lemma find_header_unfold (df : Sheet) (max_scan_rows : Z) :
  _find_precinct_no_header df max_scan_rows =
  match for_first (seq 0 (scan_rows df max_scan_rows)) (scan_row df) with
  | Some rc => Ok rc
  | None => Raise header_not_found
  end.
Proof.
  unfold _find_precinct_no_header, scan_rows, scan_row, len.
  rewrite length_map.
  erewrite for_first_ext; [reflexivity|].
  intros r _. apply for_first_ext. intros c _.
  unfold is_header. rewrite norm_iat. reflexivity.
Qed.

Lemma scanned_lt (df : Sheet) (max_scan_rows : Z) (r : nat) :
  scanned df max_scan_rows r <-> r < scan_rows df max_scan_rows.
Proof. unfold scanned, scan_rows. lia. Qed.

Lemma scan_row_None (df : Sheet) (r : nat) :
  scan_row df r = None <->
  forall c, c < shape1 df -> is_header df r c = false.
Proof.
  unfold scan_row. rewrite for_first_None, Forall_forall. split.
  - intros H c Hc. specialize (H c). rewrite in_seq in H.
    destruct (is_header df r c); [|reflexivity].
    discriminate H. lia.
  - intros H c Hc. rewrite in_seq in Hc. rewrite H by lia. reflexivity.
Qed.

Lemma scan_row_Some (df : Sheet) (r : nat) (rc : nat * nat) :
  scan_row df r = Some rc ->
  fst rc = r /\ snd rc < shape1 df /\ is_header df r (snd rc) = true /\
  forall c, c < snd rc -> is_header df r c = false.
Proof.
  unfold scan_row. intros H.
  apply for_first_Some in H. destruct H as (l1 & c0 & l2 & Hseq & Hc0 & Hl1).
  apply seq_split_at in Hseq. destruct Hseq as (_ & -> & Hlt).
  destruct (is_header df r c0) eqn:E; [|discriminate].
  injection Hc0 as <-. simpl. repeat split; try assumption.
  intros c Hc. rewrite Forall_forall in Hl1. specialize (Hl1 c).
  rewrite in_seq in Hl1. destruct (is_header df r c); [|reflexivity].
  discriminate Hl1. lia.
Qed.

Lemma find_header_Ok (df : Sheet) (max_scan_rows : Z) (r0 c0 : nat) :
  _find_precinct_no_header df max_scan_rows = Ok (r0, c0) <->
  scanned df max_scan_rows r0 /\ c0 < shape1 df /\ is_header df r0 c0 = true /\
  forall r c, scanned df max_scan_rows r -> c < shape1 df ->
              is_header df r c = true -> row_major_le (r0, c0) (r, c).
Proof.
  rewrite find_header_unfold. split.
  - destruct (for_first _ _) as [rc|] eqn:E; [|discriminate].
    intros [= ->]. apply for_first_Some in E.
    destruct E as (l1 & r & l2 & Hseq & Hr & Hl1).
    apply seq_split_at in Hseq. destruct Hseq as (_ & -> & Hlt).
    apply scan_row_Some in Hr. simpl in Hr. destruct Hr as (<- & Hc & Hh & Hbefore).
    rewrite scanned_lt. repeat split; try assumption.
    intros r c Hr Hcw Hrc. unfold row_major_le; simpl.
    destruct (Nat.lt_trichotomy r r0) as [Hlt'|[->|Hgt]]; [exfalso| |lia].
    + rewrite Forall_forall in Hl1. specialize (Hl1 r).
      rewrite in_seq in Hl1. rewrite scan_row_None in Hl1.
      rewrite Hl1 in Hrc by (assumption || lia). discriminate.
    + right. split; [reflexivity|].
      destruct (Nat.le_gt_cases c0 c) as [|Hlt']; [assumption|].
      rewrite (Hbefore c Hlt') in Hrc. discriminate.
  - intros (Hr0 & Hc0 & Hh & Hfirst).
    destruct (for_first _ _) as [[r1 c1]|] eqn:E.
    + apply for_first_Some in E.
      destruct E as (l1 & r & l2 & Hseq & Hr & Hl1).
      apply seq_split_at in Hseq. destruct Hseq as (_ & -> & Hlt).
      apply scan_row_Some in Hr. simpl in Hr. destruct Hr as (-> & Hc & Hh1 & Hbefore).
      assert (H01 : row_major_le (r0, c0) (r, c1)).
      { apply Hfirst; [apply scanned_lt|..]; assumption. }
      unfold row_major_le in H01; simpl in H01.
      assert (Hr0' : ~ r0 < r).
      { intros Hlt'. rewrite Forall_forall in Hl1. specialize (Hl1 r0).
        rewrite in_seq, scan_row_None in Hl1.
        rewrite Hl1 in Hh by (assumption || lia). discriminate. }
      destruct H01 as [|[-> Hle]]; [contradiction|].
      destruct (Nat.eq_dec c0 c1) as [->|Hne]; [reflexivity|].
      rewrite (Hbefore c0) in Hh by lia. discriminate.
    + exfalso. rewrite for_first_None, Forall_forall in E.
      specialize (E r0). rewrite in_seq, scan_row_None in E.
      apply scanned_lt in Hr0.
      rewrite E in Hh by (assumption || lia). discriminate.
Qed.

Lemma find_header_Raise (df : Sheet) (max_scan_rows : Z) (e : exn) :
  _find_precinct_no_header df max_scan_rows = Raise e <->
  e = header_not_found /\
  forall r c, scanned df max_scan_rows r -> c < shape1 df ->
              is_header df r c = false.
Proof.
  rewrite find_header_unfold.
  destruct (for_first _ _) as [[r1 c1]|] eqn:E.
  - split; [discriminate|]. intros (_ & H). exfalso.
    apply for_first_Some in E.
    destruct E as (l1 & r & l2 & Hseq & Hr & Hl1).
    apply seq_split_at in Hseq. destruct Hseq as (_ & -> & Hlt).
    apply scan_row_Some in Hr. simpl in Hr. destruct Hr as (-> & Hc & Hh1 & _).
    rewrite H in Hh1; [discriminate| apply scanned_lt; assumption | assumption].
  - rewrite for_first_None, Forall_forall in E.
    split.
    + intros [= <-]. split; [reflexivity|].
      intros r c Hr Hc. apply scanned_lt in Hr.
      specialize (E r). rewrite in_seq, scan_row_None in E.
      apply E; [lia | assumption].
    + intros (-> & _). reflexivity.
Qed.

(* ------------------------------------------------------------------ *)
(** ** Numeric cleaning *)

Lemma mapM_map {A B C : Type} (g : A -> B) (f : B -> result C) (l : list A) :
  mapM f (map g l) = mapM (fun a => f (g a)) l.
Proof.
  induction l as [|a l IH]; simpl; [reflexivity|]. rewrite IH. reflexivity.
Qed.

Lemma clean_series_cells (s : Series) :
  _clean_int_series s =
  mapM (fun lv => v <- clean_cell (snd lv) ;; Ok (fst lv, v)) s.
Proof.
  unfold _clean_int_series, astype_Int64, astype_str, Series_map.
  rewrite !mapM_map. reflexivity.
Qed.

Lemma keep_all_chars (p : ascii -> bool) (s : string) :
  all_chars p (Py.keep p s) = true.
Proof.
  induction s as [|c s IH]; simpl; [reflexivity|].
  destruct (p c) eqn:E; simpl; [rewrite E|]; assumption.
Qed.

Lemma digit_not_minus (c : ascii) : Py.isdigit c = true -> Ascii.eqb c "-" = false.
Proof.
  intros H. destruct (Ascii.eqb c "-") eqn:E; [|reflexivity].
  apply Ascii.eqb_eq in E. subst c. discriminate H.
Qed.

Lemma digits_val_defined (s : string) :
  all_chars digit_or_minus s = true ->
  forall acc, has_minus s = false -> exists z, Py.digits_val acc s = Some z.
Proof.
  induction s as [|c s IH]; simpl; intros Hall acc Hm.
  - eexists; reflexivity.
  - apply andb_true_iff in Hall. destruct Hall as [Hc Hall].
    apply orb_false_iff in Hm. destruct Hm as [Hc' Hm].
    unfold digit_or_minus in Hc. rewrite Hc', orb_false_r in Hc.
    rewrite Hc. apply IH; assumption.
Qed.

Lemma digits_val_minus (s : string) :
  has_minus s = true -> forall acc, Py.digits_val acc s = None.
Proof.
  induction s as [|c s IH]; simpl; intros Hm acc; [discriminate|].
  destruct (Py.isdigit c) eqn:Hd; [|reflexivity].
  rewrite (digit_not_minus _ Hd) in Hm. apply IH. assumption.
Qed.

Lemma int_literal_minus (d : string) :
  Py.int_literal (String "-" d) =
  match Py.unsigned_literal d with
  | Py.Parsed z => Py.Parsed (- z)
  | other => other
  end.
Proof. reflexivity. Qed.

Lemma int_literal_other (c : ascii) (d : string) :
  Ascii.eqb c "-" = false ->
  Py.int_literal (String c d) = Py.unsigned_literal (String c d).
Proof.
  intros H.
  destruct c as [[] [] [] [] [] [] [] []]; try reflexivity; discriminate H.
Qed.

Lemma digit_run_le (s : string) : Py.digit_run s <= String.length s.
Proof.
  induction s as [|c s IH]; simpl; [lia|]. destruct (Py.isdigit c); lia.
Qed.

(** Within the limit, a run of digits is the literal of its value. *)
Lemma unsigned_literal_defined (d : string) :
  all_chars digit_or_minus d = true -> d <> "" -> has_minus d = false ->
  (Z.of_nat (Py.digit_run d) <= Py.max_str_digits)%Z ->
  exists z, Py.unsigned_literal d = Py.Parsed z.
Proof.
  intros Hall Hne Hm Hlim. unfold Py.unsigned_literal.
  apply Z.ltb_ge in Hlim. rewrite Hlim.
  destruct d as [|c d]; [congruence|]. simpl Py.is_empty. cbv iota.
  destruct (digits_val_defined _ Hall 0%Z Hm) as [z Hz]. rewrite Hz.
  eexists; reflexivity.
Qed.

Lemma unsigned_literal_minus (d : string) :
  has_minus d = true -> forall z, Py.unsigned_literal d <> Py.Parsed z.
Proof.
  intros Hm z. unfold Py.unsigned_literal.
  destruct (Py.max_str_digits <? _)%Z; [discriminate|].
  destruct (Py.is_empty d); [discriminate|].
  rewrite digits_val_minus by assumption. discriminate.
Qed.

Lemma unsigned_literal_too_long (d : string) :
  (Py.max_str_digits < Z.of_nat (Py.digit_run d))%Z ->
  Py.unsigned_literal d = Py.TooLong (Py.digit_run d).
Proof.
  intros H. unfold Py.unsigned_literal. apply Z.ltb_lt in H. rewrite H.
  reflexivity.
Qed.

Lemma int_literal_defined (t : string) :
  all_chars digit_or_minus t = true ->
  t <> "" -> t <> "-" -> misplaced_minus t = false ->
  (Z.of_nat (leading_digits t) <= Py.max_str_digits)%Z ->
  exists z, Py.int_literal t = Py.Parsed z.
Proof.
  intros Hall Hne Hnm Hmis Hlim. destruct t as [|c d]; [congruence|].
  simpl in Hall, Hmis. apply andb_true_iff in Hall. destruct Hall as [Hc Hall].
  unfold leading_digits in Hlim.
  destruct (Ascii.eqb c "-") eqn:E.
  - apply Ascii.eqb_eq in E. subst c. rewrite int_literal_minus.
    destruct (unsigned_literal_defined d Hall) as [z Hz];
      [congruence | assumption | assumption |].
    rewrite Hz. eexists; reflexivity.
  - rewrite (int_literal_other _ _ E).
    apply unsigned_literal_defined; try assumption; try discriminate.
    + simpl. rewrite Hc. assumption.
    + simpl. rewrite E. assumption.
Qed.

(** A minus sign after the first character is never accepted. *)
Lemma int_literal_misplaced (t : string) :
  misplaced_minus t = true ->
  Py.int_literal t = Py.Invalid \/ exists n, Py.int_literal t = Py.TooLong n.
Proof.
  destruct t as [|c d]; simpl misplaced_minus; intros Hm; [discriminate|].
  assert (H : forall s, has_minus s = true ->
            Py.unsigned_literal s = Py.Invalid \/
            exists n, Py.unsigned_literal s = Py.TooLong n).
  { intros s Hs. pose proof (unsigned_literal_minus s Hs) as Hn.
    destruct (Py.unsigned_literal s) as [z| |n];
      [exfalso; apply (Hn z); reflexivity | left; reflexivity |
       right; eexists; reflexivity]. }
  destruct (Ascii.eqb c "-") eqn:E.
  - apply Ascii.eqb_eq in E. subst c. rewrite int_literal_minus.
    destruct (H d Hm) as [-> | [n ->]]; [left | right; exists n]; reflexivity.
  - rewrite (int_literal_other _ _ E). apply H. simpl. rewrite E. assumption.
Qed.

(** More than 4300 digits after the optional sign are never accepted. *)
Lemma int_literal_too_long (t : string) :
  (Py.max_str_digits < Z.of_nat (leading_digits t))%Z ->
  Py.int_literal t = Py.TooLong (leading_digits t).
Proof.
  destruct t as [|c d]; [simpl; unfold Py.max_str_digits; lia|].
  unfold leading_digits. destruct (Ascii.eqb c "-") eqn:E; intros H.
  - apply Ascii.eqb_eq in E. subst c. rewrite int_literal_minus.
    rewrite (unsigned_literal_too_long _ H). reflexivity.
  - rewrite (int_literal_other _ _ E). apply unsigned_literal_too_long.
    assumption.
Qed.

Lemma clean_cell_Str (s : string) :
  clean_cell (Str s) =
  let t := Py.keep digit_or_minus s in
  if String.eqb t "" || String.eqb t "-" then Ok NA else to_Int64 (Str t).
Proof.
  unfold clean_cell, str_remove_outside, replace_with_NA. simpl.
  destruct (String.eqb _ ""); [reflexivity|].
  destruct (String.eqb _ "-"); reflexivity.
Qed.

Lemma in_int64_dec (z : Z) :
  ((int64_min <=? z) && (z <=? int64_max))%Z = true <-> in_int64 z.
Proof. unfold in_int64. rewrite andb_true_iff. lia. Qed.

Lemma clean_singleton (x : value) :
  _clean_int_series (Series_of_list [x]) =
  v <- clean_cell x ;; Ok [(0, v)].
Proof.
  rewrite clean_series_cells. simpl. destruct (clean_cell x); reflexivity.
Qed.

(** C1 (as the code has it).  Cleaning a text removes every character
    that is not a digit or a minus sign and maps an empty remainder or a
    lone minus to missing.  Any other remainder is handed to the integer
    conversion, which is partial: an optional leading minus followed by
    at most 4300 digits gives that integer when it fits 64 bits and an
    OverflowError when it does not; a minus sign anywhere after the
    first character raises a ValueError, and so do more than 4300
    digits.  "1,234" gives 1234, "" and "-" give missing, "12-3"
    raises. *)
Theorem clean_int_series_partial :
  (forall s : string,
     let t := Py.keep digit_or_minus s in
     let cleaned := _clean_int_series (Series_of_list [Str s]) in
     (t = "" \/ t = "-" -> cleaned = Ok [(0, NA)]) /\
     (t <> "" -> t <> "-" -> misplaced_minus t = false ->
      (Z.of_nat (leading_digits t) <= Py.max_str_digits)%Z ->
      exists z, Py.int_literal t = Py.Parsed z /\
                (in_int64 z -> cleaned = Ok [(0, Int z)]) /\
                (~ in_int64 z -> exists msg, cleaned = Raise (OverflowError msg))) /\
     (misplaced_minus t = true -> exists msg, cleaned = Raise (ValueError msg)) /\
     ((Py.max_str_digits < Z.of_nat (leading_digits t))%Z ->
      exists msg, cleaned = Raise (ValueError msg))) /\
  _clean_int_series (Series_of_list [Str "1,234"]) = Ok [(0, Int 1234)] /\
  _clean_int_series (Series_of_list [Str ""]) = Ok [(0, NA)] /\
  _clean_int_series (Series_of_list [Str "-"]) = Ok [(0, NA)] /\
  (exists msg, _clean_int_series (Series_of_list [Str "12-3"]) = Raise (ValueError msg)).
Proof.
  split; [|repeat split; try reflexivity; eexists; reflexivity].
  intros s t cleaned. subst cleaned. rewrite clean_singleton, clean_cell_Str.
  fold t. repeat split.
  - intros [-> | ->]; reflexivity.
  - intros Hne Hnm Hmis Hlim.
    destruct (int_literal_defined t (keep_all_chars _ _) Hne Hnm Hmis Hlim)
      as [z Hz].
    exists z. split; [assumption|].
    apply String.eqb_neq in Hne, Hnm. cbv zeta. rewrite Hne, Hnm. simpl orb.
    cbv iota. unfold to_Int64. rewrite Hz.
    destruct ((int64_min <=? z) && (z <=? int64_max))%Z eqn:E.
    + split; [reflexivity|]. intros Hn. apply in_int64_dec in E. contradiction.
    + split; [|intros _; eexists; reflexivity].
      intros Hin. apply in_int64_dec in Hin. congruence.
  - intros Hmis.
    assert (Hne : t <> "") by (intros E; rewrite E in Hmis; discriminate).
    assert (Hnm : t <> "-") by (intros E; rewrite E in Hmis; discriminate).
    apply String.eqb_neq in Hne, Hnm. cbv zeta. rewrite Hne, Hnm. simpl orb.
    cbv iota. unfold to_Int64.
    destruct (int_literal_misplaced _ Hmis) as [-> | [n ->]];
      eexists; reflexivity.
  - intros Hlong.
    assert (Hne : t <> "")
      by (intros E; rewrite E in Hlong; simpl in Hlong;
          unfold Py.max_str_digits in Hlong; lia).
    assert (Hnm : t <> "-")
      by (intros E; rewrite E in Hlong; simpl in Hlong;
          unfold Py.max_str_digits in Hlong; lia).
    apply String.eqb_neq in Hne, Hnm. cbv zeta. rewrite Hne, Hnm. simpl orb.
    cbv iota. unfold to_Int64. rewrite (int_literal_too_long _ Hlong).
    eexists; reflexivity.
Qed.

(** C1, counterexample: cleaning is not total, it raises on "12-3". *)
Lemma clean_int_series_not_total :
  ~ (forall s : string,
       exists out, _clean_int_series (Series_of_list [Str s]) = Ok out).
Proof.
  intros H. destruct (H "12-3") as [out Hout]. vm_compute in Hout. discriminate.
Qed.

(** C2.  When some cell of the scanned prefix matches the header
    pattern, the search returns the first matching position in
    row-major order; when none does, it raises the not-found error. *)
Theorem find_header_first_match (df : Sheet) (max_scan_rows : Z) :
  ((exists r c, scanned df max_scan_rows r /\ c < shape1 df /\
                is_header df r c = true) ->
   exists r0 c0,
     _find_precinct_no_header df max_scan_rows = Ok (r0, c0) /\
     scanned df max_scan_rows r0 /\ c0 < shape1 df /\
     is_header df r0 c0 = true /\
     forall r c, scanned df max_scan_rows r -> c < shape1 df ->
                 is_header df r c = true -> row_major_le (r0, c0) (r, c)) /\
  ((forall r c, scanned df max_scan_rows r -> c < shape1 df ->
                is_header df r c = false) ->
   _find_precinct_no_header df max_scan_rows = Raise header_not_found).
Proof.
  split.
  - intros (r & c & Hr & Hc & Hh).
    destruct (_find_precinct_no_header df max_scan_rows) as [[r0 c0]|e] eqn:E.
    + exists r0, c0. split; [reflexivity|]. apply find_header_Ok. assumption.
    + apply find_header_Raise in E. destruct E as [_ E].
      rewrite (E r c Hr Hc) in Hh. discriminate.
  - intros Hnone.
    destruct (_find_precinct_no_header df max_scan_rows) as [[r0 c0]|e] eqn:E.
    + apply find_header_Ok in E. destruct E as (Hr & Hc & Hh & _).
      rewrite (Hnone r0 c0 Hr Hc) in Hh. discriminate.
    + apply find_header_Raise in E. destruct E as [-> _]. reflexivity.
Qed.

(* ------------------------------------------------------------------ *)
(** ** Stages of [extract_sheet] *)

Lemma extract_sheet_stages (df_raw : Sheet) :
  extract_sheet df_raw =
  ' (hdr_row, col_pno) <- _find_precinct_no_header df_raw 60 ;;
  let out := select mask_keep (built df_raw hdr_row col_pno) in
  a <- _clean_int_series (column active out) ;;
  let out := assign set_active out a in
  i <- _clean_int_series (column inactive out) ;;
  let out := assign set_inactive out i in
  Ok (reset_index out_columns (select (fun r => negb (totally_empty r)) out)).
Proof. reflexivity. Qed.

Lemma mapM_Ok {A B : Type} (f : A -> result B) (g : A -> B) (l : list A) :
  Forall (fun a => f a = Ok (g a)) l -> mapM f l = Ok (map g l).
Proof.
  induction 1 as [|a l Ha _ IH]; simpl; [reflexivity|].
  rewrite Ha, IH. reflexivity.
Qed.

Lemma mapM_Ok_inv {A B : Type} (f : A -> result B) (l : list A) (bs : list B) :
  mapM f l = Ok bs -> Forall (fun a => exists b, f a = Ok b) l.
Proof.
  revert bs. induction l as [|a l IH]; simpl; intros bs H; [constructor|].
  destruct (f a) as [b|e] eqn:E; [|discriminate]. simpl in H.
  destruct (mapM f l) as [bs'|e] eqn:E'; [|discriminate].
  constructor; [exists b; exact E | eapply IH; reflexivity].
Qed.

Lemma cleanable_cleaned (x : value) :
  cleanable x -> clean_cell x = Ok (cleaned x).
Proof. intros [v Hv]. unfold cleaned. rewrite Hv. reflexivity. Qed.

Lemma assign_map (upd : record -> value -> record) (g : record -> value)
      (out : frame) :
  assign upd out (map (fun lr => (fst lr, g (snd lr))) out) =
  map (fun lr => (fst lr, upd (snd lr) (g (snd lr)))) out.
Proof.
  unfold assign. induction out as [|lr out IH]; simpl; [reflexivity|].
  rewrite IH. reflexivity.
Qed.

(** Cleaning one column of a frame: it succeeds exactly when every cell
    of the column is cleanable, and then the assignment replaces each
    cell by its cleaned value. *)
Lemma clean_column_Ok (f : record -> value) (upd : record -> value -> record)
      (out : frame) :
  Forall (fun lr => cleanable (f (snd lr))) out ->
  exists a, _clean_int_series (column f out) = Ok a /\
            assign upd out a =
            map (fun lr => (fst lr, upd (snd lr) (cleaned (f (snd lr))))) out.
Proof.
  intros H. exists (map (fun lr => (fst lr, cleaned (f (snd lr)))) out).
  split; [|exact (assign_map upd (fun r => cleaned (f r)) out)].
  rewrite clean_series_cells. unfold column. rewrite mapM_map. simpl.
  apply mapM_Ok. eapply Forall_impl; [|exact H].
  intros lr Hc. simpl. rewrite (cleanable_cleaned _ Hc). reflexivity.
Qed.

Lemma clean_column_Ok_inv (f : record -> value) (out : frame) (a : Series) :
  _clean_int_series (column f out) = Ok a ->
  Forall (fun lr => cleanable (f (snd lr))) out.
Proof.
  rewrite clean_series_cells. unfold column. rewrite mapM_map. simpl.
  intros H. apply mapM_Ok_inv in H. eapply Forall_impl; [|exact H].
  intros lr [b Hb]. simpl in Hb. unfold cleanable.
  destruct (clean_cell (f (snd lr))) as [v|e]; [eexists; reflexivity|discriminate].
Qed.

Lemma final_records (out : frame) :
  map snd
    (select (fun r => negb (totally_empty r))
       (map (fun lr => (fst lr, set_inactive (snd lr) (cleaned (inactive (snd lr)))))
          (map (fun lr => (fst lr, set_active (snd lr) (cleaned (active (snd lr)))))
             out))) =
  filter (fun r => negb (totally_empty r)) (map clean_record (map snd out)).
Proof.
  unfold select. rewrite !map_map, !filter_map_swap, !map_map. reflexivity.
Qed.

Lemma extract_sheet_Ok (df_raw : Sheet) (hdr_row col_pno : nat) :
  _find_precinct_no_header df_raw 60 = Ok (hdr_row, col_pno) ->
  counts_cleanable df_raw hdr_row col_pno ->
  extract_sheet df_raw =
  Ok {| columns := out_columns;
        records := sheet_records df_raw hdr_row col_pno |}.
Proof.
  intros Hh Hc. rewrite extract_sheet_stages, Hh. simpl bind. cbv zeta.
  unfold counts_cleanable in Hc. unfold sheet_records.
  revert Hc. generalize (select mask_keep (built df_raw hdr_row col_pno)).
  intros out Hc.
  destruct (clean_column_Ok active set_active out) as (a & Ha & Hassign).
  { eapply Forall_impl; [|exact Hc]. intros lr [H _]; exact H. }
  rewrite Ha. simpl bind. rewrite Hassign.
  destruct (clean_column_Ok inactive set_inactive
              (map (fun lr => (fst lr, set_active (snd lr) (cleaned (active (snd lr)))))
                   out))
    as (i & Hi & Hassign').
  { rewrite Forall_map. eapply Forall_impl; [|exact Hc].
    intros lr [_ H]; exact H. }
  rewrite Hi. simpl bind. rewrite Hassign'.
  unfold reset_index. rewrite final_records. reflexivity.
Qed.

Lemma extract_sheet_Ok_inv (df_raw : Sheet) (t : Table) :
  extract_sheet df_raw = Ok t ->
  exists hdr_row col_pno,
    _find_precinct_no_header df_raw 60 = Ok (hdr_row, col_pno) /\
    counts_cleanable df_raw hdr_row col_pno /\
    t = {| columns := out_columns;
           records := sheet_records df_raw hdr_row col_pno |}.
Proof.
  intros H. pose proof H as H0. rewrite extract_sheet_stages in H.
  destruct (_find_precinct_no_header df_raw 60) as [[h c]|e] eqn:Hh;
    [|discriminate].
  simpl bind in H. cbv zeta in H.
  exists h, c. split; [reflexivity|].
  assert (Hc : counts_cleanable df_raw h c).
  { unfold counts_cleanable. clear H0.
    revert H. generalize (select mask_keep (built df_raw h c)). intros out H.
    destruct (_clean_int_series (column active out)) as [a|e] eqn:Ha;
      [|discriminate].
    pose proof (clean_column_Ok_inv _ _ _ Ha) as Hact.
    destruct (clean_column_Ok active set_active out Hact) as (a' & Ha' & Hassign).
    rewrite Ha in Ha'. injection Ha' as <-.
    simpl bind in H. rewrite Hassign in H.
    destruct (_clean_int_series (column inactive _)) as [i|e] eqn:Hi;
      [|discriminate].
    apply clean_column_Ok_inv in Hi. rewrite Forall_map in Hi. simpl in Hi.
    rewrite Forall_forall in *. intros lr Hin. split; auto. }
  split; [assumption|].
  rewrite (extract_sheet_Ok _ _ _ Hh Hc) in H0. congruence.
Qed.

(* ------------------------------------------------------------------ *)
(** ** Row labels and index alignment *)

Lemma skipn_combine {A B : Type} (k : nat) :
  forall (l1 : list A) (l2 : list B),
    skipn k (combine l1 l2) = combine (skipn k l1) (skipn k l2).
Proof.
  induction k as [|k IH]; intros l1 l2; [reflexivity|].
  destruct l1 as [|a l1]; [reflexivity|].
  destruct l2 as [|b l2]; simpl; [|apply IH].
  destruct (skipn k l1); reflexivity.
Qed.

Lemma iloc_from_rows (k : nat) (df : Sheet) :
  iloc_from k df = combine (seq k (len df - k)) (skipn k (body df)).
Proof.
  unfold iloc_from. rewrite skipn_combine, skipn_seq. reflexivity.
Qed.

Lemma map_fst_combine {A B : Type} (l1 : list A) :
  forall l2 : list B, length l1 = length l2 -> map fst (combine l1 l2) = l1.
Proof.
  induction l1 as [|a l1 IH]; intros [|b l2] H; simpl in *;
    try discriminate; [reflexivity|].
  rewrite IH by lia. reflexivity.
Qed.

Lemma map_snd_combine {A B : Type} (l1 : list A) :
  forall l2 : list B, length l1 = length l2 -> map snd (combine l1 l2) = l2.
Proof.
  induction l1 as [|a l1 IH]; intros [|b l2] H; simpl in *;
    try discriminate; [reflexivity|].
  rewrite IH by lia. reflexivity.
Qed.

Lemma iloc_from_index (k : nat) (df : Sheet) :
  map fst (iloc_from k df) = seq k (len df - k).
Proof.
  rewrite iloc_from_rows. apply map_fst_combine.
  rewrite length_seq, length_skipn. reflexivity.
Qed.

Lemma iloc_from_values (k : nat) (df : Sheet) :
  map snd (iloc_from k df) = skipn k (body df).
Proof.
  rewrite iloc_from_rows. apply map_snd_combine.
  rewrite length_seq, length_skipn. reflexivity.
Qed.

Lemma insert_label_seq (l : nat) :
  forall n a, a <= l < a + n -> insert_label l (seq a n) = seq a n.
Proof.
  induction n as [|n IH]; intros a H; [lia|]. simpl.
  destruct (Nat.ltb_spec l a); [lia|].
  destruct (Nat.eqb_spec l a); [reflexivity|].
  rewrite IH by lia. reflexivity.
Qed.

Lemma union_seq_within (a n : nat) (j : list nat) :
  Forall (fun l => a <= l < a + n) j -> union (seq a n) j = seq a n.
Proof.
  unfold union. induction 1 as [|l j Hl _ IH]; simpl; [reflexivity|].
  rewrite IH. apply insert_label_seq. assumption.
Qed.

Lemma union_seq_self (a n : nat) : union (seq a n) (seq a n) = seq a n.
Proof.
  apply union_seq_within. rewrite Forall_forall. intros l Hl.
  apply in_seq in Hl. lia.
Qed.

Lemma loc_labelled {A : Type} (g : A -> value) (data : list (nat * A)) :
  NoDup (map fst data) ->
  forall lr, In lr data ->
             loc (fst lr) (map (fun x => (fst x, g (snd x))) data) = Some (g (snd lr)).
Proof.
  induction data as [|x data IH]; simpl; intros Hnd lr Hin; [contradiction|].
  inversion Hnd as [|? ? Hnotin Hnd']; subst.
  destruct Hin as [->|Hin].
  - rewrite Nat.eqb_refl. reflexivity.
  - destruct (Nat.eqb_spec (fst lr) (fst x)) as [E|_]; [|apply IH; assumption].
    exfalso. apply Hnotin. rewrite <- E. apply in_map. assumption.
Qed.

Lemma at_label_labelled {A : Type} (g : A -> value) (data : list (nat * A)) :
  NoDup (map fst data) ->
  forall lr, In lr data ->
             at_label (map (fun x => (fst x, g (snd x))) data) (fst lr) = g (snd lr).
Proof.
  intros Hnd lr Hin. unfold at_label. rewrite (loc_labelled g data Hnd lr Hin).
  reflexivity.
Qed.

Lemma index_labelled {A : Type} (g : A -> value) (data : list (nat * A)) :
  index (map (fun x => (fst x, g (snd x))) data) = map fst data.
Proof. unfold index. rewrite map_map. reflexivity. Qed.

(** Four Series cut from the same labelled rows are already aligned:
    the frame has one row per data row. *)
Lemma DataFrame_of_dict_aligned {A : Type} (g1 g2 g3 g4 : A -> value)
      (data : list (nat * A)) (a n : nat) :
  map fst data = seq a n ->
  DataFrame_of_dict (map (fun x => (fst x, g1 (snd x))) data)
                    (map (fun x => (fst x, g2 (snd x))) data)
                    (map (fun x => (fst x, g3 (snd x))) data)
                    (map (fun x => (fst x, g4 (snd x))) data) =
  map (fun x => (fst x, {| precinct_no := g1 (snd x);
                           precinct_name := g2 (snd x);
                           active := g3 (snd x);
                           inactive := g4 (snd x) |})) data.
Proof.
  intros Hidx.
  assert (Hnd : NoDup (map fst data)) by (rewrite Hidx; apply seq_NoDup).
  unfold DataFrame_of_dict, union_indexes.
  rewrite !index_labelled, Hidx. simpl fold_left.
  rewrite !union_seq_self, <- Hidx, map_map.
  apply map_ext_in. intros lr Hin.
  rewrite !at_label_labelled by assumption. reflexivity.
Qed.

Lemma built_in_range (df : Sheet) (h c : nat) :
  c + 6 < shape1 df ->
  built df h c =
  map (fun lr => (fst lr, row_record c (snd lr))) (iloc_from (h + 1) df).
Proof.
  intros Hc. unfold built, safe_col. cbv zeta.
  destruct (Nat.ltb_spec c (shape1 df)); [|lia].
  destruct (Nat.ltb_spec (c + 1) (shape1 df)); [|lia].
  destruct (Nat.ltb_spec (c + 5) (shape1 df)); [|lia].
  destruct (Nat.ltb_spec (c + 6) (shape1 df)); [|lia].
  unfold Series_map, iloc_col. rewrite !map_map. simpl.
  apply (DataFrame_of_dict_aligned
           (fun row => Str (_norm_cell (nth c row NaN)))
           (fun row => name_cell (nth (c + 1) row NaN))
           (fun row => nth (c + 5) row NaN)
           (fun row => nth (c + 6) row NaN)
           _ _ _ (iloc_from_index (h + 1) df)).
Qed.

(** With the four columns present the records are read row by row from
    the rows below the header. *)
Lemma sheet_records_in_range (df : Sheet) (h c : nat) :
  c + 6 < shape1 df ->
  sheet_records df h c =
  filter (fun r => negb (totally_empty r))
         (map clean_record
              (filter mask_keep (map (row_record c) (skipn (h + 1) (body df))))).
Proof.
  intros Hc. unfold sheet_records, select. rewrite (built_in_range _ _ _ Hc).
  do 2 f_equal.
  rewrite <- iloc_from_values, map_map.
  replace (map (fun x => row_record c (snd x)) (iloc_from (h + 1) df))
    with (map snd (map (fun lr => (fst lr, row_record c (snd lr)))
                       (iloc_from (h + 1) df)))
    by (rewrite map_map; reflexivity).
  symmetry. apply filter_map_swap.
Qed.

Lemma iloc_from_In (k r : nat) (df : Sheet) :
  k <= r < len df -> In (r, nth r (body df) []) (iloc_from k df).
Proof.
  intros Hr. rewrite iloc_from_rows.
  assert (Hlen : length (seq k (len df - k)) = length (skipn k (body df))).
  { rewrite length_seq, length_skipn. reflexivity. }
  replace (r, nth r (body df) [])
    with (nth (r - k) (combine (seq k (len df - k)) (skipn k (body df))) (0, [])).
  - apply nth_In. rewrite length_combine, <- Hlen, Nat.min_id, length_seq. lia.
  - rewrite combine_nth by assumption.
    rewrite seq_nth by lia. rewrite nth_skipn.
    replace (k + (r - k)) with r by lia. reflexivity.
Qed.

Lemma iloc_from_In_inv (k : nat) (df : Sheet) (lr : nat * list value) :
  In lr (iloc_from k df) ->
  k <= fst lr < len df /\ snd lr = nth (fst lr) (body df) [].
Proof.
  intros Hin.
  assert (Hl : In (fst lr) (seq k (len df - k))).
  { rewrite <- iloc_from_index. apply in_map. assumption. }
  apply in_seq in Hl. split; [lia|].
  pose proof (iloc_from_In k (fst lr) df ltac:(lia)) as Hin'.
  assert (Hnd : NoDup (map fst (iloc_from k df))).
  { rewrite iloc_from_index. apply seq_NoDup. }
  clear - Hin Hin' Hnd.
  induction (iloc_from k df) as [|x data IH]; simpl in *; [contradiction|].
  inversion Hnd as [|? ? Hnotin Hnd']; subst.
  destruct Hin as [->|Hin], Hin' as [E|Hin'].
  - rewrite E. reflexivity.
  - exfalso. apply Hnotin.
    change (fst lr) with (fst (fst lr, nth (fst lr) (body df) [])).
    apply in_map. assumption.
  - exfalso. apply Hnotin. rewrite E. simpl. apply in_map. assumption.
  - apply IH; assumption.
Qed.

Lemma skipn_In_row (k : nat) (df : Sheet) (row : list value) :
  In row (skipn k (body df)) ->
  exists r, k <= r < len df /\ row = nth r (body df) [].
Proof.
  rewrite <- iloc_from_values. intros Hin. apply in_map_iff in Hin.
  destruct Hin as (lr & <- & Hin). exists (fst lr).
  apply iloc_from_In_inv. assumption.
Qed.

Lemma In_insert_label (x l : nat) (idx : list nat) :
  In x (insert_label l idx) <-> x = l \/ In x idx.
Proof.
  induction idx as [|l' idx IH]; simpl.
  - intuition congruence.
  - destruct (Nat.ltb l l'); [simpl; intuition congruence|].
    destruct (Nat.eqb_spec l l'); simpl; [intuition congruence|].
    rewrite IH. intuition congruence.
Qed.

Lemma In_union (x : nat) (i1 i2 : list nat) :
  In x (union i1 i2) <-> In x i1 \/ In x i2.
Proof.
  unfold union. induction i2 as [|l i2 IH]; simpl; [tauto|].
  rewrite In_insert_label, IH. intuition congruence.
Qed.

Lemma loc_Some_In (l : nat) (s : Series) (v : value) :
  loc l s = Some v -> In (l, v) s.
Proof.
  induction s as [|[l' v'] s IH]; simpl; [discriminate|].
  destruct (Nat.eqb_spec l l') as [->|_].
  - intros [= ->]. left; reflexivity.
  - intros H. right. apply IH. assumption.
Qed.

(** The stand-in column of [safe_col] is missing at every label. *)
Lemma at_label_fallback (m l : nat) :
  isna (at_label (Series_of_list (repeat NA m)) l) = true.
Proof.
  unfold at_label.
  destruct (loc l _) as [v|] eqn:E; [|reflexivity].
  apply loc_Some_In in E. unfold Series_of_list in E.
  apply in_combine_r in E. apply repeat_spec in E. subst v. reflexivity.
Qed.

Lemma at_label_map_fallback (g : value -> value) (m l : nat) :
  g NA = NA ->
  isna (at_label (Series_map g (Series_of_list (repeat NA m))) l) = true.
Proof.
  intros Hg. unfold at_label.
  destruct (loc l _) as [v|] eqn:E; [|reflexivity].
  apply loc_Some_In in E. unfold Series_map in E. apply in_map_iff in E.
  destruct E as ([l' v'] & [= <- <-] & Hin). simpl.
  unfold Series_of_list in Hin.
  apply in_combine_r in Hin. apply repeat_spec in Hin. subst v'.
  rewrite Hg. reflexivity.
Qed.





(* ------------------------------------------------------------------ *)
(** ** Records of a sheet *)

Lemma clean_cell_missing (x : value) : isna x = true -> clean_cell x = Ok NA.
Proof. destruct x; simpl; intros H; try discriminate; reflexivity. Qed.

Lemma cleaned_missing (x : value) : isna x = true -> cleaned x = NA.
Proof. intros H. unfold cleaned. rewrite clean_cell_missing by assumption. reflexivity. Qed.

Lemma cleanableb_spec (x : value) : cleanableb x = true <-> cleanable x.
Proof.
  unfold cleanableb, cleanable. destruct (clean_cell x) as [v|e].
  - split; [eexists; reflexivity | reflexivity].
  - split; [discriminate | intros [v H]; discriminate].
Qed.

Lemma counts_cleanable_dec (df : Sheet) (h c : nat) :
  forallb (fun lr => cleanableb (active (snd lr)) && cleanableb (inactive (snd lr)))
          (select mask_keep (built df h c)) = true ->
  counts_cleanable df h c.
Proof.
  unfold counts_cleanable. rewrite forallb_forall, Forall_forall.
  intros H lr Hin. specialize (H lr Hin). apply andb_true_iff in H.
  rewrite !cleanableb_spec in H. assumption.
Qed.

(** With the four columns present, every emitted record is read from
    one data row at the fixed offsets. *)
Lemma in_range_record_source (df : Sheet) (h c : nat) :
  c + 6 < shape1 df ->
  counts_cleanable df h c ->
  forall x, In x (sheet_records df h c) ->
  exists r,
    h < r < len df /\
    precinct_no x = Str (_norm_cell (iat df r c)) /\
    precinct_name x = name_cell (iat df r (c + 1)) /\
    clean_cell (iat df r (c + 5)) = Ok (active x) /\
    clean_cell (iat df r (c + 6)) = Ok (inactive x).
Proof.
  intros Hc Hclean x Hin.
  unfold sheet_records in Hin. apply filter_In in Hin. destruct Hin as [Hin _].
  apply in_map_iff in Hin. destruct Hin as (y & <- & Hin).
  apply in_map_iff in Hin. destruct Hin as ([l y'] & Hy & Hin). simpl in Hy. subst y'.
  unfold counts_cleanable in Hclean. rewrite Forall_forall in Hclean.
  destruct (Hclean _ Hin) as [Ha Hi]. simpl in Ha, Hi.
  unfold select in Hin. apply filter_In in Hin. destruct Hin as [Hin _].
  rewrite (built_in_range _ _ _ Hc) in Hin. apply in_map_iff in Hin.
  destruct Hin as (lr & [= <- <-] & Hin).
  apply iloc_from_In_inv in Hin. destruct Hin as [Hr Hrow].
  exists (fst lr). split; [lia|]. unfold iat. rewrite <- Hrow.
  simpl. repeat split; apply cleanable_cleaned; assumption.
Qed.

(** Where the layout holds.  On a sheet that has the columns at offsets
    +1, +5 and +6 from the header column, every emitted record is read
    from one data row
    below the header: its number from the header column, its name from
    the column at +1, and its active and inactive counts are the
    cleaned cells of the columns at +5 and +6 of that same row. *)
Theorem extract_sheet_fixed_offsets (df : Sheet) (h c : nat) (t : Table) :
  _find_precinct_no_header df 60 = Ok (h, c) ->
  c + 6 < shape1 df ->
  extract_sheet df = Ok t ->
  Forall (fun x =>
            exists r,
              h < r < len df /\
              precinct_no x = Str (_norm_cell (iat df r c)) /\
              precinct_name x = name_cell (iat df r (c + 1)) /\
              clean_cell (iat df r (c + 5)) = Ok (active x) /\
              clean_cell (iat df r (c + 6)) = Ok (inactive x))
         (records t).
Proof.
  intros Hh Hc Ht. apply extract_sheet_Ok_inv in Ht.
  destruct Ht as (h' & c' & Hh' & Hclean & ->).
  rewrite Hh in Hh'. injection Hh' as <- <-.
  apply Forall_forall. simpl. apply in_range_record_source; assumption.
Qed.

(** C10.  When the header is found in the last row of the sheet, the
    extraction succeeds and yields no record. *)
Theorem header_in_last_row_no_records (df : Sheet) (h c : nat) :
  _find_precinct_no_header df 60 = Ok (h, c) ->
  h + 1 = len df ->
  extract_sheet df = Ok {| columns := out_columns; records := [] |}.
Proof.
  intros Hh Hlast.
  assert (Hdata : iloc_from (h + 1) df = []).
  { unfold iloc_from. apply skipn_all2.
    rewrite length_combine, length_seq. unfold len in *. lia. }
  assert (Hbuilt : built df h c = []).
  { unfold built, safe_col. rewrite Hdata.
    destruct (_ <? _)%nat, (_ <? _)%nat, (_ <? _)%nat, (_ <? _)%nat; reflexivity. }
  rewrite (extract_sheet_Ok df h c Hh).
  - unfold sheet_records. rewrite Hbuilt. reflexivity.
  - unfold counts_cleanable. rewrite Hbuilt. constructor.
Qed.


(** A frame row that passes both filters is emitted, cleaned. *)
Lemma kept_row_emitted (df : Sheet) (h c l : nat) (x : record) :
  In (l, x) (built df h c) ->
  mask_keep x = true ->
  totally_empty (clean_record x) = false ->
  In (clean_record x) (sheet_records df h c).
Proof.
  intros Hin Hkeep Hne. unfold sheet_records. apply filter_In. split.
  - apply in_map. apply in_map_iff. exists (l, x). split; [reflexivity|].
    unfold select. apply filter_In. split; assumption.
  - rewrite Hne. reflexivity.
Qed.


(* ------------------------------------------------------------------ *)
(** ** The documented example *)

Lemma no_header_nth (row : list value) (c : nat) :
  no_header_in row ->
  Py.search PRECINCT_NO_HEADER (_norm_cell (nth c row NaN)) = false.
Proof.
  intros H. destruct (Nat.lt_ge_cases c (length row)) as [Hlt|Hge].
  - unfold no_header_in in H. rewrite Forall_forall in H.
    apply H. apply nth_In. assumption.
  - rewrite nth_overflow by assumption. reflexivity.
Qed.

Lemma filter_cons_true {A : Type} (f : A -> bool) (a : A) (l : list A) :
  f a = true -> filter f (a :: l) = a :: filter f l.
Proof. intros H. simpl. rewrite H. reflexivity. Qed.

Lemma example_header_found (r0 r1 : list value) (rest : list (list value)) :
  no_header_in r0 -> no_header_in r1 ->
  _find_precinct_no_header
    (mkSheet 9 (r0 :: r1 :: example_header_row :: example_data_row :: rest)) 60
  = Ok (2, 2).
Proof.
  intros H0 H1. apply find_header_Ok. repeat split.
  - unfold scanned, len. simpl body. simpl length. lia.
  - simpl. lia.
  - intros r c Hr Hc Hh. unfold row_major_le. simpl fst. simpl snd.
    unfold is_header, iat in Hh. simpl body in Hh.
    destruct r as [|[|[|r]]].
    + simpl nth at 2 in Hh. rewrite (no_header_nth _ c H0) in Hh. discriminate.
    + simpl nth at 2 in Hh. rewrite (no_header_nth _ c H1) in Hh. discriminate.
    + destruct c as [|[|c]]; [discriminate Hh | discriminate Hh | right; lia].
    + left. lia.
Qed.

(** C8.  In a nine-column sheet whose rows 0 and 1 hold no header cell,
    whose row 2 is the documented header row and whose row 3 is the
    documented data row, the header is found at (2, 2) and the first
    emitted record is ("001", "Downtown", 1050, 12); when row 3 is the
    last row the extraction succeeds with exactly that record. *)
Theorem example_downtown (r0 r1 : list value) (rest : list (list value)) :
  no_header_in r0 -> no_header_in r1 ->
  let df :=
    mkSheet 9 (r0 :: r1 :: example_header_row :: example_data_row :: rest) in
  _find_precinct_no_header df 60 = Ok (2, 2) /\
  (forall t, extract_sheet df = Ok t ->
             exists more, records t = downtown :: more) /\
  (rest = [] ->
   extract_sheet df = Ok {| columns := out_columns; records := [downtown] |}).
Proof.
  intros H0 H1 df.
  pose proof (example_header_found r0 r1 rest H0 H1) as Hfind. fold df in Hfind.
  split; [assumption|]. split.
  - intros t Ht. apply extract_sheet_Ok_inv in Ht.
    destruct Ht as (h' & c' & Hh' & _ & ->).
    rewrite Hfind in Hh'. injection Hh' as <- <-. simpl records.
    rewrite sheet_records_in_range by (simpl; lia).
    change (skipn (2 + 1) (body df)) with (example_data_row :: rest).
    rewrite map_cons, filter_cons_true by reflexivity.
    rewrite map_cons, filter_cons_true by reflexivity.
    eexists. reflexivity.
  - intros ->. rewrite (extract_sheet_Ok df 2 2 Hfind).
    + reflexivity.
    + apply counts_cleanable_dec. reflexivity.
Qed.

(* ------------------------------------------------------------------ *)
(** ** The workbook loop *)

Lemma visit_sheet_step (xls : ExcelFile) (st : list Table * list line)
      (sheet : string) :
  visit_sheet xls st sheet =
  (fst st ++ sheet_part xls sheet, snd st ++ [sheet_line xls sheet]).
Proof.
  unfold visit_sheet, sheet_part, sheet_line, sheet_result.
  destruct (df_raw <- read_excel xls sheet ;; extract_sheet df_raw) as [t|e].
  - destruct (negb (empty t)); [reflexivity|]. rewrite app_nil_r. reflexivity.
  - rewrite app_nil_r. reflexivity.
Qed.

Lemma visit_all (xls : ExcelFile) (names : list string) :
  forall st,
    fold_left (visit_sheet xls) names st =
    (fst st ++ flat_map (sheet_part xls) names,
     snd st ++ map (sheet_line xls) names).
Proof.
  induction names as [|sheet names IH]; intros [dfs out]; simpl.
  - rewrite !app_nil_r. reflexivity.
  - rewrite IH, visit_sheet_step. simpl. rewrite <- !app_assoc. reflexivity.
Qed.

Lemma extract_all_sheets_unfold (xls : ExcelFile) :
  extract_all_sheets xls =
  (match flat_map (sheet_part xls) (sheet_names xls) with
   | [] => {| columns := out_columns; records := [] |}
   | _ :: _ => concat (flat_map (sheet_part xls) (sheet_names xls))
   end,
   map (sheet_line xls) (sheet_names xls)).
Proof.
  unfold extract_all_sheets. rewrite visit_all. simpl.
  destruct (flat_map _ _); reflexivity.
Qed.

Lemma empty_records (t : Table) : empty t = true -> records t = [].
Proof. unfold empty. destruct (records t); [reflexivity|discriminate]. Qed.

Lemma parts_records (xls : ExcelFile) (names : list string) :
  flat_map records (flat_map (sheet_part xls) names) =
  flat_map (sheet_rows xls) names.
Proof.
  induction names as [|sheet names IH]; simpl; [reflexivity|].
  rewrite flat_map_app, IH. f_equal.
  unfold sheet_part, sheet_rows. destruct (sheet_result xls sheet) as [t|e];
    [|reflexivity].
  destruct (empty t) eqn:E; simpl.
  - symmetry. apply empty_records. assumption.
  - apply app_nil_r.
Qed.

Lemma extract_all_sheets_records (xls : ExcelFile) :
  records (fst (extract_all_sheets xls)) =
  flat_map (sheet_rows xls) (sheet_names xls).
Proof.
  rewrite extract_all_sheets_unfold. simpl. rewrite <- parts_records.
  destruct (flat_map (sheet_part xls) (sheet_names xls)); reflexivity.
Qed.

(** C6.  The sheets are visited in order and each one gets its progress
    line, a failure line when reading or extracting it raises; the
    records of the result are the records of the sheets that succeed,
    in sheet order and in each sheet's row order; when no sheet
    contributes a record the result is the empty four-column table. *)
Theorem extract_all_sheets_isolates_failures (xls : ExcelFile) :
  snd (extract_all_sheets xls) = map (sheet_line xls) (sheet_names xls) /\
  (forall sheet e,
      In sheet (sheet_names xls) -> sheet_result xls sheet = Raise e ->
      In (Failed sheet e) (snd (extract_all_sheets xls))) /\
  records (fst (extract_all_sheets xls)) =
    flat_map (sheet_rows xls) (sheet_names xls) /\
  ((forall sheet, In sheet (sheet_names xls) -> sheet_rows xls sheet = []) ->
   fst (extract_all_sheets xls) = {| columns := out_columns; records := [] |}).
Proof.
  split; [rewrite extract_all_sheets_unfold; reflexivity|].
  split.
  - intros sheet e Hin He. rewrite extract_all_sheets_unfold. simpl.
    apply in_map_iff. exists sheet. split; [|assumption].
    unfold sheet_line. rewrite He. reflexivity.
  - split; [apply extract_all_sheets_records|].
    intros Hnone. rewrite extract_all_sheets_unfold. simpl.
    assert (E : flat_map (sheet_part xls) (sheet_names xls) = []).
    { induction (sheet_names xls) as [|sheet names IH]; simpl; [reflexivity|].
      rewrite IH by (intros s Hs; apply Hnone; right; assumption).
      rewrite app_nil_r.
      specialize (Hnone sheet (or_introl eq_refl)).
      unfold sheet_rows in Hnone. unfold sheet_part.
      destruct (sheet_result xls sheet) as [t|e]; [|reflexivity].
      unfold empty. rewrite Hnone. reflexivity. }
    rewrite E. reflexivity.
Qed.

(* ------------------------------------------------------------------ *)
(** ** Shape of the output *)

Lemma to_Int64_nullable (x v : value) : to_Int64 x = Ok v -> nullable_int v.
Proof.
  unfold to_Int64, nullable_int. destruct x as [| |t|z].
  - intros [= <-]. left; reflexivity.
  - intros [= <-]. left; reflexivity.
  - destruct (Py.int_literal t) as [z| |n]; [|discriminate|discriminate].
    destruct ((int64_min <=? z) && (z <=? int64_max))%Z eqn:E; [|discriminate].
    intros [= <-]. right. exists z. split; [reflexivity|].
    apply in_int64_dec. assumption.
  - destruct ((int64_min <=? z) && (z <=? int64_max))%Z eqn:E; [|discriminate].
    intros [= <-]. right. exists z. split; [reflexivity|].
    apply in_int64_dec. assumption.
Qed.

Lemma cleaned_nullable (x : value) : cleanable x -> nullable_int (cleaned x).
Proof.
  intros H. apply cleanable_cleaned in H. unfold clean_cell in H.
  eapply to_Int64_nullable. exact H.
Qed.

(** Whatever the sheet, the counts of an emitted record are nullable
    integers. *)
Lemma extract_sheet_counts (df : Sheet) (t : Table) :
  extract_sheet df = Ok t ->
  columns t = out_columns /\
  Forall (fun x => nullable_int (active x) /\ nullable_int (inactive x))
         (records t).
Proof.
  intros Ht. apply extract_sheet_Ok_inv in Ht.
  destruct Ht as (h & c & _ & Hclean & ->). split; [reflexivity|].
  simpl. apply Forall_forall. intros x Hin.
  unfold sheet_records in Hin. apply filter_In in Hin. destruct Hin as [Hin _].
  apply in_map_iff in Hin. destruct Hin as (y & <- & Hin).
  apply in_map_iff in Hin. destruct Hin as ([l y'] & Hy & Hin). simpl in Hy. subst y'.
  unfold counts_cleanable in Hclean. rewrite Forall_forall in Hclean.
  destruct (Hclean _ Hin) as [Ha Hi]. simpl in Ha, Hi.
  simpl. split; apply cleaned_nullable; assumption.
Qed.

Lemma mask_keep_row_record (c : nat) (row : list value) :
  mask_keep (row_record c row) = true -> has_number_or_name (row_record c row).
Proof.
  unfold mask_keep, has_number_or_name. simpl.
  intros H. apply orb_true_iff in H. destruct H as [H|H].
  - left. eexists. split; [reflexivity|].
    intros E. rewrite E in H. discriminate.
  - right. unfold notna in H. apply negb_true_iff in H. assumption.
Qed.

(** On a sheet that has all four columns, the retention invariant holds
    of every emitted record and the number column holds text. *)
Lemma in_range_invariant (df : Sheet) (h c : nat) (t : Table) :
  _find_precinct_no_header df 60 = Ok (h, c) ->
  c + 6 < shape1 df ->
  extract_sheet df = Ok t ->
  Forall has_number_or_name (records t).
Proof.
  intros Hh Hc Ht. apply extract_sheet_Ok_inv in Ht.
  destruct Ht as (h' & c' & Hh' & _ & ->).
  rewrite Hh in Hh'. injection Hh' as <- <-. simpl.
  rewrite sheet_records_in_range by assumption.
  apply Forall_forall. intros x Hin.
  apply filter_In in Hin. destruct Hin as [Hin _].
  apply in_map_iff in Hin. destruct Hin as (y & <- & Hin).
  apply filter_In in Hin. destruct Hin as [Hin Hkeep].
  apply in_map_iff in Hin. destruct Hin as (row & <- & _).
  apply mask_keep_row_record in Hkeep. exact Hkeep.
Qed.

Lemma union_columns_same (parts : list Table) :
  Forall (fun t => columns t = out_columns) parts ->
  parts <> [] ->
  union_columns parts = out_columns.
Proof.
  unfold union_columns. intros H Hne.
  destruct parts as [|t parts]; [congruence|].
  inversion H as [|? ? Ht Hparts]; subst. simpl. rewrite Ht.
  change (fold_left (fun a c => add_column c a) out_columns []) with out_columns.
  clear - Hparts. induction Hparts as [|t' parts Ht' _ IH]; simpl; [reflexivity|].
  rewrite Ht'.
  change (fold_left (fun a c => add_column c a) out_columns out_columns)
    with out_columns.
  exact IH.
Qed.

Lemma sheet_part_columns (xls : ExcelFile) (names : list string) :
  Forall (fun t => columns t = out_columns) (flat_map (sheet_part xls) names).
Proof.
  apply Forall_forall. intros t Hin. apply in_flat_map in Hin.
  destruct Hin as (sheet & _ & Hin). unfold sheet_part, sheet_result in Hin.
  destruct (read_excel xls sheet) as [df|e]; simpl in Hin; [|contradiction].
  destruct (extract_sheet df) as [t'|e] eqn:E; [|contradiction].
  destruct (negb (empty t')); [|contradiction].
  destruct Hin as [<-|[]]. apply (extract_sheet_counts _ _ E).
Qed.

(** The result of a workbook always has the four named columns, in
    order, and nullable integers as counts. *)
Lemma extract_all_sheets_shape (xls : ExcelFile) :
  columns (fst (extract_all_sheets xls)) = out_columns /\
  Forall (fun x => nullable_int (active x) /\ nullable_int (inactive x))
         (records (fst (extract_all_sheets xls))).
Proof.
  split.
  - rewrite extract_all_sheets_unfold. simpl.
    pose proof (sheet_part_columns xls (sheet_names xls)) as H.
    destruct (flat_map (sheet_part xls) (sheet_names xls)) as [|t parts] eqn:E;
      [reflexivity|].
    simpl. apply union_columns_same; [assumption | discriminate].
  - rewrite extract_all_sheets_records. apply Forall_forall. intros x Hin.
    apply in_flat_map in Hin. destruct Hin as (sheet & _ & Hin).
    unfold sheet_rows, sheet_result in Hin.
    destruct (read_excel xls sheet) as [df|e]; simpl in Hin; [|contradiction].
    destruct (extract_sheet df) as [t|e] eqn:E; [|contradiction].
    destruct (extract_sheet_counts _ _ E) as [_ H].
    rewrite Forall_forall in H. apply H. assumption.
Qed.

(* ------------------------------------------------------------------ *)
(** ** A sheet narrower than the layout *)

Lemma loc_absent (l : nat) (s : Series) : ~ In l (index s) -> loc l s = None.
Proof.
  induction s as [|[l' v] s IH]; simpl; intros H; [reflexivity|].
  destruct (Nat.eqb_spec l l') as [->|_]; [exfalso; apply H; left; reflexivity|].
  apply IH. intros Hin. apply H. right. assumption.
Qed.

Lemma fallback_index (m : nat) : index (Series_of_list (repeat NA m)) = seq 0 m.
Proof.
  unfold index, Series_of_list. rewrite repeat_length.
  apply map_fst_combine. rewrite length_seq, repeat_length. reflexivity.
Qed.

Lemma length_iloc_from (k : nat) (df : Sheet) :
  length (iloc_from k df) = len df - k.
Proof. rewrite <- (length_map fst), iloc_from_index. apply length_seq. Qed.

(** The defect in general: when the column at +6 is absent and at least
    one row follows the header, a successful extraction emits a record
    whose precinct number is missing. *)
Lemma absent_column_adds_row (df : Sheet) (h c : nat) (t : Table) :
  _find_precinct_no_header df 60 = Ok (h, c) ->
  h + 1 < len df ->
  shape1 df <= c + 6 ->
  extract_sheet df = Ok t ->
  exists x, In x (records t) /\ precinct_no x = NaN.
Proof.
  intros Hh Hrows Hshort Ht.
  pose proof (proj1 (find_header_Ok df 60 h c) Hh) as (_ & Hc & _).
  apply extract_sheet_Ok_inv in Ht. destruct Ht as (h' & c' & Hh' & _ & ->).
  rewrite Hh in Hh'. injection Hh' as <- <-. simpl records.
  set (data := iloc_from (h + 1) df).
  set (pno := Series_map (fun x => Str (_norm_cell x)) (safe_col df data c)).
  assert (Hpno : at_label pno 0 = NaN).
  { unfold at_label. rewrite loc_absent; [reflexivity|].
    unfold pno, safe_col. destruct (Nat.ltb_spec c (shape1 df)); [|lia].
    unfold Series_map, iloc_col, index. rewrite !map_map. simpl.
    change (~ In 0 (map fst data)). unfold data. rewrite iloc_from_index.
    rewrite in_seq. lia. }
  assert (Hidx : In 0 (index (safe_col df data (c + 6)))).
  { unfold safe_col. destruct (Nat.ltb_spec (c + 6) (shape1 df)); [lia|].
    rewrite fallback_index. apply in_seq. unfold data.
    rewrite length_iloc_from. lia. }
  assert (Hin : exists x, In (0, x) (built df h c) /\ precinct_no x = NaN).
  { eexists. split.
    - unfold built, DataFrame_of_dict. cbv zeta. apply in_map_iff.
      exists 0. split; [reflexivity|].
      unfold union_indexes. simpl fold_left. rewrite In_union. right. exact Hidx.
    - exact Hpno. }
  destruct Hin as (x & Hin & Hx).
  exists (clean_record x). split; [|exact Hx].
  apply (kept_row_emitted df h c 0 x Hin).
  - unfold mask_keep. rewrite Hx. reflexivity.
  - unfold totally_empty, clean_record. simpl. rewrite Hx. reflexivity.
Qed.

(** C4, at the failing input.  On the two-column sheet the extraction
    does not fail and the counts of the precinct are missing, but the
    stand-in columns are labelled from 0 while the data rows keep their
    labels, so the frame gains a row at label 0 that no data row backs;
    that row is emitted.  With the columns present and entirely missing
    only the precinct's record is emitted. *)
Theorem short_sheet_gains_a_row :
  extract_sheet short_sheet =
    Ok {| columns := out_columns; records := [phantom; downtown_no_counts] |} /\
  extract_sheet (with_missing_columns 7 short_sheet) =
    Ok {| columns := out_columns; records := [downtown_no_counts] |}.
Proof. split; vm_compute; reflexivity. Qed.

(** C5, at the failing input.  The two-column sheet yields a record with
    neither a number nor a name, all four fields missing. *)
Theorem short_sheet_breaks_retention :
  exists t,
    extract_sheet short_sheet = Ok t /\
    In phantom (records t) /\
    ~ has_number_or_name phantom /\
    ~ Forall has_number_or_name (records t).
Proof.
  assert (Hp : ~ has_number_or_name phantom).
  { intros [(s & Hs & _)|H]; discriminate. }
  eexists. split; [vm_compute; reflexivity|].
  split; [left; reflexivity|]. split; [assumption|].
  intros H. inversion H; subst. contradiction.
Qed.

(** C3, at the failing input.  On the two-column sheet the header is
    found at row 0, column 0, and the extraction succeeds, but not every
    record it emits is read from a data row at the fixed offsets: the
    first record, whose number is a missing value and not the text of a
    cell, comes from no row of the sheet.  It is the row that the
    stand-in columns add at label 0, the defect shown for C4. *)
Theorem short_sheet_record_from_no_row :
  _find_precinct_no_header short_sheet 60 = Ok (0, 0) /\
  exists t,
    extract_sheet short_sheet = Ok t /\
    In phantom (records t) /\
    ~ Forall (fun x =>
                exists r,
                  0 < r < len short_sheet /\
                  precinct_no x = Str (_norm_cell (iat short_sheet r 0)) /\
                  precinct_name x = name_cell (iat short_sheet r (0 + 1)) /\
                  clean_cell (iat short_sheet r (0 + 5)) = Ok (active x) /\
                  clean_cell (iat short_sheet r (0 + 6)) = Ok (inactive x))
             (records t).
Proof.
  split; [vm_compute; reflexivity|].
  exists {| columns := out_columns; records := [phantom; downtown_no_counts] |}.
  split; [vm_compute; reflexivity|]. split; [left; reflexivity|].
  intros H. inversion H as [|x l (r & _ & Hno & _) _]; subst.
  discriminate Hno.
Qed.

(** C7, at the failing input.  A workbook whose only sheet is the
    two-column sheet yields a table whose first record has a missing
    value, not a text, as its precinct number. *)
Theorem short_workbook_number_missing :
  fst (extract_all_sheets short_workbook) =
    {| columns := out_columns; records := [phantom; downtown_no_counts] |} /\
  (exists x, In x (records (fst (extract_all_sheets short_workbook))) /\
             precinct_no x = NaN /\
             ~ exists s, precinct_no x = Str s).
Proof.
  split; [vm_compute; reflexivity|].
  exists phantom. split; [left; reflexivity|]. split; [reflexivity|].
  intros [s Hs]. discriminate.
Qed.

(* ------------------------------------------------------------------ *)
(** ** Instances *)

Lemma clean_int_series_partial_witness :
  _clean_int_series (Series_of_list [Str ""]) = Ok [(0, NA)] /\
  (exists z, Py.int_literal (Py.keep digit_or_minus "1,234") = Py.Parsed z /\
             (in_int64 z ->
              _clean_int_series (Series_of_list [Str "1,234"]) = Ok [(0, Int z)])) /\
  (exists msg,
      _clean_int_series (Series_of_list [Str "12-3"]) = Raise (ValueError msg)) /\
  (exists msg,
      _clean_int_series (Series_of_list [Str long_number]) = Raise (ValueError msg)).
Proof.
  pose proof (proj1 clean_int_series_partial) as H.
  split; [|split; [|split]].
  - apply (proj1 (H "")). left. reflexivity.
  - destruct (proj1 (proj2 (H "1,234"))) as (z & Hz & Hin & _);
      [discriminate | discriminate | reflexivity | vm_compute; discriminate |].
    exists z. split; assumption.
  - apply (proj1 (proj2 (proj2 (H "12-3")))). reflexivity.
  - apply (proj2 (proj2 (proj2 (H long_number)))). vm_compute. reflexivity.
Defined.

Lemma find_header_first_match_witness :
  (exists r0 c0,
      _find_precinct_no_header example_sheet 60 = Ok (r0, c0) /\
      scanned example_sheet 60 r0 /\ c0 < shape1 example_sheet /\
      is_header example_sheet r0 c0 = true /\
      forall r c, scanned example_sheet 60 r -> c < shape1 example_sheet ->
                  is_header example_sheet r c = true ->
                  row_major_le (r0, c0) (r, c)) /\
  _find_precinct_no_header no_header_sheet 60 = Raise header_not_found.
Proof.
  split.
  - apply (proj1 (find_header_first_match example_sheet 60)).
    exists 2, 2. split; [vm_compute; reflexivity|].
    split; [vm_compute; lia | reflexivity].
  - apply (proj2 (find_header_first_match no_header_sheet 60)).
    intros r c Hr Hc. unfold scanned in Hr. simpl in Hr, Hc.
    destruct r as [|r]; [|lia].
    destruct c as [|[|c]]; [reflexivity | reflexivity | lia].
Defined.

Lemma extract_sheet_fixed_offsets_witness :
  Forall (fun x =>
            exists r,
              2 < r < len example_sheet /\
              precinct_no x = Str (_norm_cell (iat example_sheet r 2)) /\
              precinct_name x = name_cell (iat example_sheet r (2 + 1)) /\
              clean_cell (iat example_sheet r (2 + 5)) = Ok (active x) /\
              clean_cell (iat example_sheet r (2 + 6)) = Ok (inactive x))
         [downtown].
Proof.
  apply (extract_sheet_fixed_offsets example_sheet 2 2
           {| columns := out_columns; records := [downtown] |}).
  - vm_compute. reflexivity.
  - vm_compute. lia.
  - vm_compute. reflexivity.
Defined.

Lemma extract_all_sheets_isolates_failures_witness :
  In (Failed "Cover" header_not_found) (snd (extract_all_sheets three_sheets)) /\
  fst (extract_all_sheets three_sheets) =
    {| columns := out_columns; records := [] |}.
Proof.
  pose proof (extract_all_sheets_isolates_failures three_sheets)
    as (_ & Hfail & _ & Hempty).
  split.
  - apply Hfail; [right; left; reflexivity | vm_compute; reflexivity].
  - apply Hempty. intros sheet [<-|[<-|[<-|[]]]]; vm_compute; reflexivity.
Defined.

Lemma example_downtown_witness :
  extract_sheet example_sheet =
  Ok {| columns := out_columns; records := [downtown] |}.
Proof.
  assert (Hblank : no_header_in blank_row).
  { unfold no_header_in, blank_row. simpl repeat.
    repeat (constructor; [reflexivity|]). constructor. }
  apply (proj2 (proj2 (example_downtown blank_row blank_row [] Hblank Hblank))).
  reflexivity.
Defined.


Lemma header_in_last_row_no_records_witness :
  extract_sheet header_last_sheet =
  Ok {| columns := out_columns; records := [] |}.
Proof.
  apply (header_in_last_row_no_records header_last_sheet 2 2).
  - vm_compute. reflexivity.
  - reflexivity.
Defined.

(** A precinct with a number only is kept, a blank row is dropped. *)
Example full_sheet_records :
  extract_sheet full_sheet =
  Ok {| columns := out_columns;
        records :=
          [{| precinct_no := Str "007"; precinct_name := NaN;
              active := NA; inactive := NA |};
           {| precinct_no := Str "101"; precinct_name := Str "Harbor";
              active := Int 2310; inactive := NA |}] |}.
Proof. vm_compute. reflexivity. Qed.

(** A sheet without header is skipped and reported; the sheets around
    it still contribute their records, in order. *)
Example mixed_workbook_records :
  extract_all_sheets mixed_workbook =
  ({| columns := out_columns;
      records :=
        [{| precinct_no := Str "007"; precinct_name := NaN;
            active := NA; inactive := NA |};
         {| precinct_no := Str "101"; precinct_name := Str "Harbor";
            active := Int 2310; inactive := NA |};
         downtown] |},
   [Extracted "North" 2; Failed "Cover" header_not_found; Extracted "South" 1]).
Proof. vm_compute. reflexivity. Qed.

(* ------------------------------------------------------------------ *)
(** ** Normalised text *)

Lemma lstrip_no_leading (s : string) : starts_ws (Py.lstrip s) = false.
Proof.
  induction s as [|c s IH]; simpl; [reflexivity|].
  destruct (Py.isspace c) eqn:E; [assumption|]. simpl. assumption.
Qed.

Lemma rstrip_no_leading (s : string) :
  starts_ws s = false -> starts_ws (Py.rstrip s) = false.
Proof.
  destruct s as [|c s]; simpl; intros H; [reflexivity|].
  rewrite H. simpl. assumption.
Qed.

Lemma rstrip_no_trailing (s : string) : ends_ws (Py.rstrip s) = false.
Proof.
  induction s as [|c s IH]; simpl; [reflexivity|].
  destruct (Py.rstrip s) as [|d t] eqn:E'; simpl in *.
  - destruct (Py.isspace c) eqn:E; simpl; [reflexivity|assumption].
  - rewrite andb_false_r. simpl. assumption.
Qed.

Lemma sub_ws_run_shape (s : string) :
  ends_ws s = false ->
  (single_spaced (Py.sub_ws_run true s) = true /\
   starts_ws (Py.sub_ws_run true s) = false /\
   (Py.sub_ws_run true s = "" -> s = "")) /\
  (single_spaced (Py.sub_ws_run false s) = true /\
   (starts_ws s = false -> starts_ws (Py.sub_ws_run false s) = false)).
Proof.
  induction s as [|c s IH]; intros Hend.
  - repeat split; reflexivity.
  - destruct s as [|d s'].
    + simpl in Hend. simpl. rewrite Hend. simpl. rewrite Hend.
      repeat split; try reflexivity; try discriminate.
    + change (ends_ws (String d s') = false) in Hend.
      destruct (IH Hend) as ((T1 & T2 & T3) & (F1 & F2)).
      remember (String d s') as s eqn:Es.
      simpl. destruct (Py.isspace c) eqn:Hc.
      * assert (Hne : Py.sub_ws_run true s <> "").
        { intros H. apply T3 in H. subst s. discriminate. }
        split; [repeat split; try assumption; intros H; contradiction|].
        split; [|discriminate]. simpl. rewrite T1, T2.
        destruct (Py.sub_ws_run true s); [contradiction|]. reflexivity.
      * split; [|split; [|intros _]]; simpl; rewrite ?Hc; simpl;
          try assumption; try reflexivity.
        repeat split; try assumption. discriminate.
Qed.

Lemma norm_cell_normalised (x : value) : normalised (_norm_cell x) = true.
Proof.
  unfold _norm_cell. destruct (isna x); [reflexivity|].
  unfold normalised, Py.sub_ws, Py.strip.
  pose proof (sub_ws_run_shape _ (rstrip_no_trailing (Py.lstrip (str x))))
    as (_ & F1 & F2).
  rewrite F1, F2; [reflexivity|].
  apply rstrip_no_leading, lstrip_no_leading.
Qed.

Lemma single_spaced_rstrip (s : string) :
  single_spaced s = true -> Py.rstrip s = s.
Proof.
  induction s as [|c s IH]; simpl; intros H; [reflexivity|].
  apply andb_true_iff in H. destruct H as [Hc Hs]. rewrite (IH Hs).
  destruct (Py.isspace c); [|reflexivity].
  apply andb_true_iff in Hc. destruct Hc as [Hc _].
  apply andb_true_iff in Hc. destruct Hc as [_ Hc].
  destruct s; [discriminate|reflexivity].
Qed.

Lemma single_spaced_sub_ws (s : string) :
  single_spaced s = true ->
  Py.sub_ws_run false s = s /\
  (starts_ws s = false -> Py.sub_ws_run true s = s).
Proof.
  induction s as [|c s IH]; simpl; intros H; [split; reflexivity|].
  apply andb_true_iff in H. destruct H as [Hc Hs].
  destruct (IH Hs) as [F T].
  destruct (Py.isspace c) eqn:E.
  - apply andb_true_iff in Hc. destruct Hc as [Hc Hn].
    apply andb_true_iff in Hc. destruct Hc as [Hc _].
    apply Ascii.eqb_eq in Hc. subst c. apply negb_true_iff in Hn.
    split; [|discriminate]. rewrite (T Hn). reflexivity.
  - rewrite F. split; reflexivity.
Qed.

Lemma normalised_fixed (s : string) :
  normalised s = true -> _norm_cell (Str s) = s.
Proof.
  unfold normalised. intros H. apply andb_true_iff in H. destruct H as [H1 H2].
  apply negb_true_iff in H1.
  unfold _norm_cell. simpl. unfold Py.sub_ws, Py.strip.
  assert (E : Py.lstrip s = s).
  { destruct s as [|c s]; [reflexivity|]. simpl in *. rewrite H1. reflexivity. }
  rewrite E, (single_spaced_rstrip _ H2).
  apply (single_spaced_sub_ws _ H2).
Qed.

(** X1.  The texts that [_norm_cell] can return are exactly the normalised
    ones: no whitespace at either end, and no whitespace inside other
    than single spaces between words. *)
Theorem norm_cell_canonical (s : string) :
  (exists x, _norm_cell x = s) <-> normalised s = true.
Proof.
  split.
  - intros [x <-]. apply norm_cell_normalised.
  - intros H. exists (Str s). apply normalised_fixed. assumption.
Qed.

(** X2.  Normalising twice is normalising once. *)
Theorem norm_cell_idempotent (x : value) :
  _norm_cell (Str (_norm_cell x)) = _norm_cell x.
Proof. apply normalised_fixed, norm_cell_normalised. Qed.

(* ------------------------------------------------------------------ *)
(** ** The header search and the scanned area *)

(** X3.  The position returned is a cell of the sheet inside the scanned
    prefix. *)
Theorem find_header_in_bounds (df : Sheet) (max_scan_rows : Z) (r c : nat) :
  _find_precinct_no_header df max_scan_rows = Ok (r, c) ->
  r < len df /\ (Z.of_nat r < max_scan_rows)%Z /\ c < shape1 df /\
  is_header df r c = true.
Proof.
  intros H. apply find_header_Ok in H. destruct H as (Hr & Hc & Hh & _).
  unfold scanned in Hr. repeat split; try assumption; lia.
Qed.

(** X4.  Nothing to scan: no rows, no columns, or a bound that is not
    positive. *)
Theorem find_header_nothing_to_scan (df : Sheet) (max_scan_rows : Z) :
  len df = 0 \/ shape1 df = 0 \/ (max_scan_rows <= 0)%Z ->
  _find_precinct_no_header df max_scan_rows = Raise header_not_found.
Proof.
  intros H. apply find_header_Raise. split; [reflexivity|].
  intros r c Hr Hc. unfold scanned in Hr. exfalso. lia.
Qed.

(** X5.  A larger bound never changes a header already found. *)
Theorem find_header_monotone (df : Sheet) (m m' : Z) (rc : nat * nat) :
  _find_precinct_no_header df m = Ok rc ->
  (m <= m')%Z ->
  _find_precinct_no_header df m' = Ok rc.
Proof.
  destruct rc as [r0 c0]. intros H Hle.
  apply find_header_Ok in H. destruct H as (Hr & Hc & Hh & Hfirst).
  apply find_header_Ok. unfold scanned in *. repeat split; try assumption; try lia.
  intros r c Hr' Hc' Hh'.
  destruct (Z_lt_le_dec (Z.of_nat r) (Z.min m (Z.of_nat (len df)))) as [Hin|Hout].
  - apply Hfirst; assumption.
  - left. simpl. lia.
Qed.

(** X6.  Rows at or beyond the bound are never looked at. *)
Theorem find_header_ignores_rows_beyond (w : nat) (top rest rest' : list (list value))
        (max_scan_rows : Z) :
  (max_scan_rows <= Z.of_nat (length top))%Z ->
  _find_precinct_no_header (mkSheet w (top ++ rest)) max_scan_rows =
  _find_precinct_no_header (mkSheet w (top ++ rest')) max_scan_rows.
Proof.
  intros Hm.
  assert (Hcell : forall tl r c, (Z.of_nat r < max_scan_rows)%Z ->
            is_header (mkSheet w (top ++ tl)) r c =
            is_header (mkSheet w top) r c).
  { intros tl r c Hr. unfold is_header, iat. simpl.
    rewrite app_nth1 by lia. reflexivity. }
  destruct (_find_precinct_no_header (mkSheet w (top ++ rest')) max_scan_rows)
    as [[r0 c0]|e] eqn:E.
  - apply find_header_Ok in E. destruct E as (Hr & Hc & Hh & Hfirst).
    unfold scanned, len in *. cbn [body shape1] in *. rewrite length_app in *.
    apply find_header_Ok. unfold scanned, len. cbn [body shape1].
    rewrite length_app.
    repeat split; try assumption; try lia.
    + rewrite (Hcell rest) by lia. rewrite (Hcell rest') in Hh by lia.
      assumption.
    + intros r c Hr' Hc' Hh'. apply Hfirst; try assumption; try lia.
      rewrite (Hcell rest') by lia. rewrite (Hcell rest) in Hh' by lia.
      assumption.
  - apply find_header_Raise in E. destruct E as (-> & Hnone).
    apply find_header_Raise. split; [reflexivity|].
    unfold scanned, len in *. cbn [body shape1] in *. rewrite length_app in *.
    intros r c Hr Hc. rewrite Hcell by lia.
    rewrite <- (Hcell rest') by lia. apply Hnone; [lia|assumption].
Qed.

(* ------------------------------------------------------------------ *)
(** ** The conversion of a column *)

Lemma mapM_Raise_first {A B : Type} (f : A -> result B) (l1 l2 : list A)
      (a : A) (e : exn) :
  Forall (fun x => exists b, f x = Ok b) l1 ->
  f a = Raise e ->
  mapM f (l1 ++ a :: l2) = Raise e.
Proof.
  induction 1 as [|x l1 [b Hb] _ IH]; simpl; intros Ha.
  - rewrite Ha. reflexivity.
  - rewrite Hb. simpl. rewrite (IH Ha). reflexivity.
Qed.

Lemma clean_series_Ok_cells (s : Series) :
  Forall (fun lv => cleanable (snd lv)) s ->
  _clean_int_series s = Ok (map (fun lv => (fst lv, cleaned (snd lv))) s).
Proof.
  intros H. rewrite clean_series_cells. apply mapM_Ok.
  eapply Forall_impl; [|exact H]. intros lv Hc. simpl.
  rewrite (cleanable_cleaned _ Hc). reflexivity.
Qed.

Lemma clean_series_Ok_inv (s s' : Series) :
  _clean_int_series s = Ok s' -> Forall (fun lv => cleanable (snd lv)) s.
Proof.
  rewrite clean_series_cells. intros H. apply mapM_Ok_inv in H.
  eapply Forall_impl; [|exact H]. intros lv [b Hb]. unfold cleanable.
  destruct (clean_cell (snd lv)) as [v|e]; [eexists; reflexivity|discriminate].
Qed.

Lemma clean_series_Ok_nullable (s s' : Series) :
  _clean_int_series s = Ok s' -> Forall (fun lv => nullable_int (snd lv)) s'.
Proof.
  intros H. pose proof (clean_series_Ok_inv _ _ H) as Hc.
  rewrite (clean_series_Ok_cells _ Hc) in H. injection H as <-.
  rewrite Forall_map. eapply Forall_impl; [|exact Hc].
  intros lv Hlv. simpl. apply cleaned_nullable. assumption.
Qed.

(** X7.  A successful cleaning keeps the index: same labels, same order, one
    nullable 64-bit integer per cell. *)
Theorem clean_series_keeps_index (s s' : Series) :
  _clean_int_series s = Ok s' ->
  index s' = index s /\
  Forall (fun lv => nullable_int (snd lv)) s' /\
  s' = map (fun lv => (fst lv, cleaned (snd lv))) s.
Proof.
  intros H. pose proof (clean_series_Ok_nullable _ _ H) as Hn.
  pose proof (clean_series_Ok_inv _ _ H) as Hc.
  rewrite (clean_series_Ok_cells _ Hc) in H. injection H as <-.
  split; [unfold index; rewrite map_map; reflexivity|].
  split; [assumption | reflexivity].
Qed.

(** X8.  The conversion of the whole column raises the exception of its
    first cell that cannot be converted. *)
Theorem clean_series_first_failure (s1 s2 : Series) (l : nat) (v : value) (e : exn) :
  Forall (fun lv => cleanable (snd lv)) s1 ->
  clean_cell v = Raise e ->
  _clean_int_series (s1 ++ (l, v) :: s2) = Raise e.
Proof.
  intros H1 Hv. rewrite clean_series_cells.
  apply mapM_Raise_first.
  - eapply Forall_impl; [|exact H1]. intros lv Hc. simpl.
    rewrite (cleanable_cleaned _ Hc). eexists; reflexivity.
  - simpl. rewrite Hv. reflexivity.
Qed.

Lemma keep_app (p : ascii -> bool) (a b : string) :
  Py.keep p (a ++ b) = (Py.keep p a ++ Py.keep p b)%string.
Proof.
  induction a as [|c a IH]; simpl; [reflexivity|].
  destruct (p c); simpl; rewrite IH; reflexivity.
Qed.

Lemma keep_none (s : string) :
  no_digit_or_minus s = true -> Py.keep digit_or_minus s = "".
Proof.
  unfold no_digit_or_minus. induction s as [|c s IH]; simpl; intros H; [reflexivity|].
  apply andb_true_iff in H. destruct H as [Hc Hs].
  apply negb_true_iff in Hc. rewrite Hc. auto.
Qed.

(** Text without any digit or minus sign is cleaned to a missing value. *)
Theorem clean_text_without_digits (s : string) :
  no_digit_or_minus s = true -> clean_cell (Str s) = Ok NA.
Proof.
  intros H. rewrite clean_cell_Str. cbv zeta. rewrite (keep_none _ H).
  reflexivity.
Qed.

(** X9.  Characters other than digits and the minus sign do not matter,
    wherever they stand. *)
Theorem clean_ignores_separators (a sep b : string) :
  no_digit_or_minus sep = true ->
  clean_cell (Str (a ++ sep ++ b)) = clean_cell (Str (a ++ b)).
Proof.
  intros H. rewrite !clean_cell_Str. cbv zeta.
  rewrite !keep_app, (keep_none _ H). reflexivity.
Qed.

(* ---- integers written back as text ---- *)

Lemma keep_all (p : ascii -> bool) (s : string) :
  all_chars p s = true -> Py.keep p s = s.
Proof.
  induction s as [|c s IH]; simpl; intros H; [reflexivity|].
  apply andb_true_iff in H. destruct H as [Hc Hs]. rewrite Hc, (IH Hs). reflexivity.
Qed.

Lemma uint_digits (d : Decimal.uint) :
  all_chars Py.isdigit (NilEmpty.string_of_uint d) = true.
Proof. induction d; simpl; try reflexivity; assumption. Qed.

Lemma all_chars_weaken (p q : ascii -> bool) (s : string) :
  (forall c, p c = true -> q c = true) ->
  all_chars p s = true -> all_chars q s = true.
Proof.
  intros Hpq. induction s as [|c s IH]; simpl; intros H; [reflexivity|].
  apply andb_true_iff in H. destruct H as [Hc Hs].
  rewrite (Hpq _ Hc), (IH Hs). reflexivity.
Qed.

Lemma digits_val_uint (d : Decimal.uint) :
  forall acc,
    Py.digits_val acc (NilEmpty.string_of_uint d) =
    Some (acc * 10 ^ Z.of_N (DecimalPos.Unsigned.usize d)
          + Z.of_N (DecimalPos.Unsigned.of_lu (Decimal.rev d)))%Z.
Proof.
  induction d; intros acc;
    [simpl; f_equal; lia | ..];
    simpl NilEmpty.string_of_uint; unfold Py.digits_val; fold Py.digits_val;
    (match goal with |- context [Py.isdigit ?c] =>
       change (Py.isdigit c) with true; cbv iota;
       let v := eval vm_compute in (Z.of_N (Py.cp c) - 48)%Z in
       change (Z.of_N (Py.cp c) - 48)%Z with v
     end);
    rewrite IHd; f_equal;
    unfold Decimal.rev at 2; simpl Decimal.revapp;
    rewrite DecimalPos.Unsigned.of_lu_revapp; simpl DecimalPos.Unsigned.of_lu; simpl DecimalPos.Unsigned.usize;
    rewrite N2Z.inj_succ, Z.pow_succ_r by lia;
    rewrite N2Z.inj_add, N2Z.inj_mul, N2Z.inj_pow; simpl Z.of_N; ring.
Qed.

Lemma digit_run_uint (d : Decimal.uint) :
  Py.digit_run (NilEmpty.string_of_uint d) = Decimal.nb_digits d.
Proof. induction d; simpl; try reflexivity; rewrite IHd; reflexivity. Qed.

Lemma double_length (d : Decimal.uint) :
  Decimal.nb_digits (Decimal.Little.double d) <= S (Decimal.nb_digits d) /\
  Decimal.nb_digits (Decimal.Little.succ_double d) <= S (Decimal.nb_digits d).
Proof. induction d; simpl; lia. Qed.

(** A number has at most as many decimal digits as binary ones. *)
Lemma to_uint_length (p : positive) :
  Decimal.nb_digits (Pos.to_uint p) <= Pos.size_nat p.
Proof.
  unfold Pos.to_uint. rewrite DecimalFacts.nb_digits_rev.
  induction p as [p IH|p IH|]; simpl; [| |lia].
  - pose proof (proj2 (double_length (Pos.to_little_uint p))). lia.
  - pose proof (proj1 (double_length (Pos.to_little_uint p))). lia.
Qed.

Lemma size_nat_pow (p : positive) :
  forall n, n < Pos.size_nat p -> (2 ^ Z.of_nat n <= Zpos p)%Z.
Proof.
  induction p as [p IH|p IH|]; intros n Hn; simpl in Hn.
  - destruct n as [|n]; [simpl; lia|].
    rewrite Nat2Z.inj_succ, Z.pow_succ_r by lia.
    specialize (IH n ltac:(lia)). lia.
  - destruct n as [|n]; [simpl; lia|].
    rewrite Nat2Z.inj_succ, Z.pow_succ_r by lia.
    specialize (IH n ltac:(lia)). lia.
  - assert (n = 0) by lia. subst n. simpl. lia.
Qed.

(** The text of a number of at most 64 bits stays far below the limit
    of the conversion. *)
Lemma uint_digits_within_limit (p : positive) :
  (Zpos p <= 2 ^ 63)%Z ->
  (Z.of_nat (Py.digit_run (NilEmpty.string_of_uint (Pos.to_uint p)))
   <= Py.max_str_digits)%Z.
Proof.
  intros Hp. rewrite digit_run_uint.
  pose proof (to_uint_length p) as Hlen.
  assert (Hs : Pos.size_nat p <= 64).
  { destruct (Nat.le_gt_cases (Pos.size_nat p) 64) as [H|H]; [assumption|].
    apply size_nat_pow in H. change (2 ^ Z.of_nat 64)%Z with (2 * 2 ^ 63)%Z in H.
    assert (0 < 2 ^ 63)%Z by (apply Z.pow_pos_nonneg; lia). lia. }
  unfold Py.max_str_digits. lia.
Qed.

Lemma unsigned_literal_uint (p : positive) :
  (Zpos p <= 2 ^ 63)%Z ->
  Py.unsigned_literal (NilEmpty.string_of_uint (Pos.to_uint p)) =
  Py.Parsed (Zpos p).
Proof.
  intros Hp. unfold Py.unsigned_literal.
  pose proof (uint_digits_within_limit p Hp) as Hlim.
  apply Z.ltb_ge in Hlim. rewrite Hlim.
  destruct (NilEmpty.string_of_uint (Pos.to_uint p)) as [|c s] eqn:E.
  - exfalso. apply (DecimalPos.Unsigned.to_uint_nonnil p).
    destruct (Pos.to_uint p); try discriminate E. reflexivity.
  - simpl Py.is_empty. cbv iota. rewrite <- E, digits_val_uint.
    rewrite <- DecimalPos.Unsigned.of_uint_alt, DecimalPos.Unsigned.of_to. reflexivity.
Qed.

Lemma int_literal_str_of_int (z : Z) :
  in_int64 z -> Py.int_literal (Py.str_of_int z) = Py.Parsed z.
Proof.
  unfold in_int64, int64_min, int64_max. intros Hz.
  unfold Py.str_of_int. destruct z as [|p|p]; simpl Z.to_int.
  - reflexivity.
  - simpl NilEmpty.string_of_int.
    pose proof (unsigned_literal_uint p ltac:(lia)) as H.
    pose proof (uint_digits (Pos.to_uint p)) as Hd.
    destruct (NilEmpty.string_of_uint (Pos.to_uint p)) as [|c s];
      [vm_compute in H; discriminate H|].
    simpl in Hd. apply andb_true_iff in Hd. destruct Hd as [Hc _].
    rewrite (int_literal_other _ _ (digit_not_minus _ Hc)). exact H.
  - simpl NilEmpty.string_of_int. rewrite int_literal_minus.
    rewrite unsigned_literal_uint by lia. reflexivity.
Qed.

Lemma str_of_int_chars (z : Z) :
  all_chars digit_or_minus (Py.str_of_int z) = true.
Proof.
  assert (H : forall d, all_chars digit_or_minus (NilEmpty.string_of_uint d) = true).
  { intros d. apply (all_chars_weaken Py.isdigit); [|apply uint_digits].
    intros c Hc. unfold digit_or_minus. rewrite Hc. reflexivity. }
  unfold Py.str_of_int. destruct z as [|p|p]; simpl; [reflexivity|apply H|apply H].
Qed.

(** An integer that fits 64 bits survives its own cleaning. *)
Lemma clean_cell_Int (z : Z) : in_int64 z -> clean_cell (Int z) = Ok (Int z).
Proof.
  intros Hz. unfold clean_cell, str_remove_outside. simpl str.
  rewrite (keep_all _ _ (str_of_int_chars z)).
  pose proof (int_literal_str_of_int z Hz) as Hlit.
  unfold replace_with_NA. simpl existsb.
  destruct (String.eqb_spec (Py.str_of_int z) "") as [E|_];
    [rewrite E in Hlit; discriminate|].
  destruct (String.eqb_spec (Py.str_of_int z) "-") as [E|_];
    [rewrite E in Hlit; discriminate|].
  simpl. rewrite Hlit. apply in_int64_dec in Hz. rewrite Hz. reflexivity.
Qed.

Lemma clean_cell_nullable (v : value) : nullable_int v -> clean_cell v = Ok v.
Proof.
  intros [->|(z & -> & Hz)]; [reflexivity | apply clean_cell_Int; assumption].
Qed.

(** X10.  Cleaning a column that is already clean changes nothing. *)
Theorem clean_series_idempotent (s s' : Series) :
  _clean_int_series s = Ok s' -> _clean_int_series s' = Ok s'.
Proof.
  intros H. apply clean_series_Ok_nullable in H. rename H into Hn.
  rewrite clean_series_cells.
  rewrite (mapM_Ok _ (fun lv => lv)); [rewrite map_id; reflexivity|].
  eapply Forall_impl; [|exact Hn]. intros [l v] Hv. simpl in *.
  rewrite (clean_cell_nullable _ Hv). reflexivity.
Qed.

(* ------------------------------------------------------------------ *)
(** ** When the extraction succeeds, and what it keeps *)

Lemma mapM_Raise_inv {A B : Type} (f : A -> result B) (l : list A) (e : exn) :
  mapM f l = Raise e -> exists a, In a l /\ f a = Raise e.
Proof.
  induction l as [|a l IH]; simpl; [discriminate|].
  destruct (f a) as [b|e'] eqn:E; simpl.
  - destruct (mapM f l) as [bs|e'']; simpl; [discriminate|].
    intros [= ->]. destruct (IH eq_refl) as (x & Hx & Hfx).
    exists x. split; [right|]; assumption.
  - intros [= ->]. exists a. split; [left; reflexivity | assumption].
Qed.

Lemma clean_cell_error (v : value) (e : exn) :
  clean_cell v = Raise e -> e <> header_not_found.
Proof.
  unfold clean_cell. generalize (replace_with_NA [""; "-"]
    (str_remove_outside digit_or_minus (Str (str v)))). intros x.
  unfold to_Int64, header_not_found. destruct x as [| |t|z]; try discriminate.
  - destruct (Py.int_literal t) as [z| |n].
    + destruct ((int64_min <=? z) && (z <=? int64_max))%Z; [discriminate|].
      intros [= <-]. discriminate.
    + intros [= <-]. simpl. discriminate.
    + intros [= <-]. simpl. discriminate.
  - destruct ((int64_min <=? z) && (z <=? int64_max))%Z; [discriminate|].
    intros [= <-]. discriminate.
Qed.

Lemma clean_series_error (s : Series) (e : exn) :
  _clean_int_series s = Raise e -> e <> header_not_found.
Proof.
  rewrite clean_series_cells. intros H. apply mapM_Raise_inv in H.
  destruct H as (lv & _ & H). destruct (clean_cell (snd lv)) as [v|e'] eqn:E;
    [discriminate|]. injection H as <-. eapply clean_cell_error. eassumption.
Qed.

(** X11.  [extract_sheet] raises the not-found error exactly when no cell of
    the first 60 rows matches the header pattern. *)
Theorem extract_sheet_not_found_iff (df : Sheet) :
  extract_sheet df = Raise header_not_found <->
  forall r c, scanned df 60 r -> c < shape1 df -> is_header df r c = false.
Proof.
  split.
  - intros H. rewrite extract_sheet_stages in H.
    destruct (_find_precinct_no_header df 60) as [[h c]|e] eqn:Hh.
    + exfalso. simpl bind in H. cbv zeta in H.
      destruct (_clean_int_series _) as [a|e] eqn:Ha in H.
      * simpl bind in H.
        destruct (_clean_int_series _) as [i|e] eqn:Hi in H; [discriminate|].
        injection H as ->. exact (clean_series_error _ _ Hi eq_refl).
      * injection H as ->. exact (clean_series_error _ _ Ha eq_refl).
    + injection H as ->. apply find_header_Raise in Hh. apply Hh.
  - intros H. rewrite extract_sheet_stages.
    replace (_find_precinct_no_header df 60) with (@Raise (nat * nat) header_not_found);
      [reflexivity|].
    symmetry. apply find_header_Raise. split; [reflexivity | assumption].
Qed.

Lemma counts_cleanable_in_range (df : Sheet) (h c : nat) :
  c + 6 < shape1 df ->
  counts_cleanable df h c <->
  Forall (fun row =>
            mask_keep (row_record c row) = true ->
            cleanable (nth (c + 5) row NaN) /\ cleanable (nth (c + 6) row NaN))
         (skipn (h + 1) (body df)).
Proof.
  intros Hc. unfold counts_cleanable, select.
  rewrite (built_in_range _ _ _ Hc), <- iloc_from_values.
  rewrite !Forall_forall. split.
  - intros H row Hrow Hkeep. apply in_map_iff in Hrow.
    destruct Hrow as (lr & <- & Hin).
    apply (H (fst lr, row_record c (snd lr))).
    apply filter_In. split; [|exact Hkeep].
    apply in_map_iff. exists lr. split; [reflexivity|assumption].
  - intros H lx Hin. apply filter_In in Hin. destruct Hin as [Hin Hkeep].
    apply in_map_iff in Hin. destruct Hin as (lr & <- & Hin). simpl in *.
    apply (H (snd lr)); [|assumption]. apply in_map. assumption.
Qed.

(** X12.  On a sheet with the four columns, the extraction succeeds exactly
    when every row below the header that has a number or a name has
    counts that can be converted; rows without both are discarded
    before their counts are looked at. *)
Theorem extract_sheet_succeeds_iff (df : Sheet) (h c : nat) :
  _find_precinct_no_header df 60 = Ok (h, c) ->
  c + 6 < shape1 df ->
  (exists t, extract_sheet df = Ok t) <->
  Forall (fun row =>
            mask_keep (row_record c row) = true ->
            cleanable (nth (c + 5) row NaN) /\ cleanable (nth (c + 6) row NaN))
         (skipn (h + 1) (body df)).
Proof.
  intros Hh Hc. rewrite <- (counts_cleanable_in_range df h c Hc). split.
  - intros [t Ht]. apply extract_sheet_Ok_inv in Ht.
    destruct Ht as (h' & c' & Hh' & Hclean & _).
    rewrite Hh in Hh'. injection Hh' as <- <-. assumption.
  - intros Hclean. eexists. apply (extract_sheet_Ok df h c Hh Hclean).
Qed.

Lemma seq_sorted (n : nat) : forall a, StronglySorted lt (seq a n).
Proof.
  induction n as [|n IH]; intros a; simpl; constructor; [apply IH|].
  apply Forall_forall. intros x Hx. apply in_seq in Hx. lia.
Qed.

Lemma filter_sorted_labels {A : Type} (p : nat * A -> bool) (l : list (nat * A)) :
  StronglySorted lt (map fst l) -> StronglySorted lt (map fst (filter p l)).
Proof.
  induction l as [|x l IH]; simpl; intros H; [constructor|].
  apply StronglySorted_inv in H. destruct H as [Hs Hx].
  destruct (p x); simpl; [|apply IH; assumption].
  constructor; [apply IH; assumption|].
  rewrite Forall_forall in *. intros y Hy. apply Hx.
  apply in_map_iff in Hy. destruct Hy as (z & <- & Hz).
  apply filter_In in Hz. apply in_map. apply Hz.
Qed.

(** X13.  On a sheet with the four columns the records follow the rows: each
    comes from a row below the header, and they appear in the order of
    their rows, at most one per row. *)
Theorem extract_sheet_row_order (df : Sheet) (h c : nat) (t : Table) :
  _find_precinct_no_header df 60 = Ok (h, c) ->
  c + 6 < shape1 df ->
  extract_sheet df = Ok t ->
  exists rows : list nat,
    StronglySorted lt rows /\
    Forall (fun r => h < r < len df) rows /\
    records t =
      map (fun r => clean_record (row_record c (nth r (body df) []))) rows.
Proof.
  intros Hh Hc Ht. apply extract_sheet_Ok_inv in Ht.
  destruct Ht as (h' & c' & Hh' & _ & ->).
  rewrite Hh in Hh'. injection Hh' as <- <-. simpl records.
  unfold sheet_records, select. rewrite (built_in_range _ _ _ Hc).
  set (data := iloc_from (h + 1) df).
  set (G := fun lr : nat * list value => clean_record (row_record c (snd lr))).
  set (kept :=
         filter (fun lr => negb (totally_empty (G lr)))
                (filter (fun lr => mask_keep (row_record c (snd lr))) data)).
  assert (E : filter (fun r => negb (totally_empty r))
                (map clean_record
                   (map snd
                      (filter (fun lr : nat * record => mask_keep (snd lr))
                         (map (fun lr => (fst lr, row_record c (snd lr))) data))))
              = map G kept).
  { rewrite (filter_map_swap (fun lr : nat * record => mask_keep (snd lr))
                               (fun lr : nat * list value =>
                                  (fst lr, row_record c (snd lr)))).
    rewrite !map_map. simpl. unfold kept, G.
    apply (filter_map_swap
             (fun r => negb (totally_empty r))
             (fun lr : nat * list value => clean_record (row_record c (snd lr)))). }
  rewrite E.
  assert (Hsub : forall lr, In lr kept -> In lr data).
  { intros lr Hin. unfold kept in Hin.
    apply filter_In in Hin. destruct Hin as [Hin _].
    apply filter_In in Hin. apply Hin. }
  exists (map fst kept). split; [|split].
  - unfold kept. do 2 apply filter_sorted_labels.
    unfold data. rewrite iloc_from_index. apply seq_sorted.
  - rewrite Forall_map. apply Forall_forall. intros lr Hin.
    apply Hsub, iloc_from_In_inv in Hin. lia.
  - rewrite map_map. apply map_ext_in. intros lr Hin. unfold G.
    apply Hsub, iloc_from_In_inv in Hin. destruct Hin as [_ <-]. reflexivity.
Qed.

(** X14.  What stands above the header does not matter: two sheets of the
    same width whose header is found at the same place and whose rows
    below it agree give the same result. *)
Theorem extract_sheet_rows_below_only (df1 df2 : Sheet) (h c : nat) :
  shape1 df1 = shape1 df2 ->
  _find_precinct_no_header df1 60 = Ok (h, c) ->
  _find_precinct_no_header df2 60 = Ok (h, c) ->
  skipn (h + 1) (body df1) = skipn (h + 1) (body df2) ->
  extract_sheet df1 = extract_sheet df2.
Proof.
  intros Hw H1 H2 Hrows.
  assert (Hlen : len df1 = len df2).
  { pose proof (proj1 (find_header_Ok _ _ _ _) H1) as (Hr1 & _).
    pose proof (proj1 (find_header_Ok _ _ _ _) H2) as (Hr2 & _).
    unfold scanned in *. apply (f_equal (@length _)) in Hrows.
    rewrite !length_skipn in Hrows. unfold len in *. lia. }
  assert (Hdata : iloc_from (h + 1) df1 = iloc_from (h + 1) df2).
  { rewrite !iloc_from_rows, Hlen, Hrows. reflexivity. }
  rewrite !extract_sheet_stages, H1, H2. simpl bind. cbv zeta.
  unfold built, safe_col. rewrite Hdata, Hw. reflexivity.
Qed.

Lemma strip_no_ends (s : string) :
  starts_ws (Py.strip s) = false /\ ends_ws (Py.strip s) = false.
Proof.
  unfold Py.strip. split.
  - apply rstrip_no_leading, lstrip_no_leading.
  - apply rstrip_no_trailing.
Qed.

(** X15.  On a sheet that has the four columns every emitted record is well
    formed: it has a non-empty number or a name, its number is
    normalised text, and its name is either missing or text without
    leading or trailing whitespace. *)
Theorem in_range_records_well_formed (df : Sheet) (h c : nat) (t : Table) :
  _find_precinct_no_header df 60 = Ok (h, c) ->
  c + 6 < shape1 df ->
  extract_sheet df = Ok t ->
  Forall (fun x =>
            has_number_or_name x /\
            (exists s, precinct_no x = Str s /\ normalised s = true) /\
            (isna (precinct_name x) = true \/
             exists n, precinct_name x = Str n /\
                       starts_ws n = false /\ ends_ws n = false))
         (records t).
Proof.
  intros Hh Hc Ht.
  pose proof (in_range_invariant df h c t Hh Hc Ht) as Hinv.
  apply extract_sheet_Ok_inv in Ht. destruct Ht as (h' & c' & Hh' & Hclean & ->).
  rewrite Hh in Hh'. injection Hh' as <- <-. simpl records in *.
  rewrite Forall_forall in *. intros x Hin. split; [apply Hinv; assumption|].
  destruct (in_range_record_source df h c Hc Hclean x Hin)
    as (r & _ & Hp & Hn & _).
  split.
  - eexists. split; [exact Hp | apply norm_cell_normalised].
  - rewrite Hn. unfold name_cell.
    destruct (isna (iat df r (c + 1))) eqn:E; simpl; [left; assumption|].
    right. eexists. split; [reflexivity | apply strip_no_ends].
Qed.

Lemma at_label_absent (s : Series) (l : nat) :
  ~ In l (index s) -> at_label s l = NaN.
Proof. intros H. unfold at_label. rewrite loc_absent by assumption. reflexivity. Qed.

Lemma index_Series_map (g : value -> value) (s : Series) :
  index (Series_map g s) = index s.
Proof. unfold index, Series_map. rewrite map_map. reflexivity. Qed.

Lemma safe_col_at_zero (df : Sheet) (h idx : nat) :
  isna (at_label (safe_col df (iloc_from (h + 1) df) idx) 0) = true.
Proof.
  unfold safe_col. destruct (Nat.ltb_spec idx (shape1 df)).
  - rewrite at_label_absent; [reflexivity|].
    unfold iloc_col, index. rewrite map_map. simpl.
    change (~ In 0 (map fst (iloc_from (h + 1) df))).
    rewrite iloc_from_index, in_seq. lia.
  - apply at_label_fallback.
Qed.

(** X16.  When the column at +6 is absent and at least one row follows the
    header, a successful extraction emits a record that no row of the
    sheet backs: its number is the missing value, its name is missing
    and its counts are missing. *)
Theorem narrow_sheet_emits_empty_record (df : Sheet) (h c : nat) (t : Table) :
  _find_precinct_no_header df 60 = Ok (h, c) ->
  h + 1 < len df ->
  shape1 df <= c + 6 ->
  extract_sheet df = Ok t ->
  exists x,
    In x (records t) /\
    precinct_no x = NaN /\ isna (precinct_name x) = true /\
    active x = NA /\ inactive x = NA.
Proof.
  intros Hh Hrows Hshort Ht.
  apply extract_sheet_Ok_inv in Ht. destruct Ht as (h' & c' & Hh' & _ & ->).
  rewrite Hh in Hh'. injection Hh' as <- <-. simpl records.
  set (data := iloc_from (h + 1) df).
  set (x0 := {| precinct_no :=
                  at_label (Series_map (fun x => Str (_norm_cell x))
                                       (safe_col df data c)) 0;
                precinct_name :=
                  at_label (Series_map name_cell (safe_col df data (c + 1))) 0;
                active := at_label (safe_col df data (c + 5)) 0;
                inactive := at_label (safe_col df data (c + 6)) 0 |}).
  assert (Hin : In (0, x0) (built df h c)).
  { unfold built, DataFrame_of_dict. cbv zeta. apply in_map_iff.
    exists 0. split; [reflexivity|].
    unfold union_indexes. simpl fold_left. rewrite In_union. right.
    unfold safe_col. destruct (Nat.ltb_spec (c + 6) (shape1 df)); [lia|].
    rewrite fallback_index. apply in_seq.
    rewrite length_iloc_from. lia. }
  assert (Hp : precinct_no x0 = NaN).
  { pose proof (proj1 (find_header_Ok df 60 h c) Hh) as (_ & Hc & _).
    simpl. apply at_label_absent. rewrite index_Series_map.
    unfold safe_col. destruct (Nat.ltb_spec c (shape1 df)); [|lia].
    unfold iloc_col, index. rewrite map_map. simpl.
    change (~ In 0 (map fst data)). unfold data.
    rewrite iloc_from_index, in_seq. lia. }
  assert (Hn : isna (precinct_name x0) = true).
  { simpl. unfold safe_col. destruct (Nat.ltb_spec (c + 1) (shape1 df)).
    - rewrite at_label_absent; [reflexivity|]. rewrite index_Series_map.
      unfold iloc_col, index. rewrite map_map. simpl.
      change (~ In 0 (map fst data)). unfold data.
      rewrite iloc_from_index, in_seq. lia.
    - apply at_label_map_fallback. reflexivity. }
  exists (clean_record x0). split; [|split; [exact Hp|split; [exact Hn|]]].
  - apply (kept_row_emitted df h c 0 x0 Hin).
    + unfold mask_keep. rewrite Hp. reflexivity.
    + unfold totally_empty.
      change (precinct_no (clean_record x0)) with (precinct_no x0).
      rewrite Hp. reflexivity.
  - split; [change (cleaned (active x0) = NA) | change (cleaned (inactive x0) = NA)];
      apply cleaned_missing; apply safe_col_at_zero.
Qed.

(* ------------------------------------------------------------------ *)
(** ** The table of a workbook *)

Lemma extract_all_sheets_table (xls : ExcelFile) :
  fst (extract_all_sheets xls) =
  {| columns := out_columns;
     records := flat_map (sheet_rows xls) (sheet_names xls) |}.
Proof.
  pose proof (extract_all_sheets_shape xls) as [Hc _].
  pose proof (extract_all_sheets_records xls) as Hr.
  destruct (fst (extract_all_sheets xls)) as [cols recs]. simpl in *.
  rewrite Hc, Hr. reflexivity.
Qed.

(** X17.  The row counts printed for the sheets add up to the number of
    records returned. *)
Theorem progress_lines_account_for_records (xls : ExcelFile) :
  list_sum (map announced (snd (extract_all_sheets xls))) =
  length (records (fst (extract_all_sheets xls))).
Proof.
  rewrite extract_all_sheets_records, extract_all_sheets_unfold. simpl snd.
  induction (sheet_names xls) as [|sheet names IH]; simpl; [reflexivity|].
  rewrite length_app, IH. f_equal.
  unfold sheet_line, sheet_rows. destruct (sheet_result xls sheet) as [t|e];
    [|reflexivity].
  destruct (empty t) eqn:E; simpl; [|reflexivity].
  rewrite (empty_records _ E). reflexivity.
Qed.

(** Reading the sheets of two lists one after the other gives the
    records of the first list followed by those of the second. *)
Theorem extract_all_sheets_app (names1 names2 : list string)
        (read : string -> result Sheet) :
  records (fst (extract_all_sheets (mkExcelFile (names1 ++ names2) read))) =
  records (fst (extract_all_sheets (mkExcelFile names1 read)))
  ++ records (fst (extract_all_sheets (mkExcelFile names2 read))).
Proof.
  rewrite !extract_all_sheets_records. simpl sheet_names.
  rewrite flat_map_app. reflexivity.
Qed.

(** X18.  A sheet that raises or yields no record leaves the table as if the
    workbook did not contain it. *)
Theorem failing_sheet_leaves_no_trace (before after : list string)
        (sheet : string) (read : string -> result Sheet) :
  sheet_rows (mkExcelFile (before ++ sheet :: after) read) sheet = [] ->
  fst (extract_all_sheets (mkExcelFile (before ++ sheet :: after) read)) =
  fst (extract_all_sheets (mkExcelFile (before ++ after) read)).
Proof.
  intros H. rewrite !extract_all_sheets_table. simpl sheet_names.
  rewrite !flat_map_app. simpl flat_map. rewrite H. reflexivity.
Qed.

(** X19.  The table a workbook yields: the four named columns in order, the
    records of the sheets in sheet order, and counts that are missing
    or integers of 64 bits. *)
Theorem workbook_table_shape (xls : ExcelFile) :
  fst (extract_all_sheets xls) =
    {| columns := out_columns;
       records := flat_map (sheet_rows xls) (sheet_names xls) |} /\
  Forall (fun x => nullable_int (active x) /\ nullable_int (inactive x))
         (records (fst (extract_all_sheets xls))).
Proof.
  split; [apply extract_all_sheets_table | apply extract_all_sheets_shape].
Qed.

(* ------------------------------------------------------------------ *)
(** ** The properties of the converter at concrete inputs *)

Lemma find_header_in_bounds_witness :
  2 < len example_sheet /\ (Z.of_nat 2 < 60)%Z /\ 2 < shape1 example_sheet /\
  is_header example_sheet 2 2 = true.
Proof. apply (find_header_in_bounds example_sheet 60 2 2). vm_compute. reflexivity. Defined.

Lemma find_header_nothing_to_scan_witness :
  _find_precinct_no_header example_sheet 0 = Raise header_not_found.
Proof. apply (find_header_nothing_to_scan example_sheet 0). right. right. lia. Defined.

Lemma find_header_monotone_witness :
  _find_precinct_no_header example_sheet 100 = Ok (2, 2).
Proof.
  apply (find_header_monotone example_sheet 60 100 (2, 2)).
  - vm_compute. reflexivity.
  - lia.
Defined.

Lemma find_header_ignores_rows_beyond_witness :
  _find_precinct_no_header
    (mkSheet 9 ([blank_row; blank_row] ++ [example_header_row; example_data_row])) 2 =
  _find_precinct_no_header (mkSheet 9 ([blank_row; blank_row] ++ [])) 2.
Proof. apply find_header_ignores_rows_beyond. simpl. lia. Defined.

Lemma clean_series_keeps_index_witness :
  index (Series_of_list [Int 1234; NA; NA]) = index mixed_counts /\
  Forall (fun lv => nullable_int (snd lv)) (Series_of_list [Int 1234; NA; NA]) /\
  Series_of_list [Int 1234; NA; NA] =
    map (fun lv => (fst lv, cleaned (snd lv))) mixed_counts.
Proof. apply clean_series_keeps_index. vm_compute. reflexivity. Defined.

Lemma clean_series_first_failure_witness :
  _clean_int_series ([(0, Str "12")] ++ (1, Str "12-3") :: [(2, NaN)]) =
  Raise (ValueError "invalid literal for int() with base 10: '12-3'").
Proof.
  apply (clean_series_first_failure [(0, Str "12")] [(2, NaN)] 1 (Str "12-3")).
  - constructor; [|constructor]. exists (Int 12). vm_compute. reflexivity.
  - vm_compute. reflexivity.
Defined.

Lemma clean_ignores_separators_witness :
  clean_cell (Str ("1" ++ "," ++ "234")) = clean_cell (Str ("1" ++ "234")).
Proof. apply clean_ignores_separators. reflexivity. Defined.

Lemma clean_series_idempotent_witness :
  _clean_int_series (Series_of_list [Int 1234; NA; NA]) =
  Ok (Series_of_list [Int 1234; NA; NA]).
Proof. apply (clean_series_idempotent mixed_counts). vm_compute. reflexivity. Defined.

Lemma extract_sheet_succeeds_iff_witness :
  (exists t, extract_sheet example_sheet = Ok t) <->
  Forall (fun row =>
            mask_keep (row_record 2 row) = true ->
            cleanable (nth (2 + 5) row NaN) /\ cleanable (nth (2 + 6) row NaN))
         (skipn (2 + 1) (body example_sheet)).
Proof.
  apply (extract_sheet_succeeds_iff example_sheet 2 2).
  - vm_compute. reflexivity.
  - simpl. lia.
Defined.

Lemma extract_sheet_row_order_witness :
  exists rows : list nat,
    StronglySorted lt rows /\
    Forall (fun r => 0 < r < len full_sheet) rows /\
    records full_sheet_table =
      map (fun r => clean_record (row_record 0 (nth r (body full_sheet) []))) rows.
Proof.
  apply (extract_sheet_row_order full_sheet 0 0 full_sheet_table).
  - vm_compute. reflexivity.
  - simpl. lia.
  - vm_compute. reflexivity.
Defined.

Lemma extract_sheet_rows_below_only_witness :
  extract_sheet example_sheet = extract_sheet titled_sheet.
Proof.
  apply (extract_sheet_rows_below_only example_sheet titled_sheet 2 2).
  - reflexivity.
  - vm_compute. reflexivity.
  - vm_compute. reflexivity.
  - reflexivity.
Defined.

Lemma in_range_records_well_formed_witness :
  Forall (fun x =>
            has_number_or_name x /\
            (exists s, precinct_no x = Str s /\ normalised s = true) /\
            (isna (precinct_name x) = true \/
             exists n, precinct_name x = Str n /\
                       starts_ws n = false /\ ends_ws n = false))
         (records full_sheet_table).
Proof.
  apply (in_range_records_well_formed full_sheet 0 0 full_sheet_table).
  - vm_compute. reflexivity.
  - simpl. lia.
  - vm_compute. reflexivity.
Defined.

Lemma narrow_sheet_emits_empty_record_witness :
  exists x,
    In x [phantom; downtown_no_counts] /\
    precinct_no x = NaN /\ isna (precinct_name x) = true /\
    active x = NA /\ inactive x = NA.
Proof.
  apply (narrow_sheet_emits_empty_record short_sheet 0 0
           {| columns := out_columns; records := [phantom; downtown_no_counts] |}).
  - vm_compute. reflexivity.
  - unfold len. simpl. lia.
  - simpl. lia.
  - vm_compute. reflexivity.
Defined.

Lemma failing_sheet_leaves_no_trace_witness :
  fst (extract_all_sheets
         (mkExcelFile (["North"] ++ "Cover" :: ["South"]) (read_excel mixed_workbook))) =
  fst (extract_all_sheets
         (mkExcelFile (["North"] ++ ["South"]) (read_excel mixed_workbook))).
Proof. apply failing_sheet_leaves_no_trace. vm_compute. reflexivity. Defined.

(* ------------------------------------------------------------------ *)
(** ** The scraper: requests, the list of elections, file names *)

Import Web.

Lemma request_loop_bounds (checked : bool) (srv : server) (url : string)
      (attempts : list nat) :
  forall (r : option Response) (w w' : world) (o : outcome Response),
    request_loop checked srv url attempts r w = (o, w') ->
    requests w <= requests w' <= requests w + length attempts /\
    (attempts <> [] -> requests w < requests w') /\
    (forall resp,
        o = Returns resp ->
        ((status_code resp < (if checked then 400 else 500))%Z \/
         (600 <= status_code resp)%Z) /\
        (r = Some resp /\ attempts = [] \/
         srv (requests w' - 1) url = Answer resp /\ requests w < requests w')).
Proof.
  induction attempts as [|attempt attempts IH]; intros r w w' o H; simpl in H.
  - destruct r as [r|].
    + unfold raise_for_status in H.
      destruct ((400 <=? status_code r) && (status_code r <? 600))%Z eqn:E;
        injection H as <- <-; simpl; (split; [lia|]); (split; [congruence|]);
        intros resp Hresp; [discriminate|]. injection Hresp as <-.
      split; [|left; split; reflexivity].
      apply andb_false_iff in E. destruct checked; lia.
    + injection H as <- <-. simpl. split; [lia|]. split; [congruence|].
      intros resp Hresp. discriminate.
  - destruct (srv (requests w) url) as [r0|msg] eqn:Es.
    + destruct (500 <=? status_code r0)%Z eqn:E5.
      * apply IH in H. simpl in H. destruct H as (Hb & _ & Hret).
        split; [simpl; lia|]. split; [intros _; lia|].
        intros resp Hresp.
        destruct (Hret resp Hresp) as [Hst [[[= <-] ->]|[Hs Hlt]]].
        -- split; [assumption|]. right. simpl in Hb.
           replace (requests w' - 1) with (requests w) by lia.
           split; [assumption|lia].
        -- split; [assumption|]. right. split; [assumption|lia].
      * apply Z.leb_gt in E5.
        assert (Hfin : forall resp, Returns r0 = Returns resp ->
                  srv (S (requests w) - 1) url = Answer resp /\
                  requests w < S (requests w)).
        { intros resp [= <-]. simpl. rewrite Nat.sub_0_r. split; [exact Es|lia]. }
        destruct checked.
        -- unfold raise_for_status in H.
           destruct ((400 <=? status_code r0) && (status_code r0 <? 600))%Z eqn:E;
             injection H as <- <-; simpl; (split; [lia|]);
             (split; [intros _; lia|]); intros resp Hresp; [discriminate|].
           split; [|right; apply Hfin; assumption].
           injection Hresp as <-. apply andb_false_iff in E. lia.
        -- injection H as <- <-. simpl. split; [lia|]. split; [intros _; lia|].
           intros resp Hresp. split; [|right; apply Hfin; assumption].
           injection Hresp as <-. lia.
    + injection H as <- <-. simpl. split; [lia|]. split; [intros _; lia|].
      intros resp Hresp. discriminate.
Qed.

Lemma request_loop_retry (checked : bool) (srv : server) (url : string)
      (attempts : list nat) :
  forall (r0 : option Response) (w : world) (k : nat) (resp : Response),
    k < length attempts ->
    busy srv url (requests w) k ->
    srv (requests w + k) url = Answer resp ->
    (status_code resp < 500)%Z ->
    request_loop checked srv url attempts r0 w =
    ((if checked
      then match raise_for_status resp with
           | Raises e => Raises e
           | Returns _ => Returns resp
           end
      else Returns resp),
     {| requests := requests w + k + 1;
        slept := slept w ++ map (fun a => a + 1) (firstn k attempts) |}).
Proof.
  induction attempts as [|attempt attempts IH]; intros r0 w k resp Hk Hbusy Hs Hst;
    simpl in Hk; [lia|].
  destruct k as [|k].
  - simpl. rewrite Nat.add_0_r in Hs. rewrite Hs.
    apply Z.ltb_lt in Hst. rewrite Z.ltb_antisym in Hst.
    apply negb_true_iff in Hst. rewrite Hst.
    rewrite app_nil_r. unfold sent.
    replace (requests w + 0 + 1) with (S (requests w)) by lia.
    destruct checked; [destruct (raise_for_status resp)|]; reflexivity.
  - destruct (Hbusy 0 ltac:(lia)) as (r & Hr & Hr5).
    rewrite Nat.add_0_r in Hr. simpl. rewrite Hr.
    apply Z.leb_le in Hr5. rewrite Hr5.
    rewrite (IH (Some r) (sleep (attempt + 1) (sent w)) k resp).
    + simpl. rewrite <- app_assoc. simpl.
      replace (S (requests w + k + 1)) with (requests w + S k + 1) by lia.
      reflexivity.
    + lia.
    + intros i Hi. destruct (Hbusy (S i) ltac:(lia)) as (ri & Hri & Hri5).
      exists ri. simpl. rewrite <- Hri. split; [f_equal; lia | assumption].
    + simpl. rewrite <- Hs. f_equal. lia.
    + assumption.
Qed.

Lemma request_loop_exhausted (checked : bool) (srv : server) (url : string)
      (attempts : list nat) :
  forall (r0 : option Response) (w : world),
    busy srv url (requests w) (length attempts) ->
    attempts <> [] ->
    exists last,
      srv (requests w + length attempts - 1) url = Answer last /\
      request_loop checked srv url attempts r0 w =
      (match raise_for_status last with
       | Raises e => Raises e
       | Returns _ => Returns last
       end,
       {| requests := requests w + length attempts;
          slept := slept w ++ map (fun a => a + 1) attempts |}).
Proof.
  induction attempts as [|attempt attempts IH]; intros r0 w Hbusy Hne;
    [congruence|].
  destruct (Hbusy 0 ltac:(simpl; lia)) as (r & Hr & Hr5).
  rewrite Nat.add_0_r in Hr. simpl request_loop. rewrite Hr.
  apply Z.leb_le in Hr5. rewrite Hr5.
  destruct attempts as [|a2 attempts'].
  - exists r. simpl. replace (requests w + 1 - 1) with (requests w) by lia.
    split; [assumption|].
    replace (requests w + 1) with (S (requests w)) by lia.
    destruct (raise_for_status r); reflexivity.
  - destruct (IH (Some r) (sleep (attempt + 1) (sent w))) as (last & Hl & Heq).
    + intros i Hi. destruct (Hbusy (S i) ltac:(simpl in *; lia)) as (ri & Hri & Hri5).
      exists ri. simpl requests. rewrite <- Hri. split; [f_equal; lia | assumption].
    + discriminate.
    + exists last. split.
      * rewrite <- Hl. f_equal. simpl. lia.
      * rewrite Heq. simpl requests. simpl slept. rewrite <- app_assoc. simpl.
        replace (S (requests w + S (length attempts')))
          with (requests w + S (S (length attempts'))) by lia.
        reflexivity.
Qed.

Lemma seq_shift_firstn (k : nat) :
  k <= 5 -> map (fun a => a + 1) (firstn k (seq 0 5)) = seq 1 k.
Proof. destruct k as [|[|[|[|[|[|k]]]]]]; intros H; try reflexivity; lia. Qed.

(** X20.  After [k < 5] answers of status 500 or more, an answer below 500 is
    returned by [get] of [data_collection.py] after [k] pauses of
    growing length, whatever its status; [get] of
    [get_precinct_election_results.py] returns it only when its status
    is below 400 and raises HTTPError otherwise. *)
Theorem get_retries_until_answer (srv : server) (url : string) (w : world)
        (k : nat) (resp : Response) :
  k < 5 ->
  busy srv url (requests w) k ->
  srv (requests w + k) url = Answer resp ->
  (status_code resp < 500)%Z ->
  let w' := {| requests := requests w + k + 1; slept := slept w ++ seq 1 k |} in
  DataCollection.get srv url w = (Returns resp, w') /\
  PrecinctResults.get srv url w =
    (if (status_code resp <? 400)%Z then Returns resp
     else Raises (HTTPError (status_code resp)), w').
Proof.
  intros Hk Hbusy Hs Hst w'. unfold DataCollection.get, PrecinctResults.get.
  rewrite !(request_loop_retry _ srv url (seq 0 5) None w k resp)
    by (try assumption; simpl; lia).
  rewrite seq_shift_firstn by lia. split; [reflexivity|].
  unfold raise_for_status.
  destruct (status_code resp <? 400)%Z eqn:E.
  - apply Z.ltb_lt in E.
    replace (400 <=? status_code resp)%Z with false by (symmetry; apply Z.leb_gt; lia).
    reflexivity.
  - apply Z.ltb_ge in E.
    replace (400 <=? status_code resp)%Z with true by (symmetry; apply Z.leb_le; lia).
    replace (status_code resp <? 600)%Z with true by (symmetry; apply Z.ltb_lt; lia).
    reflexivity.
Qed.

(** X21.  When the first five answers all carry a status of 500 or more, both
    [get] functions stop after the fifth, having paused five times, the
    last time after the final answer; they raise HTTPError for a status
    below 600 and return the answer otherwise. *)
Theorem get_gives_up_after_five (srv : server) (url : string) (w : world) :
  busy srv url (requests w) 5 ->
  exists last,
    srv (requests w + 4) url = Answer last /\
    let o := if (status_code last <? 600)%Z
             then Raises (HTTPError (status_code last))
             else Returns last in
    let w' := {| requests := requests w + 5; slept := slept w ++ [1; 2; 3; 4; 5] |} in
    DataCollection.get srv url w = (o, w') /\
    PrecinctResults.get srv url w = (o, w').
Proof.
  intros Hbusy.
  destruct (Hbusy 4 ltac:(lia)) as (last & Hlast & H5).
  exists last. split; [assumption|]. cbv zeta.
  unfold DataCollection.get, PrecinctResults.get.
  destruct (request_loop_exhausted false srv url (seq 0 5) None w Hbusy
              ltac:(discriminate)) as (l1 & Hl1 & E1).
  destruct (request_loop_exhausted true srv url (seq 0 5) None w Hbusy
              ltac:(discriminate)) as (l2 & Hl2 & E2).
  simpl length in *. replace (requests w + 5 - 1) with (requests w + 4) in * by lia.
  rewrite Hlast in Hl1, Hl2. injection Hl1 as <-. injection Hl2 as <-.
  rewrite E1, E2. simpl map. unfold raise_for_status.
  replace (400 <=? status_code last)%Z with true by (symmetry; apply Z.leb_le; lia).
  simpl andb. destruct (status_code last <? 600)%Z; split; reflexivity.
Qed.

(* ---- the list of similar elections ---- *)

Lemma span_digits_digits (s : string) :
  all_chars Py.isdigit (fst (span_digits s)) = true.
Proof.
  induction s as [|c s IH]; simpl; [reflexivity|].
  destruct (Py.isdigit c) eqn:E; [|reflexivity].
  destruct (span_digits s) as [d rest]. simpl in *. rewrite E. assumption.
Qed.

Lemma match_view_numeral (s d : string) (n : nat) :
  match_view s = Some (d, n) -> numeral d.
Proof.
  unfold match_view. destruct (after_prefix _ s) as [s1|]; [|discriminate].
  pose proof (span_digits_digits s1) as Hd.
  destruct (span_digits s1) as [d' s2]. simpl in Hd.
  destruct d' as [|c d']; [discriminate|].
  destruct s2 as [|c2 s2]; [discriminate|].
  destruct (Ascii.eqb_spec c2 "/") as [->|Hne].
  - intros [= <- _]. split; [discriminate | assumption].
  - destruct c2 as [[] [] [] [] [] [] [] []]; try discriminate.
    exfalso. apply Hne. reflexivity.
Qed.

Lemma findall_view_numerals (s : string) :
  forall skip, Forall numeral (findall_view skip s).
Proof.
  induction s as [|c s IH]; intros skip; simpl; [constructor|].
  destruct skip as [|k]; [|apply IH].
  destruct (match_view (String c s)) as [[d n]|] eqn:E; [|apply IH].
  constructor; [eapply match_view_numeral; eassumption | apply IH].
Qed.

Lemma digits_no_minus (d : string) :
  all_chars Py.isdigit d = true ->
  all_chars digit_or_minus d = true /\ has_minus d = false.
Proof.
  induction d as [|c d IH]; simpl; intros H; [split; reflexivity|].
  apply andb_true_iff in H. destruct H as [Hc Hd].
  destruct (IH Hd) as [H1 H2]. unfold digit_or_minus at 1.
  rewrite Hc, H1, H2, (digit_not_minus _ Hc). split; reflexivity.
Qed.

Lemma digit_run_digits (d : string) :
  all_chars Py.isdigit d = true -> Py.digit_run d = String.length d.
Proof.
  induction d as [|c d IH]; simpl; intros H; [reflexivity|].
  apply andb_true_iff in H. destruct H as [Hc Hd]. rewrite Hc, (IH Hd).
  reflexivity.
Qed.

Lemma int_literal_numeral (d : string) :
  numeral d -> within_digit_limit d -> exists z, Py.int_literal d = Py.Parsed z.
Proof.
  intros [Hne Hd] Hlim. destruct (digits_no_minus _ Hd) as [H1 H2].
  apply int_literal_defined; try assumption.
  - intros E. rewrite E in Hd. discriminate.
  - destruct d as [|c d]; [reflexivity|]. simpl in H2 |- *.
    apply orb_false_iff in H2. tauto.
  - unfold within_digit_limit in Hlim. rewrite <- (digit_run_digits _ Hd) in Hlim.
    destruct d as [|c d]; [simpl; unfold Py.max_str_digits; lia|].
    unfold leading_digits. simpl in H2. apply orb_false_iff in H2.
    destruct H2 as [-> _]. assumption.
Qed.

Lemma int_literal_numeral_long (d : string) :
  numeral d -> ~ within_digit_limit d ->
  Py.int_literal d = Py.TooLong (String.length d).
Proof.
  intros [Hne Hd] Hlim. destruct (digits_no_minus _ Hd) as [_ H2].
  rewrite <- (digit_run_digits _ Hd).
  destruct d as [|c d]; [congruence|]. simpl in H2. apply orb_false_iff in H2.
  destruct H2 as [Hc _].
  replace (Py.digit_run (String c d)) with (leading_digits (String c d))
    by (unfold leading_digits; rewrite Hc; reflexivity).
  apply int_literal_too_long.
  unfold leading_digits. rewrite Hc. rewrite (digit_run_digits _ Hd).
  unfold within_digit_limit in Hlim. lia.
Qed.

Lemma ints_numerals (xs : list string) :
  Forall numeral xs -> Forall within_digit_limit xs ->
  exists zs, ints xs = Returns zs /\ length zs = length xs.
Proof.
  induction 1 as [|x xs Hx _ IH]; intros Hlim; simpl.
  - exists []. split; reflexivity.
  - inversion Hlim as [|? ? Hxl Hxsl]; subst.
    destruct (IH Hxsl) as (zs & Hzs & Hlen).
    destruct (int_literal_numeral _ Hx Hxl) as [z Hz]. rewrite Hz, Hzs.
    exists (z :: zs). split; [reflexivity | simpl; congruence].
Qed.

Lemma ints_numerals_long (xs : list string) :
  Forall numeral xs -> Exists (fun d => ~ within_digit_limit d) xs ->
  exists msg, ints xs = Raises (ValueError msg).
Proof.
  induction 1 as [|x xs Hx _ IH]; intros Hlong; simpl;
    [inversion Hlong|].
  assert (Hdec : within_digit_limit x \/ ~ within_digit_limit x)
    by (unfold within_digit_limit; lia).
  destruct Hdec as [Hxl|Hxl].
  - destruct (int_literal_numeral _ Hx Hxl) as [z ->].
    inversion Hlong as [? ? Hbad|? ? Htail]; subst; [contradiction|].
    destruct (IH Htail) as [msg ->]. exists msg. reflexivity.
  - rewrite (int_literal_numeral_long _ Hx Hxl). eexists; reflexivity.
Qed.

Lemma mem_In (x : Z) (l : list Z) : mem x l = true <-> In x l.
Proof.
  unfold mem. rewrite existsb_exists. split.
  - intros (y & Hy & E). apply Z.eqb_eq in E. subst. assumption.
  - intros H. exists x. split; [assumption | apply Z.eqb_refl].
Qed.

Lemma dedup_loop_spec (ids : list Z) :
  forall seen ordered,
    (forall x, In x seen <-> In x ordered) ->
    NoDup ordered ->
    NoDup (dedup_loop ids seen ordered) /\
    (forall x, In x (dedup_loop ids seen ordered) <-> In x ordered \/ In x ids) /\
    exists tail, dedup_loop ids seen ordered = ordered ++ tail.
Proof.
  induction ids as [|y ids IH]; intros seen ordered Hsame Hnd; simpl.
  - split; [assumption|]. split; [tauto|]. exists []. symmetry. apply app_nil_r.
  - destruct (mem y seen) eqn:E; simpl.
    + apply mem_In in E.
      destruct (IH seen ordered Hsame Hnd) as (H1 & H2 & H3).
      split; [assumption|]. split; [|assumption].
      intros x. rewrite H2. apply Hsame in E. intuition (subst; auto).
    + assert (Hy : ~ In y ordered).
      { intros H. apply Hsame, mem_In in H. congruence. }
      destruct (IH (y :: seen) (ordered ++ [y])) as (H1 & H2 & (tail & H3)).
      * intros x. simpl. rewrite in_app_iff, Hsame. simpl. tauto.
      * apply NoDup_app; [assumption | repeat constructor; auto |].
        intros a Ha [<-|[]]. contradiction.
      * split; [assumption|]. split.
        -- intros x. rewrite H2, in_app_iff. simpl. tauto.
        -- exists (y :: tail). rewrite H3, <- app_assoc. reflexivity.
Qed.

Lemma dedup_spec (ids : list Z) :
  NoDup (dedup_loop ids [] []) /\
  (forall x, In x (dedup_loop ids [] []) <-> In x ids) /\
  hd_error (dedup_loop ids [] []) = hd_error ids.
Proof.
  destruct (dedup_loop_spec ids [] []) as (H1 & H2 & _);
    [tauto | constructor |].
  split; [assumption|]. split; [intros x; rewrite H2; simpl; tauto|].
  destruct ids as [|y ids]; [reflexivity|]. simpl.
  destruct (dedup_loop_spec ids [y] [y]) as (_ & _ & (tail & ->));
    [tauto | repeat constructor; auto | reflexivity].
Qed.

Lemma index_of_absent (x : Z) (l : list Z) : index_of x l = None <-> ~ In x l.
Proof.
  induction l as [|y l IH]; simpl; [tauto|].
  destruct (Z.eqb_spec y x) as [->|Hne].
  - split; [discriminate | intros H; exfalso; apply H; left; reflexivity].
  - destruct (index_of x l); simpl.
    + split; [discriminate|]. intros H.
      assert (Hn : ~ In x l) by tauto. apply IH in Hn. discriminate.
    + split; [|reflexivity]. intros _ [E|Hin]; [congruence|].
      apply (proj1 IH); auto.
Qed.

Lemma index_of_first (x : Z) (pre post : list Z) :
  ~ In x pre -> index_of x (pre ++ x :: post) = Some (length pre).
Proof.
  induction pre as [|y pre IH]; simpl; intros H.
  - rewrite Z.eqb_refl. reflexivity.
  - destruct (Z.eqb_spec y x) as [->|_]; [exfalso; apply H; left; reflexivity|].
    rewrite IH by tauto. reflexivity.
Qed.

Lemma index_of_Some (x : Z) (l : list Z) (i : nat) :
  index_of x l = Some i ->
  exists pre post, l = pre ++ x :: post /\ length pre = i /\ ~ In x pre.
Proof.
  revert i. induction l as [|y l IH]; simpl; intros i H; [discriminate|].
  destruct (Z.eqb_spec y x) as [->|Hne].
  - injection H as <-. exists [], l. repeat split. tauto.
  - destruct (index_of x l) as [j|]; [|discriminate]. injection H as <-.
    destruct (IH j eq_refl) as (pre & post & -> & <- & Hpre).
    exists (y :: pre), post. repeat split. simpl. intros [E|Hin]; [congruence|tauto].
Qed.

(** The id chosen once the page is known: the part of
    [next_similar_election_id] after the extraction of the ids. *)
Lemma next_similar_after_fetch (srv : server) (w w' : world) (current_id : Z)
      (r : Response) (ids : list Z) :
  DataCollection.get srv (jump_url current_id) w = (Returns r, w') ->
  status_code r = 200%Z ->
  ints (findall_view 0 (text r)) = Returns ids ->
  DataCollection.next_similar_election_id srv w current_id =
  match dedup_loop ids [] [] with
  | [] => (Raises (RuntimeError ("No similar results found for "
                                   ++ Py.str_of_int current_id)), w')
  | first :: rest =>
      match index_of current_id (first :: rest) with
      | Some idx =>
          (Returns (nth ((idx + 1) mod length (first :: rest)) (first :: rest) first),
           w')
      | None => (Returns first, w')
      end
  end.
Proof.
  intros Hget Hst Hids. unfold DataCollection.next_similar_election_id.
  rewrite Hget, Hst, Hids. simpl negb. cbv iota.
  destruct (dedup_loop ids [] []); reflexivity.
Qed.

(** X22.  A page answered with status 200 that holds at least one link
    of the form /elections/view/<digits>/ yields a next id when every
    linked number has at most 4300 digits: then neither the conversion
    of the links nor the choice of the successor can raise.  A linked
    number of more digits makes the conversion, and with it the call,
    raise a ValueError. *)
Theorem next_similar_returns_for_short_links (srv : server) (w w' : world)
        (current_id : Z) (r : Response) :
  DataCollection.get srv (jump_url current_id) w = (Returns r, w') ->
  status_code r = 200%Z ->
  findall_view 0 (text r) <> [] ->
  (Forall within_digit_limit (findall_view 0 (text r)) ->
   exists nxt,
     DataCollection.next_similar_election_id srv w current_id =
       (Returns nxt, w')) /\
  (Exists (fun d => ~ within_digit_limit d) (findall_view 0 (text r)) ->
   exists msg,
     DataCollection.next_similar_election_id srv w current_id =
       (Raises (ValueError msg), w')).
Proof.
  intros Hget Hst Hne. split.
  - intros Hlim.
    destruct (ints_numerals _ (findall_view_numerals (text r) 0) Hlim)
      as (ids & Hids & Hlen).
    rewrite (next_similar_after_fetch _ _ _ _ _ _ Hget Hst Hids).
    destruct (dedup_spec ids) as (_ & Hin & Hhd).
    destruct ids as [|x ids].
    { destruct (findall_view 0 (text r)); [congruence | discriminate]. }
    destruct (dedup_loop (x :: ids) [] []) as [|first rest]; [discriminate|].
    destruct (index_of current_id (first :: rest)); eexists; reflexivity.
  - intros Hlong.
    destruct (ints_numerals_long _ (findall_view_numerals (text r) 0) Hlong)
      as [msg Hmsg].
    exists msg. unfold DataCollection.next_similar_election_id.
    rewrite Hget, Hst, Hmsg. reflexivity.
Qed.

Lemma next_similar_Returns_inv (srv : server) (w w' : world) (current_id nxt : Z) :
  DataCollection.next_similar_election_id srv w current_id = (Returns nxt, w') ->
  exists r ids,
    DataCollection.get srv (jump_url current_id) w = (Returns r, w') /\
    status_code r = 200%Z /\
    ints (findall_view 0 (text r)) = Returns ids.
Proof.
  unfold DataCollection.next_similar_election_id.
  destruct (DataCollection.get srv (jump_url current_id) w) as [[r|e] w1] eqn:Hget;
    [|discriminate].
  destruct (status_code r =? 200)%Z eqn:Est; simpl negb; cbv iota; [|discriminate].
  apply Z.eqb_eq in Est.
  destruct (ints (findall_view 0 (text r))) as [ids|e] eqn:Hids; [|discriminate].
  intros H. exists r, ids.
  assert (w1 = w').
  { destruct (dedup_loop ids [] []) as [|first rest]; [discriminate|].
    destruct (index_of current_id (first :: rest)); congruence. }
  subst w1. split; [reflexivity|]. split; assumption.
Qed.

(** X23.  The id returned is one of the ids linked from the page, and when
    the page links at least two different ids it differs from the
    current one. *)
Theorem next_similar_listed_and_moves (srv : server) (w w' : world)
        (current_id nxt : Z) :
  DataCollection.next_similar_election_id srv w current_id = (Returns nxt, w') ->
  exists r ids,
    DataCollection.get srv (jump_url current_id) w = (Returns r, w') /\
    ints (findall_view 0 (text r)) = Returns ids /\
    In nxt ids /\
    ((exists a b, In a ids /\ In b ids /\ a <> b) -> nxt <> current_id).
Proof.
  intros H. destruct (next_similar_Returns_inv _ _ _ _ _ H) as (r & ids & Hget & Hst & Hids).
  exists r, ids. split; [assumption|]. split; [assumption|].
  rewrite (next_similar_after_fetch _ _ _ _ _ _ Hget Hst Hids) in H.
  destruct (dedup_spec ids) as (Hnd & Hin & _).
  destruct (dedup_loop ids [] []) as [|first rest] eqn:Eo; [discriminate|].
  remember (first :: rest) as ordered eqn:Eord.
  destruct (index_of current_id ordered) as [idx|] eqn:Ei.
  - injection H as <-.
    destruct (index_of_Some _ _ _ Ei) as (pre & post & Hsplit & Hlen & _).
    assert (Hidx : idx < length ordered).
    { rewrite Hsplit, length_app. simpl. lia. }
    assert (Hm : (idx + 1) mod length ordered < length ordered).
    { apply Nat.mod_upper_bound. lia. }
    split; [apply Hin, nth_In; assumption|].
    intros (a & b & Ha & Hb & Hab) Heq.
    assert (Hcur : nth idx ordered first = current_id).
    { rewrite Hsplit, app_nth2 by lia. rewrite <- Hlen, Nat.sub_diag. reflexivity. }
    rewrite <- Hcur in Heq.
    apply (proj1 (NoDup_nth ordered first) Hnd) in Heq; [|assumption|assumption].
    assert (Hlen2 : 2 <= length ordered).
    { apply Hin in Ha, Hb. rewrite Eord in *.
      destruct rest as [|second rest']; [|simpl; lia].
      destruct Ha as [<-|[]], Hb as [<-|[]]. congruence. }
    destruct (Nat.eq_dec (idx + 1) (length ordered)) as [E|E].
    + rewrite E, Nat.Div0.mod_same in Heq. lia.
    + rewrite Nat.mod_small in Heq by lia. lia.
  - injection H as <-. apply index_of_absent in Ei. rewrite Eord in *.
    split; [apply Hin; left; reflexivity|].
    intros _ Heq. apply Ei. rewrite <- Heq. left. reflexivity.
Qed.


(** X25.  When the current id is not linked from the page, the first linked
    id is returned. *)
Theorem next_similar_unlisted (srv : server) (w w' : world) (current_id : Z)
        (r : Response) (x : Z) (ids : list Z) :
  DataCollection.get srv (jump_url current_id) w = (Returns r, w') ->
  status_code r = 200%Z ->
  ints (findall_view 0 (text r)) = Returns (x :: ids) ->
  ~ In current_id (x :: ids) ->
  DataCollection.next_similar_election_id srv w current_id = (Returns x, w').
Proof.
  intros Hget Hst Hids Hnot.
  rewrite (next_similar_after_fetch _ _ _ _ _ _ Hget Hst Hids).
  destruct (dedup_spec (x :: ids)) as (_ & Hin & Hhd).
  destruct (dedup_loop (x :: ids) [] []) as [|first rest]; [discriminate|].
  simpl in Hhd. injection Hhd as ->.
  replace (index_of current_id (x :: rest)) with (@None nat); [reflexivity|].
  symmetry. apply index_of_absent. intros H. apply Hnot, Hin. assumption.
Qed.

(* ---- next_after_selected ---- *)

(** X26.  [next_after_selected] returns the id that follows the first
    occurrence of the selected one, and raises StopIteration when that
    occurrence is the last element. *)
Theorem next_after_selected_successor (pre post : list Z) (selected_id : Z) :
  ~ In selected_id pre ->
  PrecinctResults.next_after_selected (pre ++ selected_id :: post) selected_id =
  match post with
  | y :: _ => Returns y
  | [] => Raises (StopIteration "Reached the end of the Similar results list.")
  end.
Proof.
  intros Hpre. unfold PrecinctResults.next_after_selected.
  rewrite (index_of_first _ _ _ Hpre), length_app. cbv zeta.
  destruct post as [|y post]; simpl length.
  - destruct (Nat.leb_spec (length pre + 1) (length pre + 1)); [reflexivity|lia].
  - destruct (Nat.leb_spec (length pre + S (S (length post))) (length pre + 1));
      [lia|].
    rewrite nth_error_app2 by lia.
    replace (length pre + 1 - length pre) with 1 by lia. reflexivity.
Qed.

(** X27.  For an id that is not in the list, [next_after_selected] starts
    over: it returns the first element, and raises StopIteration only
    for the empty list. *)
Theorem next_after_selected_unknown (ids : list Z) (selected_id : Z) :
  ~ In selected_id ids ->
  PrecinctResults.next_after_selected ids selected_id =
  match ids with
  | x :: _ => Returns x
  | [] => Raises (StopIteration "Reached the end of the Similar results list.")
  end.
Proof.
  intros H. unfold PrecinctResults.next_after_selected.
  rewrite (proj2 (index_of_absent _ _) H).
  destruct ids; reflexivity.
Qed.

(* ---- file names ---- *)




Lemma take_drop (k : nat) (s : string) : (take k s ++ drop k s)%string = s.
Proof.
  revert s. induction k as [|k IH]; intros [|c s]; simpl; try reflexivity.
  rewrite IH. reflexivity.
Qed.



Lemma has_char_drop (c : ascii) (k : nat) :
  forall s, has_char c s = false -> has_char c (drop k s) = false.
Proof.
  induction k as [|k IH]; intros [|d s] H; simpl; try assumption.
  simpl in H. apply orb_false_iff in H. apply IH. tauto.
Qed.

Lemma has_char_take (c : ascii) (k : nat) :
  forall s, has_char c s = false -> has_char c (take k s) = false.
Proof.
  induction k as [|k IH]; intros [|d s] H; simpl; try reflexivity.
  simpl in H. apply orb_false_iff in H. destruct H as [Hd Hs].
  rewrite Hd, (IH _ Hs). reflexivity.
Qed.

Lemma drop_drop (j : nat) :
  forall k s, drop j (drop k s) = drop (k + j) s.
Proof.
  intros k. induction k as [|k IH]; intros s; [reflexivity|].
  destruct s as [|c s]; simpl; [destruct j; reflexivity | apply IH].
Qed.

Lemma rfind_None (c : ascii) (s : string) :
  rfind c s = None <-> has_char c s = false.
Proof.
  induction s as [|d s IH]; simpl; [tauto|].
  destruct (rfind c s) as [i|].
  - split; [discriminate|]. intros H. apply orb_false_iff in H.
    destruct H as [_ H]. apply IH in H. discriminate.
  - rewrite (proj1 IH eq_refl), orb_false_r.
    destruct (Ascii.eqb d c); split; congruence.
Qed.

Lemma rfind_Some (c : ascii) (s : string) (i : nat) :
  rfind c s = Some i ->
  has_char c (drop (S i) s) = false /\
  exists t, drop i s = String c t.
Proof.
  revert i. induction s as [|d s IH]; simpl; intros i H; [discriminate|].
  destruct (rfind c s) as [j|] eqn:E.
  - injection H as <-. apply (IH j eq_refl).
  - destruct (Ascii.eqb_spec d c) as [->|_]; [|discriminate]. injection H as <-.
    split; [apply rfind_None; assumption | exists s; reflexivity].
Qed.


Lemma splitext_parts (p : string) :
  splitext p = (p, EmptyString) \/
  exists dotIndex t,
    splitext p = (take dotIndex p, drop dotIndex p) /\
    drop dotIndex p = String "." t /\
    has_char "/" (drop dotIndex p) = false.
Proof.
  unfold splitext. destruct (rfind "." p) as [di|] eqn:Edot; [|left; reflexivity].
  destruct (rfind_Some _ _ _ Edot) as [_ (t & Ht)].
  set (fi := match rfind "/" p with Some si => S si | None => 0 end).
  destruct (Nat.leb_spec fi di) as [Hle|_]; [|left; reflexivity].
  destruct (for_first _ _) as [parts|] eqn:Ef; [|left; reflexivity].
  right. exists di, t.
  apply for_first_Some in Ef. destruct Ef as (l1 & i & l2 & _ & Hi & _).
  destruct (String.get i p) as [c|]; [|discriminate].
  destruct (negb (Ascii.eqb c ".")); [|discriminate]. injection Hi as <-.
  split; [reflexivity|]. split; [assumption|].
  unfold fi in Hle. destruct (rfind "/" p) as [si|] eqn:Esep.
  - destruct (rfind_Some _ _ _ Esep) as [Hno _].
    replace di with (S si + (di - S si)) by lia. rewrite <- drop_drop.
    apply has_char_drop. assumption.
  - apply has_char_drop, rfind_None. assumption.
Qed.

Lemma splitext_join (p : string) :
  (fst (splitext p) ++ snd (splitext p))%string = p.
Proof.
  destruct (splitext_parts p) as [->|(di & t & -> & _)]; simpl.
  - induction p as [|c p IH]; simpl; [reflexivity | rewrite IH; reflexivity].
  - apply take_drop.
Qed.



(** X28.  Both [get] functions send between one and five requests, and a
    response they return is the answer to the last request; the one of
    [data_collection.py] never returns a status from 500 to 599, the one
    of [get_precinct_election_results.py] never one from 400 to 599. *)
Theorem get_request_budget (srv : server) (url : string) (w w' : world)
        (o : outcome Response) :
  (DataCollection.get srv url w = (o, w') ->
   requests w < requests w' <= requests w + 5 /\
   forall resp,
     o = Returns resp ->
     ((status_code resp < 500)%Z \/ (600 <= status_code resp)%Z) /\
     srv (requests w' - 1) url = Answer resp) /\
  (PrecinctResults.get srv url w = (o, w') ->
   requests w < requests w' <= requests w + 5 /\
   forall resp,
     o = Returns resp ->
     ((status_code resp < 400)%Z \/ (600 <= status_code resp)%Z) /\
     srv (requests w' - 1) url = Answer resp).
Proof.
  split; intros H;
    [unfold DataCollection.get in H | unfold PrecinctResults.get in H];
    apply request_loop_bounds in H; destruct H as (Hb & Hlt & Hret);
    simpl in Hb; (split; [split; [apply Hlt; discriminate | lia]|]);
    intros resp Hresp; destruct (Hret resp Hresp) as [Hst [[Hn _]|[Hs _]]];
    try discriminate; split; assumption.
Qed.

Lemma lstrip_sub_ws_run (s : string) :
  Py.lstrip (Py.sub_ws_run true s) = Py.sub_ws_run false (Py.lstrip s) /\
  Py.lstrip (Py.sub_ws_run false s) = Py.sub_ws_run false (Py.lstrip s).
Proof.
  induction s as [|c s [IHt IHf]]; [split; reflexivity|].
  cbn [Py.lstrip Py.sub_ws_run].
  destruct (Py.isspace c) eqn:E.
  - cbn [Py.lstrip]. change (Py.isspace " ") with true. cbv iota.
    rewrite IHt. split; reflexivity.
  - cbn [Py.lstrip Py.sub_ws_run]. rewrite E. split; reflexivity.
Qed.

Lemma rstrip_empty_sub_ws_run (s : string) :
  Py.sub_ws_run true (Py.rstrip s) = "" -> Py.rstrip s = "".
Proof.
  intros H. apply (sub_ws_run_shape _ (rstrip_no_trailing s)). assumption.
Qed.

Lemma rstrip_sub_ws_run (s : string) :
  forall b, Py.rstrip (Py.sub_ws_run b s) = Py.sub_ws_run b (Py.rstrip s).
Proof.
  induction s as [|c s IH]; intros b; [destruct b; reflexivity|].
  cbn [Py.rstrip Py.sub_ws_run].
  destruct (Py.isspace c) eqn:E; cbn [andb].
  - destruct (Py.rstrip s) as [|d t] eqn:Er; cbn [Py.is_empty]; cbv iota.
    + destruct b.
      * rewrite IH. reflexivity.
      * cbn [Py.rstrip]. rewrite IH. cbn [Py.sub_ws_run Py.is_empty].
        change (Py.isspace " ") with true. reflexivity.
    + assert (Hne : Py.sub_ws_run true (String d t) <> "").
      { intros H. rewrite <- Er in H. apply rstrip_empty_sub_ws_run in H.
        congruence. }
      destruct b.
      * rewrite IH.
        change (Py.sub_ws_run true (String c (String d t)))
          with (if Py.isspace c
                then Py.sub_ws_run true (String d t)
                else String c (Py.sub_ws_run false (String d t))).
        rewrite E. reflexivity.
      * cbn [Py.rstrip]. rewrite IH.
        change (Py.isspace " ") with true. cbn [andb].
        change (Py.sub_ws_run false (String c (String d t)))
          with (if Py.isspace c
                then String " " (Py.sub_ws_run true (String d t))
                else String c (Py.sub_ws_run false (String d t))).
        rewrite E.
        destruct (Py.sub_ws_run true (String d t)) eqn:Es; [congruence|].
        reflexivity.
  - cbn [Py.rstrip]. rewrite E. cbn [andb]. rewrite IH.
    cbn [Py.sub_ws_run]. rewrite E. reflexivity.
Qed.

(** Collapsing the whitespace and trimming commute: the labels of
    [parse_jump_list] are normalised exactly as [_norm_cell] normalises
    a cell. *)
Theorem strip_sub_ws_commute (s : string) :
  Py.strip (Py.sub_ws s) = _norm_cell (Str s).
Proof.
  unfold _norm_cell. simpl. unfold Py.strip, Py.sub_ws.
  rewrite (proj2 (lstrip_sub_ws_run s)). apply rstrip_sub_ws_run.
Qed.

(* ---- parse_jump_list ---- *)

Lemma options_loop_spec (found : list (string * string * string)) :
  forall ids labels sel ids' labels' sel',
    PrecinctResults.options_loop found ids labels sel = Returns (ids', labels', sel') ->
    exists more,
      ids' = ids ++ more /\
      Forall2 PrecinctResults.option_id found more /\
      labels' = labels ++ map (fun f => _norm_cell (Str (snd f))) found /\
      match PrecinctResults.marked_options found with
      | f :: _ => exists eid, PrecinctResults.option_id f eid /\ sel' = Some eid
      | [] => sel' = sel
      end.
Proof.
  induction found as [|[[val attrs] label] found IH];
    intros ids labels sel ids' labels' sel' H; simpl in H.
  - injection H as <- <- <-. exists []. rewrite !app_nil_r.
    repeat split. constructor.
  - destruct (Py.int_literal val) as [eid| |n] eqn:Hval;
      [|discriminate|discriminate].
    apply IH in H. destruct H as (more & -> & HF & -> & Hsel).
    exists (eid :: more). rewrite <- !app_assoc.
    split; [reflexivity|].
    split; [constructor; [exact Hval | exact HF]|].
    split; [simpl; rewrite strip_sub_ws_commute; reflexivity|].
    unfold PrecinctResults.marked_options in *. cbn [filter fst snd].
    destruct (Py.search PrecinctResults.selected_attr attrs) eqn:Em;
      [|exact Hsel].
    cbn [rev].
    destruct (rev (filter _ found)) as [|g l]; cbn [app].
    + exists eid. split; [exact Hval | exact Hsel].
    + exact Hsel.
Qed.

Lemma Forall2_In_left {A B : Type} (P : A -> B -> Prop) (l : list A)
      (l' : list B) (x : A) :
  Forall2 P l l' -> In x l -> exists y, In y l' /\ P x y.
Proof.
  induction 1 as [|a b l l' Hab _ IH]; intros Hin; [contradiction|].
  destruct Hin as [->|Hin].
  - exists b. split; [left; reflexivity | assumption].
  - destruct (IH Hin) as (y & Hy & Hxy). exists y. split; [right|]; assumption.
Qed.

(** X29.  What [parse_jump_list] returns for the options found in a
    page: the ids are the values of the options, one per option and in
    page order; the labels are those of the options, each normalised
    as [_norm_cell] normalises a cell; the selected id is the id of the
    last option marked as selected, and without such an option the
    current id when it is listed and the first id otherwise; it is
    always one of the ids. *)
Theorem parse_jump_list_selected_is_listed
        (found : list (string * string * string)) (current_id : Z)
        (ids : list Z) (labels : list string) (selected_id : Z) :
  PrecinctResults.parse_jump_list found current_id =
    Returns (ids, labels, selected_id) ->
  Forall2 PrecinctResults.option_id found ids /\
  labels = map (fun f => _norm_cell (Str (snd f))) found /\
  In selected_id ids /\
  match PrecinctResults.marked_options found with
  | f :: _ => PrecinctResults.option_id f selected_id
  | [] => if mem current_id ids then selected_id = current_id
          else exists rest, ids = selected_id :: rest
  end.
Proof.
  unfold PrecinctResults.parse_jump_list.
  destruct (PrecinctResults.options_loop found [] [] None)
    as [[[ids0 labels0] sel0]|e] eqn:E; [|discriminate].
  apply options_loop_spec in E. destruct E as (more & -> & HF & -> & Hsel).
  change ([] ++ more) with more.
  change ([] ++ map (fun f => _norm_cell (Str (snd f))) found)
    with (map (fun f => _norm_cell (Str (snd f))) found).
  destruct more as [|first rest]; [discriminate|].
  destruct (PrecinctResults.marked_options found) as [|g l] eqn:Eg.
  - subst sel0.
    destruct (mem current_id (first :: rest)) eqn:Em; intros [= <- <- <-];
      (split; [exact HF|]); (split; [reflexivity|]); rewrite Em.
    + split; [apply mem_In; exact Em | reflexivity].
    + split; [left; reflexivity | exists rest; reflexivity].
  - destruct Hsel as (eid & Hg & ->). intros [= <- <- <-].
    split; [exact HF|]. split; [reflexivity|]. split; [|exact Hg].
    assert (Hin : In g found).
    { assert (H : In g (PrecinctResults.marked_options found))
        by (rewrite Eg; left; reflexivity).
      unfold PrecinctResults.marked_options in H. apply in_rev in H.
      apply filter_In in H. tauto. }
    destruct (Forall2_In_left _ _ _ _ HF Hin) as (y & Hy & Hgy).
    unfold PrecinctResults.option_id in Hg, Hgy. rewrite Hg in Hgy.
    injection Hgy as <-. exact Hy.
Qed.

(* ---- download_precinct_csv ---- *)






(* ------------------------------------------------------------------ *)
(** ** The properties of the scraper at concrete inputs *)

Lemma get_request_budget_witness :
  (requests Scenario.w0 < 3 <= requests Scenario.w0 + 5 /\
   forall resp,
     Returns Scenario.page = Returns resp ->
     ((status_code resp < 500)%Z \/ (600 <= status_code resp)%Z) /\
     Scenario.flaky (3 - 1) "/" = Answer resp) /\
  (requests Scenario.w0 < 3 <= requests Scenario.w0 + 5 /\
   forall resp,
     Returns Scenario.page = Returns resp ->
     ((status_code resp < 400)%Z \/ (600 <= status_code resp)%Z) /\
     Scenario.flaky (3 - 1) "/" = Answer resp).
Proof.
  split.
  - apply (proj1 (get_request_budget Scenario.flaky "/" Scenario.w0
                    (mkWorld 3 [1; 2]) (Returns Scenario.page))).
    vm_compute. reflexivity.
  - apply (proj2 (get_request_budget Scenario.flaky "/" Scenario.w0
                    (mkWorld 3 [1; 2]) (Returns Scenario.page))).
    vm_compute. reflexivity.
Defined.

Lemma get_retries_until_answer_witness :
  DataCollection.get Scenario.flaky "/" Scenario.w0 =
    (Returns Scenario.page,
     {| requests := requests Scenario.w0 + 2 + 1;
        slept := slept Scenario.w0 ++ seq 1 2 |}) /\
  PrecinctResults.get Scenario.flaky "/" Scenario.w0 =
    (if (status_code Scenario.page <? 400)%Z then Returns Scenario.page
     else Raises (HTTPError (status_code Scenario.page)),
     {| requests := requests Scenario.w0 + 2 + 1;
        slept := slept Scenario.w0 ++ seq 1 2 |}).
Proof.
  apply (get_retries_until_answer Scenario.flaky "/" Scenario.w0 2 Scenario.page).
  - lia.
  - intros i Hi. exists Scenario.unavailable.
    destruct i as [|[|i]]; [split; [reflexivity | simpl; lia].. | lia].
  - reflexivity.
  - simpl. lia.
Defined.

Lemma get_gives_up_after_five_witness :
  exists last,
    Scenario.down (requests Scenario.w0 + 4) "/" = Answer last /\
    let o := if (status_code last <? 600)%Z
             then Raises (HTTPError (status_code last))
             else Returns last in
    let w' := {| requests := requests Scenario.w0 + 5;
                 slept := slept Scenario.w0 ++ [1; 2; 3; 4; 5] |} in
    DataCollection.get Scenario.down "/" Scenario.w0 = (o, w') /\
    PrecinctResults.get Scenario.down "/" Scenario.w0 = (o, w').
Proof.
  apply (get_gives_up_after_five Scenario.down "/" Scenario.w0).
  intros i _. exists Scenario.unavailable. split; [reflexivity | simpl; lia].
Defined.

Lemma next_similar_returns_for_short_links_witness :
  (exists nxt,
      DataCollection.next_similar_election_id Scenario.site Scenario.w0 101 =
      (Returns nxt, mkWorld 1 [])) /\
  (exists msg,
      DataCollection.next_similar_election_id Scenario.long_site Scenario.w0 101 =
      (Raises (ValueError msg), mkWorld 1 [])).
Proof.
  split.
  - apply (next_similar_returns_for_short_links Scenario.site Scenario.w0
             (mkWorld 1 []) 101 Scenario.page).
    + vm_compute. reflexivity.
    + reflexivity.
    + vm_compute. discriminate.
    + replace (findall_view 0 (text Scenario.page))
        with ["101"; "102"; "101"; "103"] by (vm_compute; reflexivity).
      unfold within_digit_limit.
      repeat (constructor; [vm_compute; discriminate|]). constructor.
  - apply (next_similar_returns_for_short_links Scenario.long_site Scenario.w0
             (mkWorld 1 []) 101 Scenario.long_page).
    + vm_compute. reflexivity.
    + reflexivity.
    + vm_compute. discriminate.
    + replace (findall_view 0 (text Scenario.long_page)) with [long_number]
        by (vm_compute; reflexivity).
      constructor. unfold within_digit_limit. vm_compute. intros H. apply H.
      reflexivity.
Defined.

Lemma next_similar_listed_and_moves_witness :
  exists r ids,
    DataCollection.get Scenario.site (jump_url 101) Scenario.w0 =
      (Returns r, mkWorld 1 []) /\
    ints (findall_view 0 (text r)) = Returns ids /\
    In 102%Z ids /\
    ((exists a b, In a ids /\ In b ids /\ a <> b) -> 102%Z <> 101%Z).
Proof.
  apply (next_similar_listed_and_moves Scenario.site Scenario.w0 (mkWorld 1 [])).
  vm_compute. reflexivity.
Defined.


Lemma next_similar_unlisted_witness :
  DataCollection.next_similar_election_id Scenario.site Scenario.w0 999 =
  (Returns 101%Z, mkWorld 1 []).
Proof.
  apply (next_similar_unlisted Scenario.site Scenario.w0 (mkWorld 1 []) 999
           Scenario.page 101 [102; 101; 103]%Z).
  - vm_compute. reflexivity.
  - reflexivity.
  - vm_compute. reflexivity.
  - simpl. lia.
Defined.

Lemma next_after_selected_successor_witness :
  PrecinctResults.next_after_selected ([101] ++ 102 :: [103])%Z 102 = Returns 103%Z.
Proof.
  apply (next_after_selected_successor [101]%Z [103]%Z 102). simpl. lia.
Defined.

Lemma next_after_selected_unknown_witness :
  PrecinctResults.next_after_selected [101; 102]%Z 7 = Returns 101%Z.
Proof. apply (next_after_selected_unknown [101; 102]%Z 7). simpl. lia. Defined.

Lemma parse_jump_list_selected_is_listed_witness :
  Forall2 PrecinctResults.option_id Scenario.options [101; 102]%Z /\
  ["President General"; "Governor"] =
    map (fun f => _norm_cell (Str (snd f))) Scenario.options /\
  In 101%Z [101; 102]%Z /\
  match PrecinctResults.marked_options Scenario.options with
  | f :: _ => PrecinctResults.option_id f 101
  | [] => if mem 999 [101; 102]%Z then 101%Z = 999%Z
          else exists rest, [101; 102]%Z = 101%Z :: rest
  end.
Proof.
  apply (parse_jump_list_selected_is_listed Scenario.options 999).
  vm_compute. reflexivity.
Defined.


(** With the empty directory name nothing is requested and nothing is
    written. *)
Example download_into_empty_outdir :
  PrecinctResults.download_precinct_csv Scenario.sound_disk Scenario.csv_site
    Scenario.w0 5 "President/General 2024" "" =
  (Raises (FileNotFoundError "[Errno 2] No such file or directory: ''"),
   Scenario.w0, [Makedirs ""]).
Proof. reflexivity. Qed.

(** A connection that breaks after the first piece leaves the file
    behind, with that piece in it, although the call raises. *)
Example download_broken_stream :
  PrecinctResults.download_precinct_csv Scenario.sound_disk Scenario.broken_site
    Scenario.w0 5 "President/General 2024" "out" =
  (Raises (RequestException "Connection broken: IncompleteRead"),
   mkWorld 1 [],
   [Makedirs "out";
    OpenWb "out/VA_President_General_2024_precincts.csv";
    WriteChunk "out/VA_President_General_2024_precincts.csv" "a,";
    CloseFile "out/VA_President_General_2024_precincts.csv"]).
Proof. vm_compute. reflexivity. Qed.
